(** * DriveWise forward-collision-warning core: tracker and lane-aware risk engine

    A shallow embedding of
    - [modules/feature_extractors/lane_detector.py] (module [LaneDetector]),
    - [modules/analyzers/collision_predictor.py]    (module [CollisionPredictor]),
    - [plugins/kalman_tracker.py]                   (module [KalmanTracker]),
    - [modules/analyzers/tracker.py]                (module [Tracker]).

    Conventions.  Python [int]s are [Z].  Python floats are idealised as exact
    rationals [Q]; the special values [float('inf')], [-inf] and [nan] are
    explicit constructors of [pyfloat], the type of every time-to-collision
    value.  Strings that the code uses as enumerations (threat types, risk
    levels, directions) are inductive types.  Mutable object state is passed
    explicitly. *)

From Stdlib Require Import QArith Qabs Qround Lqa ZArith Lia Bool Ascii String.
From stdpp Require Import base option list gmap strings.

Local Open Scope Z_scope.
Set Warnings "-clear-no-such-hyp".

(** ** Numbers *)

Definition Qleb (a b : Q) : bool := Qle_bool a b.
Definition Qltb (a b : Q) : bool := negb (Qle_bool b a).

(** Python's two-argument [max(a, b)] and [min(a, b)]: the first argument is
    kept unless the second is strictly larger (resp. smaller). *)
Definition py_max (a b : Q) : Q := if Qltb a b then b else a.
Definition py_min (a b : Q) : Q := if Qltb b a then b else a.

(** [int(x)] on a float: truncation toward zero. *)
Definition py_int (x : Q) : Z := Z.quot (Qnum x) (Zpos (Qden x)).

(** Floats that may be infinite or NaN. *)
Inductive pyfloat : Type :=
| Fin (q : Q)
| PInf
| NInf
| NaN.

(** IEEE comparison [a < b]; every comparison with NaN is false. *)
Definition fl_ltb (a b : pyfloat) : bool :=
  match a, b with
  | NaN, _ | _, NaN => false
  | Fin x, Fin y => Qltb x y
  | Fin _, PInf => true
  | Fin _, NInf => false
  | PInf, _ => false
  | NInf, NInf => false
  | NInf, _ => true
  end.

Definition fl_gtb (a b : pyfloat) : bool := fl_ltb b a.

(** A time-to-collision is well formed when it is [+inf] or finite and
    strictly positive. *)
Definition ttc_wf (t : pyfloat) : Prop :=
  match t with
  | PInf => True
  | Fin q => (0 < q)%Q
  | NInf | NaN => False
  end.

(** ** Strings *)

Definition lower_ascii (c : ascii) : ascii :=
  let n := nat_of_ascii c in
  if (Nat.leb 65 n && Nat.leb n 90)%bool then ascii_of_nat (n + 32) else c.

(** [str.lower()] on ASCII text. *)
Fixpoint lower (s : string) : string :=
  match s with
  | EmptyString => EmptyString
  | String c s' => String (lower_ascii c) (lower s')
  end.

(** ** Configuration *)

Record ObjectSize : Type := mkObjectSize {
  height : Q;
  width : Q
}.

(** Modelled from the spec: [config.py] is not among the sources.  The spec's
    configuration surface lists the distance thresholds (meters), the TTC
    thresholds (seconds), the known object sizes per class, the camera focal
    length (pixels) and the capped history length; they are taken as the
    fields of a configuration value that every definition below receives. *)
Record Config : Type := mkConfig {
  CRITICAL_DISTANCE_THRESHOLD : Q;
  HIGH_RISK_DISTANCE_THRESHOLD : Q;
  MEDIUM_RISK_DISTANCE_THRESHOLD : Q;
  CRITICAL_TTC_THRESHOLD : Q;
  HIGH_RISK_TTC_THRESHOLD : Q;
  MEDIUM_RISK_TTC_THRESHOLD : Q;
  KNOWN_OBJECT_SIZES : gmap string ObjectSize;
  CAMERA_FOCAL_LENGTH : Q;
  TRACK_HISTORY_LENGTH : Z
}.

(** A bounding box [[x1, y1, x2, y2]]. *)
Record BBox : Type := mkBBox {
  bx1 : Q;
  by1 : Q;
  bx2 : Q;
  by2 : Q
}.

(** ** modules/feature_extractors/lane_detector.py *)

Module LaneDetector.

Inductive Direction : Type := DirLeft | DirRight | DirNone.

Definition Direction_eqb (a b : Direction) : bool :=
  match a, b with
  | DirLeft, DirLeft | DirRight, DirRight | DirNone, DirNone => true
  | _, _ => false
  end.

(** A line [[x1, y1, x2, y2]] as [cv2.HoughLinesP] reports it. *)
Definition Line : Type := (Z * Z * Z * Z)%type.

Definition lx1 (l : Line) : Z := let '(a, _, _, _) := l in a.
Definition ly1 (l : Line) : Z := let '(_, b, _, _) := l in b.
Definition lx2 (l : Line) : Z := let '(_, _, c, _) := l in c.
Definition ly2 (l : Line) : Z := let '(_, _, _, d) := l in d.

(** [LaneInfo]: the fields the analyzers read.  [lanes] duplicates
    [lane_boundaries] as [Lane] objects and is not read anywhere; it is
    left out. *)
Record LaneInfo : Type := mkLaneInfo {
  ego_lane_id : Z;
  lane_boundaries : list (Line * Line);
  lane_change_detected : bool;
  lane_change_direction : Direction;
  frame_width : Z;
  frame_height : Z
}.

(** [LaneInfo.__init__] *)
Definition LaneInfo_init : LaneInfo :=
  {| ego_lane_id := 0;
     lane_boundaries := [];
     lane_change_detected := false;
     lane_change_direction := DirNone;
     frame_width := 0;
     frame_height := 0 |}.

(** What the detector reads from a frame: its shape and the result of
    [cv2.HoughLinesP] on the edge image of its lower half ([None] or a
    list of lines in the coordinates of that lower half). *)
Record Frame : Type := mkFrame {
  shape_height : Z;
  shape_width : Z;
  hough_lines : option (list Line)
}.

(** [np.mean([l[0][0], l[1][0]])] of a boundary segment. *)
Definition mean_x (l : Line) : Q := (inject_Z (lx1 l) + inject_Z (lx2 l)) / 2.

Definition line_center_x (l : Line) : Q := (inject_Z (lx1 l) + inject_Z (lx2 l)) / 2.

(** The loop of [_process_lane_lines]: vertical lines and lines whose slope
    is outside [0.3, 3.0] are skipped, the rest is split by side. *)
Fixpoint split_lines (center_x : Z) (lines : list Line)
    (left_lines right_lines : list Line) : list Line * list Line :=
  match lines with
  | [] => (left_lines, right_lines)
  | line :: rest =>
      if Z.eqb (lx2 line - lx1 line) 0 then
        split_lines center_x rest left_lines right_lines
      else
        let slope := (inject_Z (ly2 line - ly1 line) / inject_Z (lx2 line - lx1 line))%Q in
        if (Qltb (Qabs slope) (3 # 10) || Qltb 3 (Qabs slope))%bool then
          split_lines center_x rest left_lines right_lines
        else if Qltb (line_center_x line) (inject_Z center_x) then
          split_lines center_x rest (left_lines ++ [line]) right_lines
        else
          split_lines center_x rest left_lines (right_lines ++ [line])
  end.

(** [max(ls, key=...)]: the first element with the largest key. *)
Fixpoint max_by (key : Line -> Q) (best : Line) (ls : list Line) : Line :=
  match ls with
  | [] => best
  | l :: rest => max_by key (if Qltb (key best) (key l) then l else best) rest
  end.

(** [min(ls, key=...)]: the first element with the smallest key. *)
Fixpoint min_by (key : Line -> Q) (best : Line) (ls : list Line) : Line :=
  match ls with
  | [] => best
  | l :: rest => min_by key (if Qltb (key l) (key best) then l else best) rest
  end.

(** [_process_lane_lines] *)
Definition _process_lane_lines (lines : list Line) (lane_info : LaneInfo) : LaneInfo :=
  match lines with
  | [] => lane_info
  | _ =>
      let center_x := frame_width lane_info / 2 in
      match split_lines center_x lines [] [] with
      | (l0 :: ls, r0 :: rs) =>
          let left_boundary := max_by line_center_x l0 ls in
          let right_boundary := min_by line_center_x r0 rs in
          {| ego_lane_id := ego_lane_id lane_info;
             lane_boundaries := lane_boundaries lane_info ++ [(left_boundary, right_boundary)];
             lane_change_detected := lane_change_detected lane_info;
             lane_change_direction := lane_change_direction lane_info;
             frame_width := frame_width lane_info;
             frame_height := frame_height lane_info |}
      | _ => lane_info
      end
  end.

(** The [for ... enumerate(lane_boundaries)] loops: index of the first lane
    whose boundaries enclose [x]. *)
Fixpoint find_lane (x : Q) (i : Z) (bs : list (Line * Line)) : option Z :=
  match bs with
  | [] => None
  | (left_boundary, right_boundary) :: rest =>
      if (Qleb (mean_x left_boundary) x && Qleb x (mean_x right_boundary))%bool
      then Some i
      else find_lane x (i + 1) rest
  end.

(** [list.pop(0)] once the list is longer than [n]. *)
Definition cap_history {A : Type} (n : nat) (l : list A) : list A :=
  if Nat.ltb n (length l) then tail l else l.

(** [l[-k]] for [1 <= k <= len(l)]. *)
Definition from_end {A : Type} (l : list A) (k : nat) : option A :=
  l !! (length l - k)%nat.

(** [_detect_ego_position]: returns the new [ego_lane_history] of the
    detector and the updated lane information. *)
Definition _detect_ego_position (ego_lane_history : list Z) (lane_info : LaneInfo)
    : list Z * LaneInfo :=
  match lane_boundaries lane_info with
  | [] => (ego_lane_history, lane_info)
  | _ =>
      let ego_x := frame_width lane_info / 2 in
      let ego_lane :=
        match find_lane (inject_Z ego_x) 0 (lane_boundaries lane_info) with
        | Some i => i
        | None => ego_lane_id lane_info
        end in
      let history := cap_history 10 (ego_lane_history ++ [ego_x]) in
      let '(detected, direction) :=
        if Nat.leb 5 (length history) then
          match from_end history 1, from_end history 5 with
          | Some last, Some fifth =>
              let recent_movement := last - fifth in
              if Z.ltb 30 (Z.abs recent_movement)
              then (true, if Z.ltb 0 recent_movement then DirRight else DirLeft)
              else (lane_change_detected lane_info, lane_change_direction lane_info)
          | _, _ => (lane_change_detected lane_info, lane_change_direction lane_info)
          end
        else (lane_change_detected lane_info, lane_change_direction lane_info) in
      (history,
       {| ego_lane_id := ego_lane;
          lane_boundaries := lane_boundaries lane_info;
          lane_change_detected := detected;
          lane_change_direction := direction;
          frame_width := frame_width lane_info;
          frame_height := frame_height lane_info |})
  end.

(** [SimpleLaneDetector.detect_lanes] *)
Definition detect_lanes (ego_lane_history : list Z) (frame : Frame) : list Z * LaneInfo :=
  let lane_info := LaneInfo_init in
  let lane_info :=
    {| ego_lane_id := ego_lane_id lane_info;
       lane_boundaries := lane_boundaries lane_info;
       lane_change_detected := lane_change_detected lane_info;
       lane_change_direction := lane_change_direction lane_info;
       frame_width := shape_width frame;
       frame_height := shape_height frame |} in
  let roi_start := shape_height frame / 2 in
  let lane_info :=
    match hough_lines frame with
    | Some lines =>
        let adjusted_lines :=
          map (fun l : Line => (lx1 l, ly1 l + roi_start, lx2 l, ly2 l + roi_start)) lines in
        _process_lane_lines adjusted_lines lane_info
    | None => lane_info
    end in
  _detect_ego_position ego_lane_history lane_info.

(** [get_vehicle_lane] *)
Definition get_vehicle_lane (vehicle_bbox : BBox) (lane_info : LaneInfo) : Z :=
  match lane_boundaries lane_info with
  | [] => 0
  | _ =>
      let vehicle_center_x := ((bx1 vehicle_bbox + bx2 vehicle_bbox) / 2)%Q in
      match find_lane vehicle_center_x 0 (lane_boundaries lane_info) with
      | Some i => i
      | None =>
          let center_x := frame_width lane_info / 2 in
          if Qltb vehicle_center_x (inject_Z center_x) then -1 else 1
      end
  end.

End LaneDetector.

(** ** modules/analyzers/collision_predictor.py *)

Module CollisionPredictor.

Inductive ThreatType : Type := same_lane | oncoming | lane_change | none.

Inductive RiskLevel : Type := RiskNone | Low | Medium | High | Critical.

Inductive Movement : Type := unknown | left | right | down | up.

(** A tracked-object dictionary as the tracker emits it; the analyzer reads
    the keys [track_id], [bbox] and [class_name]. *)
Record TrackedObj : Type := mkTrackedObj {
  track_id : Z;
  bbox : BBox;
  class_name : string
}.

(** The dictionary returned by [_analyze_vehicle_movement]. *)
Record MovementInfo : Type := mkMovementInfo {
  movement_direction : Movement;
  relative_speed : Q;
  is_approaching : bool;
  is_changing_lanes : bool;
  lane_change_direction : LaneDetector.Direction
}.

(** The dictionary returned by [_assess_actual_threat]. *)
Record Assessment : Type := mkAssessment {
  is_threat : bool;
  threat_type : ThreatType;
  threat_score : Z
}.

(** The [threat_analysis] dictionary of [_analyze_vehicle_threat], after its
    two [update] calls. *)
Record ThreatAnalysis : Type := mkThreatAnalysis {
  ta_object : TrackedObj;
  ta_distance : Q;
  ta_ttc : pyfloat;
  ta_vehicle_lane : Z;
  ta_movement : MovementInfo;
  ta_assessment : Assessment
}.

(** The result dictionary of [analyze_collision_risk] ([analysis_time_ms],
    a wall-clock measurement, is left out). *)
Record AnalysisResult : Type := mkAnalysisResult {
  risk_level : RiskLevel;
  res_threat_score : Z;
  primary_threat : option TrackedObj;
  threatening_objects : list ThreatAnalysis;
  recommendations : list string;
  total_objects : nat;
  lane_info : option LaneDetector.LaneInfo;
  same_lane_threats : Z;
  oncoming_threats : Z;
  lane_change_threats : Z
}.

(** The mutable state of an [IntelligentCollisionPredictor]: its own
    [vehicle_history] and the [ego_lane_history] of its lane detector. *)
Record Predictor : Type := mkPredictor {
  vehicle_history : gmap Z (list (Q * Q));
  ego_lane_history : list Z
}.

(** [IntelligentCollisionPredictor.__init__] *)
Definition Predictor_init : Predictor :=
  {| vehicle_history := ∅; ego_lane_history := [] |}.

Definition max_history_frames : nat := 10.

Definition ThreatType_eqb (a b : ThreatType) : bool :=
  match a, b with
  | same_lane, same_lane | oncoming, oncoming
  | lane_change, lane_change | none, none => true
  | _, _ => false
  end.

Definition is_vehicle_class (name : string) : bool :=
  existsb (String.eqb (lower name)) ["car"; "truck"; "bus"; "motorcycle"]%string.

Section WithConfig.

Variable cfg : Config.

(** [math.sqrt], which rational arithmetic cannot express, is a parameter. *)
Variable sqrt : Q -> Q.

Definition critical_distance : Q := CRITICAL_DISTANCE_THRESHOLD cfg.
Definition high_risk_distance : Q := HIGH_RISK_DISTANCE_THRESHOLD cfg.
Definition medium_risk_distance : Q := MEDIUM_RISK_DISTANCE_THRESHOLD cfg.
Definition critical_ttc : Q := CRITICAL_TTC_THRESHOLD cfg.
Definition high_risk_ttc : Q := HIGH_RISK_TTC_THRESHOLD cfg.

(** Line 290: the lane ego is moving into. *)
Definition target_lane (lane_info : LaneDetector.LaneInfo) : Z :=
  LaneDetector.ego_lane_id lane_info +
  (if LaneDetector.Direction_eqb (LaneDetector.lane_change_direction lane_info)
        LaneDetector.DirRight then 1 else -1).

(** Lines 252-295 of [_assess_actual_threat]: the [if]/[elif] chain that
    sets [is_threat], [threat_type] and the score before the TTC bonus. *)
Definition classify_threat (vehicle_lane : Z) (lane_info : LaneDetector.LaneInfo)
    (movement_analysis : MovementInfo) (distance : Q) : Assessment :=
  let ego_lane := LaneDetector.ego_lane_id lane_info in
  let no_threat := mkAssessment false none 0 in
  if Z.eqb vehicle_lane ego_lane then
    if Qltb distance medium_risk_distance then
      if (negb (is_approaching movement_analysis)
          || Qltb (relative_speed movement_analysis) 2)%bool then
        mkAssessment true same_lane
          (if Qltb distance critical_distance then 90
           else if Qltb distance high_risk_distance then 70
           else 50)
      else no_threat
    else no_threat
  else if Z.eqb vehicle_lane (-1) then
    if (LaneDetector.lane_change_detected lane_info
        && LaneDetector.Direction_eqb (LaneDetector.lane_change_direction lane_info)
             LaneDetector.DirLeft)%bool then
      if (Qltb distance high_risk_distance && is_approaching movement_analysis)%bool then
        mkAssessment true oncoming 95
      else no_threat
    else no_threat
  else if Z.eqb (Z.abs (vehicle_lane - ego_lane)) 1 then
    if is_changing_lanes movement_analysis then
      let our_lane_direction :=
        if Z.ltb vehicle_lane ego_lane then LaneDetector.DirRight else LaneDetector.DirLeft in
      if LaneDetector.Direction_eqb (lane_change_direction movement_analysis)
           our_lane_direction then
        if Qltb distance medium_risk_distance then
          mkAssessment true lane_change 60
        else no_threat
      else no_threat
    else no_threat
  else if LaneDetector.lane_change_detected lane_info then
    if Z.eqb vehicle_lane (target_lane lane_info) then
      if Qltb distance medium_risk_distance then
        mkAssessment true lane_change 70
      else no_threat
    else no_threat
  else no_threat.

(** Lines 297-301: the TTC bonus. *)
Definition adjust_for_ttc (a : Assessment) (ttc : pyfloat) : Assessment :=
  if (is_threat a && fl_ltb ttc (Fin critical_ttc))%bool then
    mkAssessment (is_threat a) (threat_type a) (Z.min 100 (threat_score a + 20))
  else if (is_threat a && fl_ltb ttc (Fin high_risk_ttc))%bool then
    mkAssessment (is_threat a) (threat_type a) (Z.min 100 (threat_score a + 10))
  else a.

(** [_assess_actual_threat] *)
Definition _assess_actual_threat (vehicle_lane : Z) (lane_info : LaneDetector.LaneInfo)
    (movement_analysis : MovementInfo) (distance : Q) (ttc : pyfloat) : Assessment :=
  adjust_for_ttc (classify_threat vehicle_lane lane_info movement_analysis distance) ttc.

(** [_estimate_distance_fast].  Its [try]/[except] returns 50.0 when a key
    or an operand is missing; the typed record leaves no such case. *)
Definition _estimate_distance_fast (obj : TrackedObj) (frame_height : Z) : Q :=
  let name := lower (class_name obj) in
  let object_height_pixels := (by2 (bbox obj) - by1 (bbox obj))%Q in
  if Qleb object_height_pixels 0 then 50
  else
    let known_height :=
      match KNOWN_OBJECT_SIZES cfg !! name with
      | Some size => height size
      | None => (3 # 2)%Q
      end in
    let focal_length := (inject_Z frame_height * (8 # 10))%Q in
    let distance := ((known_height * focal_length) / object_height_pixels)%Q in
    py_max 1 (py_min distance 100).

(** The movement dictionary before any history is analysed. *)
Definition movement_default : MovementInfo :=
  {| movement_direction := unknown;
     relative_speed := 0;
     is_approaching := false;
     is_changing_lanes := false;
     lane_change_direction := LaneDetector.DirNone |}.

(** Lines 209-239 of [_analyze_vehicle_movement]: the analysis of a
    position window of at least three samples. *)
Definition movement_of_positions (positions : list (Q * Q)) : MovementInfo :=
  if Nat.leb 3 (length positions) then
    match head positions, last positions with
    | Some start_pos, Some end_pos =>
        let dx := (fst end_pos - fst start_pos)%Q in
        let dy := (snd end_pos - snd start_pos)%Q in
        let horizontal := Qltb (Qabs dy) (Qabs dx) in
        let direction :=
          if horizontal then (if Qltb 0 dx then right else left)
          else (if Qltb 0 dy then down else up) in
        let approaching := (negb horizontal && Qltb 0 dy)%bool in
        let changing := Qltb 20 (Qabs dx) in
        {| movement_direction := direction;
           relative_speed := (sqrt (dx * dx + dy * dy) / inject_Z (Z.of_nat (length positions)))%Q;
           is_approaching := approaching;
           is_changing_lanes := changing;
           lane_change_direction :=
             if changing
             then (if Qltb 0 dx then LaneDetector.DirRight else LaneDetector.DirLeft)
             else LaneDetector.DirNone |}
    | _, _ => movement_default
    end
  else movement_default.

(** Lines 188-199: the update of [self.vehicle_history[track_id]]. *)
Definition record_position (history : gmap Z (list (Q * Q))) (vehicle : TrackedObj)
    (track_id : Z) : gmap Z (list (Q * Q)) :=
  let b := bbox vehicle in
  let current_center := (((bx1 b + bx2 b) / 2)%Q, ((by1 b + by2 b) / 2)%Q) in
  let history :=
    match history !! track_id with
    | None => <[track_id := []]> history
    | Some _ => history
    end in
  let appended := default [] (history !! track_id) ++ [current_center] in
  <[track_id := LaneDetector.cap_history max_history_frames appended]> history.

(** [_analyze_vehicle_movement] *)
Definition _analyze_vehicle_movement (history : gmap Z (list (Q * Q))) (vehicle : TrackedObj)
    (track_id : Z) : gmap Z (list (Q * Q)) * MovementInfo :=
  let history := record_position history vehicle track_id in
  (history, movement_of_positions (default [] (history !! track_id))).

(** [_calculate_intelligent_ttc].  The division is reached only with
    [speed >= 0.1], so the [except] branch is never taken. *)
Definition _calculate_intelligent_ttc (vehicle : TrackedObj) (distance : Q)
    (movement_analysis : MovementInfo) : pyfloat :=
  if negb (is_approaching movement_analysis) then PInf
  else
    let speed := relative_speed movement_analysis in
    if Qltb speed (1 # 10) then PInf
    else
      let estimated_speed_mps := (speed * (1 # 10))%Q in
      let ttc := (distance / estimated_speed_mps)%Q in
      Fin (py_max (1 # 10) ttc).

(** [_analyze_vehicle_threat] *)
Definition _analyze_vehicle_threat (history : gmap Z (list (Q * Q))) (vehicle : TrackedObj)
    (lane_info : LaneDetector.LaneInfo) (frame_height frame_width : Z)
    : gmap Z (list (Q * Q)) * ThreatAnalysis :=
  let distance := _estimate_distance_fast vehicle frame_height in
  let vehicle_lane := LaneDetector.get_vehicle_lane (bbox vehicle) lane_info in
  let '(history, movement_analysis) :=
    _analyze_vehicle_movement history vehicle (track_id vehicle) in
  let ttc := _calculate_intelligent_ttc vehicle distance movement_analysis in
  let threat_assessment :=
    _assess_actual_threat vehicle_lane lane_info movement_analysis distance ttc in
  (history,
   {| ta_object := vehicle;
      ta_distance := distance;
      ta_ttc := ttc;
      ta_vehicle_lane := vehicle_lane;
      ta_movement := movement_analysis;
      ta_assessment := threat_assessment |}).

Definition has_type (t : ThreatType) (threats : list ThreatAnalysis) : bool :=
  existsb (fun a => ThreatType_eqb (threat_type (ta_assessment a)) t) threats.

(** [_generate_intelligent_recommendations] *)
Definition _generate_intelligent_recommendations (level : RiskLevel)
    (threats : list ThreatAnalysis) (lane_info : LaneDetector.LaneInfo) : list string :=
  match threats with
  | [] => []
  | _ =>
      let same_lane_threats := has_type same_lane threats in
      let oncoming_threats := has_type oncoming threats in
      let lane_change_threats := has_type lane_change threats in
      let changing := LaneDetector.lane_change_detected lane_info in
      match level with
      | Critical =>
          ["EMERGENCY BRAKE"%string]
          ++ (if same_lane_threats then ["VEHICLE AHEAD TOO CLOSE"%string] else [])
          ++ (if oncoming_threats then ["ABORT LANE CHANGE - ONCOMING TRAFFIC"%string] else [])
      | High =>
          (if same_lane_threats then ["SLOW DOWN - FOLLOWING TOO CLOSE"%string] else [])
          ++ (if lane_change_threats then ["VEHICLE CHANGING LANES"%string] else [])
          ++ (if oncoming_threats then ["CAUTION - ONCOMING DURING LANE CHANGE"%string] else [])
      | Medium =>
          (if same_lane_threats then ["MAINTAIN SAFE DISTANCE"%string] else [])
          ++ (if lane_change_threats then ["MONITOR ADJACENT LANES"%string] else [])
          ++ (if changing then ["LANE CHANGE IN PROGRESS"%string] else [])
      | Low =>
          ["STAY ALERT"%string]
          ++ (if changing then ["COMPLETE LANE CHANGE SAFELY"%string] else [])
      | RiskNone => []
      end
  end.

(** Lines 114-124 of [analyze_collision_risk]: the risk level of the
    maximum threat score. *)
Definition risk_level_of_score (max_threat_score : Z) : RiskLevel :=
  if Z.leb 80 max_threat_score then Critical
  else if Z.leb 60 max_threat_score then High
  else if Z.leb 40 max_threat_score then Medium
  else if Z.leb 20 max_threat_score then Low
  else RiskNone.

(** The variables that the loop over [vehicles] (lines 88-112) updates. *)
Record LoopState : Type := mkLoopState {
  ls_history : gmap Z (list (Q * Q));
  ls_threatening : list ThreatAnalysis;
  ls_same_lane : Z;
  ls_oncoming : Z;
  ls_lane_change : Z;
  ls_max_threat_score : Z;
  ls_primary_threat : option TrackedObj
}.

(** One iteration of the loop over [vehicles]. *)
Definition assess_vehicle (lane_info : LaneDetector.LaneInfo) (frame_height frame_width : Z)
    (st : LoopState) (vehicle : TrackedObj) : LoopState :=
  let '(history, threat_analysis) :=
    _analyze_vehicle_threat (ls_history st) vehicle lane_info frame_height frame_width in
  let a := ta_assessment threat_analysis in
  if is_threat a then
    let bump (t : ThreatType) (n : Z) : Z :=
      if ThreatType_eqb (threat_type a) t then n + 1 else n in
    let better := Z.ltb (ls_max_threat_score st) (threat_score a) in
    {| ls_history := history;
       ls_threatening := ls_threatening st ++ [threat_analysis];
       ls_same_lane := bump same_lane (ls_same_lane st);
       ls_oncoming := bump oncoming (ls_oncoming st);
       ls_lane_change := bump lane_change (ls_lane_change st);
       ls_max_threat_score := if better then threat_score a else ls_max_threat_score st;
       ls_primary_threat := if better then Some vehicle else ls_primary_threat st |}
  else
    {| ls_history := history;
       ls_threatening := ls_threatening st;
       ls_same_lane := ls_same_lane st;
       ls_oncoming := ls_oncoming st;
       ls_lane_change := ls_lane_change st;
       ls_max_threat_score := ls_max_threat_score st;
       ls_primary_threat := ls_primary_threat st |}.

(** The threat analyses that the loop over [vehicles] computes, in order,
    threats or not; the position history is threaded from one vehicle to
    the next. *)
Fixpoint analyses (history : gmap Z (list (Q * Q))) (lane_info : LaneDetector.LaneInfo)
    (frame_height frame_width : Z) (vehicles : list TrackedObj) : list ThreatAnalysis :=
  match vehicles with
  | [] => []
  | vehicle :: rest =>
      let '(history', threat_analysis) :=
        _analyze_vehicle_threat history vehicle lane_info frame_height frame_width in
      threat_analysis :: analyses history' lane_info frame_height frame_width rest
  end.

(** The largest threat score among analyses, 0 when there is none. *)
Definition max_score (l : list ThreatAnalysis) : Z :=
  fold_right Z.max 0 (map (fun a => threat_score (ta_assessment a)) l).

(** The ordinal of a risk level: None < Low < Medium < High < Critical. *)
Definition risk_ordinal (level : RiskLevel) : nat :=
  match level with
  | RiskNone => 0
  | Low => 1
  | Medium => 2
  | High => 3
  | Critical => 4
  end.

(** The vehicles among the tracked objects (lines 79-82). *)
Definition vehicles_of (objs : list TrackedObj) : list TrackedObj :=
  filter (fun obj => is_vehicle_class (class_name obj) = true) objs.

(** The initial [result] dictionary (lines 56-69). *)
Definition initial_result (tracked_objects : list TrackedObj) : AnalysisResult :=
  {| risk_level := RiskNone;
     res_threat_score := 0;
     primary_threat := None;
     threatening_objects := [];
     recommendations := [];
     total_objects := length tracked_objects;
     lane_info := None;
     same_lane_threats := 0;
     oncoming_threats := 0;
     lane_change_threats := 0 |}.

(** [analyze_collision_risk]: the new state of the predictor and the result
    dictionary. *)
Definition analyze_collision_risk (self : Predictor) (tracked_objects : list TrackedObj)
    (frame : LaneDetector.Frame) : Predictor * AnalysisResult :=
  let result := initial_result tracked_objects in
  match tracked_objects with
  | [] => (self, result)
  | _ =>
      let '(ego_history, li) := LaneDetector.detect_lanes (ego_lane_history self) frame in
      let vehicles := vehicles_of tracked_objects in
      match vehicles with
      | [] =>
          ({| vehicle_history := vehicle_history self; ego_lane_history := ego_history |},
           {| risk_level := risk_level result;
              res_threat_score := res_threat_score result;
              primary_threat := primary_threat result;
              threatening_objects := threatening_objects result;
              recommendations := recommendations result;
              total_objects := total_objects result;
              lane_info := Some li;
              same_lane_threats := same_lane_threats result;
              oncoming_threats := oncoming_threats result;
              lane_change_threats := lane_change_threats result |})
      | _ =>
          let frame_height := LaneDetector.shape_height frame in
          let frame_width := LaneDetector.shape_width frame in
          let st :=
            fold_left (assess_vehicle li frame_height frame_width) vehicles
              {| ls_history := vehicle_history self;
                 ls_threatening := [];
                 ls_same_lane := 0;
                 ls_oncoming := 0;
                 ls_lane_change := 0;
                 ls_max_threat_score := 0;
                 ls_primary_threat := None |} in
          let level := risk_level_of_score (ls_max_threat_score st) in
          ({| vehicle_history := ls_history st; ego_lane_history := ego_history |},
           {| risk_level := level;
              res_threat_score := ls_max_threat_score st;
              primary_threat := ls_primary_threat st;
              threatening_objects := ls_threatening st;
              recommendations :=
                _generate_intelligent_recommendations level (ls_threatening st) li;
              total_objects := length tracked_objects;
              lane_info := Some li;
              same_lane_threats := ls_same_lane st;
              oncoming_threats := ls_oncoming st;
              lane_change_threats := ls_lane_change st |})
      end
  end.

(** The analyzer driven over a sequence of frames: the state after the last
    call and the results, oldest first. *)
Fixpoint run (self : Predictor) (calls : list (list TrackedObj * LaneDetector.Frame))
    : Predictor * list AnalysisResult :=
  match calls with
  | [] => (self, [])
  | (tracked_objects, frame) :: rest =>
      let '(self', r) := analyze_collision_risk self tracked_objects frame in
      let '(final, rs) := run self' rest in
      (final, r :: rs)
  end.

End WithConfig.

End CollisionPredictor.

(** ** plugins/kalman_tracker.py *)

Module KalmanTracker.

(** *** Small dense linear algebra over [Q] (numpy's [@], [.T], [+], [-])

    Sums and differences are kept in lowest terms ([Qred]), which changes
    no value and keeps the rationals small. *)

Definition Matrix : Type := list (list Q).

Definition dot (u v : list Q) : Q := Qred (fold_right Qplus 0%Q (zip_with Qmult u v)).

Definition mat_vec (m : Matrix) (v : list Q) : list Q := map (fun row => dot row v) m.

Definition col (m : Matrix) (j : nat) : list Q := map (fun row => nth j row 0%Q) m.

Definition ncols (m : Matrix) : nat := length (hd [] m).

Definition transpose (m : Matrix) : Matrix := map (col m) (seq 0 (ncols m)).

Definition mat_mul (a b : Matrix) : Matrix :=
  map (fun row => map (fun j => dot row (col b j)) (seq 0 (ncols b))) a.

Definition vec_add (u v : list Q) : list Q := zip_with (fun a b => Qred (a + b)) u v.
Definition vec_sub (u v : list Q) : list Q := zip_with (fun a b => Qred (a - b)) u v.
Definition mat_add (a b : Matrix) : Matrix := zip_with vec_add a b.
Definition mat_sub (a b : Matrix) : Matrix := zip_with vec_sub a b.

Definition eye (n : nat) (k : Q) : Matrix :=
  map (fun i => map (fun j => if Nat.eqb i j then k else 0%Q) (seq 0 n)) (seq 0 n).

(** [np.linalg.inv] of a 2x2 matrix; a singular matrix raises
    [LinAlgError], here [None]. *)
Definition inv2 (m : Matrix) : option Matrix :=
  match m with
  | [[a; b]; [c; d]] =>
      let det := (a * d - b * c)%Q in
      if Qeq_bool det 0 then None
      else Some [[(d / det)%Q; (- b / det)%Q]; [(- c / det)%Q; (a / det)%Q]]
  | _ => None
  end.

(** *** FastKalmanFilter *)

(** A [FastKalmanFilter] object with the attributes [id], [class_name] and
    [confidence] that [KalmanTracker.update] attaches to it. *)
Record FastKalmanFilter : Type := mkFastKalmanFilter {
  state : list Q;
  P : Matrix;
  bbox : BBox;
  age : Z;
  hits : Z;
  time_since_update : Z;
  id : Z;
  class_name : string;
  confidence : Q
}.

Definition F : Matrix :=
  [[1; 0; 1; 0]; [0; 1; 0; 1]; [0; 0; 1; 0]; [0; 0; 0; 1]]%Q.

Definition H : Matrix := [[1; 0; 0; 0]; [0; 1; 0; 0]]%Q.

Definition Qn : Matrix := eye 4 1.
Definition R : Matrix := eye 2 100.

(** [FastKalmanFilter.__init__] followed by the three attribute assignments
    of [KalmanTracker.update]. *)
Definition FastKalmanFilter_init (b : BBox) (new_id : Z) (name : string) (conf : Q)
    : FastKalmanFilter :=
  {| state := [((bx1 b + bx2 b) / 2)%Q; ((by1 b + by2 b) / 2)%Q; 0%Q; 0%Q];
     P := eye 4 1000;
     bbox := b;
     age := 0;
     hits := 1;
     time_since_update := 0;
     id := new_id;
     class_name := name;
     confidence := conf |}.

(** [FastKalmanFilter.predict] *)
Definition predict (t : FastKalmanFilter) : FastKalmanFilter :=
  {| state := mat_vec F (state t);
     P := mat_add (mat_mul (mat_mul F (P t)) (transpose F)) Qn;
     bbox := bbox t;
     age := age t + 1;
     hits := hits t;
     time_since_update := time_since_update t + 1;
     id := id t;
     class_name := class_name t;
     confidence := confidence t |}.

(** [FastKalmanFilter.update]; [None] when [np.linalg.inv] raises. *)
Definition kf_update (t : FastKalmanFilter) (b : BBox) : option FastKalmanFilter :=
  let z := [((bx1 b + bx2 b) / 2)%Q; ((by1 b + by2 b) / 2)%Q] in
  let y := vec_sub z (mat_vec H (state t)) in
  let S := mat_add (mat_mul (mat_mul H (P t)) (transpose H)) R in
  S_inv ← inv2 S;
  let K := mat_mul (mat_mul (P t) (transpose H)) S_inv in
  Some {| state := vec_add (state t) (mat_vec K y);
          P := mat_mul (mat_sub (eye 4 1) (mat_mul K H)) (P t);
          bbox := b;
          age := age t;
          hits := hits t + 1;
          time_since_update := 0;
          id := id t;
          class_name := class_name t;
          confidence := confidence t |}.

Definition Q_of_int (x : Q) : Q := inject_Z (py_int x).

(** [FastKalmanFilter.get_bbox] *)
Definition get_bbox (t : FastKalmanFilter) : BBox :=
  if Z.ltb 0 (time_since_update t) then
    let cx := nth 0 (state t) 0%Q in
    let cy := nth 1 (state t) 0%Q in
    let w := (bx2 (bbox t) - bx1 (bbox t))%Q in
    let h := (by2 (bbox t) - by1 (bbox t))%Q in
    {| bx1 := Q_of_int (cx - w / 2); by1 := Q_of_int (cy - h / 2);
       bx2 := Q_of_int (cx + w / 2); by2 := Q_of_int (cy + h / 2) |}
  else bbox t.

(** *** KalmanTracker *)

(** A detection dictionary. *)
Record Detection : Type := mkDetection {
  det_bbox : BBox;
  det_confidence : Q;
  det_class_name : string
}.

(** A tracked-object dictionary of the output. *)
Record TrackedDict : Type := mkTrackedDict {
  out_track_id : Z;
  out_bbox : BBox;
  out_class_name : string;
  out_confidence : Q;
  out_center : Z * Z;
  out_velocity : Q * Q;
  out_speed : Q;
  out_age : Z;
  out_hits : Z;
  out_area : Q
}.

(** The state of a [KalmanTracker] ([tracking_times], wall-clock
    measurements, is left out). *)
Record Tracker : Type := mkTracker {
  trackers : list FastKalmanFilter;
  next_id : Z;
  frame_count : Z
}.

Definition max_age : Z := 5.
Definition min_hits : Z := 2.
Definition iou_threshold : Q := 3 # 10.

(** [KalmanTracker.__init__] *)
Definition Tracker_init : Tracker :=
  {| trackers := []; next_id := 1; frame_count := 0 |}.

(** The identities of the trackers are pairwise distinct and all below
    [next_id], the next identity to be given. *)
Definition ids_fresh (self : Tracker) : Prop :=
  Forall (fun t => id t < next_id self) (trackers self) /\ NoDup (map id (trackers self)).

(** [_calculate_iou_fast] *)
Definition _calculate_iou_fast (bbox1 bbox2 : BBox) : Q :=
  let x1 := py_max (bx1 bbox1) (bx1 bbox2) in
  let y1 := py_max (by1 bbox1) (by1 bbox2) in
  let x2 := py_min (bx2 bbox1) (bx2 bbox2) in
  let y2 := py_min (by2 bbox1) (by2 bbox2) in
  if (Qleb x2 x1 || Qleb y2 y1)%bool then 0%Q
  else
    let intersection := ((x2 - x1) * (y2 - y1))%Q in
    let area1 := ((bx2 bbox1 - bx1 bbox1) * (by2 bbox1 - by1 bbox1))%Q in
    let area2 := ((bx2 bbox2 - bx1 bbox2) * (by2 bbox2 - by1 bbox2))%Q in
    let union := (area1 + area2 - intersection)%Q in
    if Qltb 0 union then (intersection / union)%Q else 0%Q.

Section WithSolver.

(** [scipy.optimize.linear_sum_assignment] on a cost matrix: the pairs
    (row index, column index) of the assignment it returns. *)
Variable linear_sum_assignment : Matrix -> list (nat * nat).

(** [np.sqrt] *)
Variable sqrt : Q -> Q.

(** Lines 206-209: the pairs whose IoU reaches the threshold; an index
    outside the matrix raises [IndexError], here [None]. *)
Fixpoint filter_matches (iou_matrix : Matrix) (pairs : list (nat * nat))
    : option (list (nat * nat)) :=
  match pairs with
  | [] => Some []
  | (d_idx, t_idx) :: rest =>
      row ← iou_matrix !! d_idx;
      iou ← row !! t_idx;
      matches ← filter_matches iou_matrix rest;
      Some (if Qleb iou_threshold iou then (d_idx, t_idx) :: matches else matches)
  end.

Definition not_in (l : list nat) (i : nat) : bool := negb (existsb (Nat.eqb i) l).

(** [_fast_associate]: matches, unmatched detections, unmatched trackers. *)
Definition _fast_associate (detections trackers : list BBox)
    : option (list (nat * nat) * list nat * list nat) :=
  match trackers with
  | [] => Some ([], seq 0 (length detections), [])
  | _ =>
      let iou_matrix :=
        map (fun det_bbox => map (fun trk_bbox => _calculate_iou_fast det_bbox trk_bbox) trackers)
            detections in
      if Nat.ltb 0 (Nat.min (length detections) (length trackers)) then
        let cost_matrix := map (map (fun iou => (1 - iou)%Q)) iou_matrix in
        matches ← filter_matches iou_matrix (linear_sum_assignment cost_matrix);
        let matched_det_indices := map fst matches in
        let matched_trk_indices := map snd matches in
        Some (matches,
              List.filter (not_in matched_det_indices) (seq 0 (length detections)),
              List.filter (not_in matched_trk_indices) (seq 0 (length trackers)))
      else Some ([], seq 0 (length detections), seq 0 (length trackers))
  end.

(** Lines 136-138: the loop over [matches]. *)
Fixpoint update_matched (detections : list Detection) (matches : list (nat * nat))
    (trks : list FastKalmanFilter) : option (list FastKalmanFilter) :=
  match matches with
  | [] => Some trks
  | (det_idx, trk_idx) :: rest =>
      trk ← trks !! trk_idx;
      det ← detections !! det_idx;
      trk' ← kf_update trk (det_bbox det);
      update_matched detections rest (<[trk_idx := trk']> trks)
  end.

(** Lines 141-148: the loop over [unmatched_dets]. *)
Fixpoint create_new (detections : list Detection) (unmatched_dets : list nat)
    (trks : list FastKalmanFilter) (next : Z) : option (list FastKalmanFilter * Z) :=
  match unmatched_dets with
  | [] => Some (trks, next)
  | det_idx :: rest =>
      det ← detections !! det_idx;
      if Qltb (1 # 2) (det_confidence det) then
        let new_tracker :=
          FastKalmanFilter_init (det_bbox det) next (det_class_name det) (det_confidence det) in
        create_new detections rest (trks ++ [new_tracker]) (next + 1)
      else create_new detections rest trks next
  end.

(** Line 151: removal of old trackers. *)
Definition remove_old (trks : list FastKalmanFilter) : list FastKalmanFilter :=
  List.filter (fun t => Z.leb (time_since_update t) max_age) trks.

(** Line 156: the condition under which a tracker is emitted. *)
Definition emitted (t : FastKalmanFilter) : bool :=
  (Z.leb min_hits (hits t) || Z.eqb (time_since_update t) 0)%bool.

(** Lines 157-174: the dictionary built for an emitted tracker. *)
Definition snapshot (t : FastKalmanFilter) : TrackedDict :=
  let b := get_bbox t in
  let vx := nth 2 (state t) 0%Q in
  let vy := nth 3 (state t) 0%Q in
  let speed_pixels_per_frame := sqrt (vx * vx + vy * vy) in
  {| out_track_id := id t;
     out_bbox := b;
     out_class_name := class_name t;
     out_confidence := confidence t;
     out_center := (Qfloor ((bx1 b + bx2 b) / 2), Qfloor ((by1 b + by2 b) / 2));
     out_velocity := (vx, vy);
     out_speed := (speed_pixels_per_frame * 2)%Q;
     out_age := age t;
     out_hits := hits t;
     out_area := ((bx2 b - bx1 b) * (by2 b - by1 b))%Q |}.

(** Lines 116-148: prediction, association, measurement update and
    creation, up to the removal of old trackers. *)
Definition before_removal (self : Tracker) (detections : list Detection)
    : option (list FastKalmanFilter * Z) :=
  let trks := map predict (trackers self) in
  let predicted_bboxes := map get_bbox trks in
  let detection_bboxes := map det_bbox detections in
  '(matches, unmatched_dets, unmatched_trks) ←
    (if (Nat.ltb 0 (length trks) && Nat.ltb 0 (length detection_bboxes))%bool
     then _fast_associate detection_bboxes predicted_bboxes
     else Some ([], seq 0 (length detections), seq 0 (length trks)));
  trks ← update_matched detections matches trks;
  create_new detections unmatched_dets trks (next_id self).

(** [KalmanTracker.update]: the new state and the emitted list, or [None]
    when the call raises. *)
Definition update (self : Tracker) (detections : list Detection)
    : option (Tracker * list TrackedDict) :=
  '(trks, next) ← before_removal self detections;
  let trks := remove_old trks in
  let tracked_objects := map snapshot (List.filter emitted trks) in
  Some ({| trackers := trks; next_id := next; frame_count := frame_count self + 1 |},
        tracked_objects).

(** The tracker driven over a sequence of frames: the final state and the
    emitted lists, oldest first. *)
Fixpoint run (self : Tracker) (frames : list (list Detection))
    : option (Tracker * list (list TrackedDict)) :=
  match frames with
  | [] => Some (self, [])
  | detections :: rest =>
      '(self', out) ← update self detections;
      '(final, outs) ← run self' rest;
      Some (final, out :: outs)
  end.

End WithSolver.

End KalmanTracker.

(** ** modules/analyzers/tracker.py *)

Module Tracker.

(** A [TrackedObject] with the attributes that feed its time-to-collision.
    [acceleration], [risk_level] and [confidence] are computed from these
    attributes and are read by none of the functions below; they are left
    out of the record.  [_assess_risk], which only writes [risk_level], is
    the function [TrackerRisk._assess_risk] of these attributes. *)
Record TrackedObject : Type := mkTrackedObject {
  box : BBox;
  track_id : Z;
  class_name : string;
  position_history : list (Q * Q * Q);
  velocity : Q * Q;
  distance_estimate : Q;
  real_world_velocity : Q * Q;
  speed : Q;
  time_to_collision : pyfloat;
  age : Z
}.

(** [l[-m:]] for an integer [m]: the last [m] elements when [m] is
    positive, the whole list when [m = 0], and [l[k:]] when [m = -k]. *)
Definition slice_last {A : Type} (m : Z) (l : list A) : list A :=
  if Z.ltb 0 m then drop (length l - Z.to_nat m) l else drop (Z.to_nat (- m)) l.

Section WithConfig.

Variable cfg : Config.

(** [math.sqrt] and the square root inside [np.linalg.norm]. *)
Variable sqrt : Q -> Q.

(** [np.linalg.norm] of a pair. *)
Definition norm (v : Q * Q) : Q := sqrt (fst v * fst v + snd v * snd v).

Definition default_person : ObjectSize := {| height := 17 # 10; width := 1 # 2 |}.

(** [_estimate_distance]: the new [distance_estimate]. *)
Definition _estimate_distance (b : BBox) (name : string) : Q :=
  let box_height := (by2 b - by1 b)%Q in
  let box_width := (bx2 b - bx1 b)%Q in
  let sizes := KNOWN_OBJECT_SIZES cfg in
  let obj_data :=
    default (default default_person (sizes !! "person"%string)) (sizes !! lower name) in
  let real_height := height obj_data in
  let real_width := width obj_data in
  let focal := CAMERA_FOCAL_LENGTH cfg in
  let distance_from_height :=
    if Qltb 0 box_height then [((real_height * focal) / box_height)%Q] else [] in
  let distance_from_width :=
    if Qltb 0 box_width then [((real_width * focal) / box_width)%Q] else [] in
  let box_area := (box_height * box_width)%Q in
  let real_area := (real_height * real_width)%Q in
  let distance_from_area :=
    if Qltb 0 box_area then [(focal * sqrt (real_area / box_area))%Q] else [] in
  let distances := distance_from_height ++ distance_from_width ++ distance_from_area in
  let estimate :=
    match distances with
    | [] => 50%Q
    | _ =>
        let weights := take (length distances) [(1 # 2)%Q; (3 # 10)%Q; (2 # 10)%Q] in
        (fold_right Qplus 0%Q (zip_with Qmult distances weights)
         / fold_right Qplus 0%Q weights)%Q
    end in
  py_max (1 # 2) (py_min estimate 100).

(** [TrackedObject.__init__] *)
Definition TrackedObject_init (b : BBox) (tid : Z) (name : string) (timestamp : Q)
    : TrackedObject :=
  {| box := b;
     track_id := tid;
     class_name := name;
     position_history := [(timestamp, ((bx1 b + bx2 b) / 2)%Q, ((by1 b + by2 b) / 2)%Q)];
     velocity := (0%Q, 0%Q);
     distance_estimate := _estimate_distance b name;
     real_world_velocity := (0%Q, 0%Q);
     speed := 0%Q;
     time_to_collision := PInf;
     age := 0 |}.

(** [_calculate_velocity_and_acceleration]: the new [velocity]. *)
Definition _calculate_velocity (history : list (Q * Q * Q)) (old : Q * Q) : Q * Q :=
  if Nat.ltb (length history) 2 then old
  else
    match LaneDetector.from_end history 2, LaneDetector.from_end history 1 with
    | Some (t1, x1, y1), Some (t2, x2, y2) =>
        let dt := (t2 - t1)%Q in
        if Qltb 0 dt then
          let alpha := (3 # 10)%Q in
          ((alpha * ((x2 - x1) / dt) + (1 - alpha) * fst old)%Q,
           (alpha * ((y2 - y1) / dt) + (1 - alpha) * snd old)%Q)
        else old
    | _, _ => old
    end.

(** [_calculate_time_to_collision]: the new [time_to_collision], from the
    attributes it reads and the value the attribute had before. *)
Definition _calculate_time_to_collision (distance : Q) (history_length : nat)
    (vel rw_vel : Q * Q) (previous : pyfloat) : pyfloat :=
  if Qleb distance 0 then PInf
  else
    let ttc :=
      if Nat.leb 2 history_length then
        let is_approaching := Qltb 0 (snd vel) in
        if (is_approaching && Qltb (1 # 10) (norm rw_vel))%bool then
          let closing_speed := norm rw_vel in
          Fin (distance / closing_speed)
        else PInf
      else previous in
    if fl_gtb ttc (Fin 60) then PInf else ttc.

(** [update_position]; [None] when the division by
    [config.CAMERA_FOCAL_LENGTH] in [_calculate_real_world_motion] raises
    [ZeroDivisionError]. *)
Definition update_position (self : TrackedObject) (new_box : BBox) (timestamp : Q)
    : option TrackedObject :=
  let center_x := ((bx1 new_box + bx2 new_box) / 2)%Q in
  let center_y := ((by1 new_box + by2 new_box) / 2)%Q in
  let history := position_history self ++ [(timestamp, center_x, center_y)] in
  let max_history := TRACK_HISTORY_LENGTH cfg in
  let history :=
    if Z.ltb max_history (Z.of_nat (length history))
    then slice_last max_history history else history in
  let vel :=
    if Nat.leb 2 (length history) then _calculate_velocity history (velocity self)
    else velocity self in
  let distance := _estimate_distance new_box (class_name self) in
  (* _calculate_real_world_motion *)
  '(rw_vel, spd) ←
    (if Qltb 0 distance then
       if Qeq_bool (CAMERA_FOCAL_LENGTH cfg) 0 then None
       else
         let pixel_to_meter_ratio := (distance / CAMERA_FOCAL_LENGTH cfg)%Q in
         let rw := ((fst vel * pixel_to_meter_ratio)%Q, (snd vel * pixel_to_meter_ratio)%Q) in
         Some (rw, (norm rw * (36 # 10))%Q)
     else Some (real_world_velocity self, speed self));
  Some {| box := new_box;
          track_id := track_id self;
          class_name := class_name self;
          position_history := history;
          velocity := vel;
          distance_estimate := distance;
          real_world_velocity := rw_vel;
          speed := spd;
          time_to_collision :=
            _calculate_time_to_collision distance (length history) vel rw_vel
              (time_to_collision self);
          age := age self + 1 |}.

(** A tracked object after a sequence of position updates. *)
Fixpoint updates (self : TrackedObject) (steps : list (BBox * Q)) : option TrackedObject :=
  match steps with
  | [] => Some self
  | (new_box, timestamp) :: rest =>
      self' ← update_position self new_box timestamp;
      updates self' rest
  end.

(** What every tracked object satisfies: its time-to-collision is well
    formed and at most 60 when finite, it is infinite when the object is not
    moving down the frame or closes in no faster than 0.1, and either the
    configured history length lets the history keep two samples, or the
    history never holds two samples and the time-to-collision is never
    computed. *)
Definition ttc_invariant (self : TrackedObject) : Prop :=
  let m := TRACK_HISTORY_LENGTH cfg in
  let L := length (position_history self) in
  ttc_wf (time_to_collision self) /\
  (forall q, time_to_collision self = Fin q -> (q <= 60)%Q) /\
  (((snd (velocity self) <= 0)%Q \/ (norm (real_world_velocity self) <= 1 # 10)%Q) ->
   time_to_collision self = PInf) /\
  (((m = 0 \/ 2 <= m) /\ (1 <= L)%nat) \/
   ((m = 1 \/ m < 0) /\ (L <= 1)%nat /\ time_to_collision self = PInf)).

End WithConfig.

End Tracker.

(** ** modules/analyzers/tracker.py: the per-track risk level *)

(** IEEE comparison [a <= b]; every comparison with NaN is false. *)
Definition fl_leb (a b : pyfloat) : bool :=
  match a, b with
  | NaN, _ | _, NaN => false
  | Fin x, Fin y => Qleb x y
  | Fin _, PInf => true
  | Fin _, NInf => false
  | PInf, PInf => true
  | PInf, _ => false
  | NInf, _ => true
  end.

Module TrackerRisk.

(** Modelled from the spec: the part of [config.py] that [_assess_risk]
    reads besides the distance and TTC thresholds, namely the two speed
    brackets and the two lists of prioritised class names. *)
Record RiskConfig : Type := mkRiskConfig {
  HIGH_SPEED_THRESHOLD : Q;
  MEDIUM_SPEED_THRESHOLD : Q;
  HIGH_PRIORITY_CLASSES : list string;
  MEDIUM_PRIORITY_CLASSES : list string
}.

Section WithConfig.

Variable cfg : Config.
Variable rcfg : RiskConfig.

(** [name.lower() in [cls.lower() for cls in classes]] *)
Definition in_classes (name : string) (classes : list string) : bool :=
  existsb (String.eqb (lower name)) (map lower classes).

(** Lines 210-218: the distance factor. *)
Definition distance_factor (distance : Q) : Z :=
  if Qleb distance (CRITICAL_DISTANCE_THRESHOLD cfg) then 4
  else if Qleb distance (HIGH_RISK_DISTANCE_THRESHOLD cfg) then 3
  else if Qleb distance (MEDIUM_RISK_DISTANCE_THRESHOLD cfg) then 2
  else 1.

(** Lines 220-228: the TTC factor. *)
Definition ttc_factor (ttc : pyfloat) : Z :=
  if fl_leb ttc (Fin (CRITICAL_TTC_THRESHOLD cfg)) then 4
  else if fl_leb ttc (Fin (HIGH_RISK_TTC_THRESHOLD cfg)) then 3
  else if fl_leb ttc (Fin (MEDIUM_RISK_TTC_THRESHOLD cfg)) then 2
  else 1.

(** Lines 230-236: the speed factor. *)
Definition speed_factor (speed : Q) : Z :=
  if Qltb (HIGH_SPEED_THRESHOLD rcfg) speed then 3
  else if Qltb (MEDIUM_SPEED_THRESHOLD rcfg) speed then 2
  else 1.

(** Lines 238-244: the object priority factor. *)
Definition priority_factor (name : string) : Z :=
  if in_classes name (HIGH_PRIORITY_CLASSES rcfg) then 3
  else if in_classes name (MEDIUM_PRIORITY_CLASSES rcfg) then 2
  else 1.

(** Lines 207-244: the list [risk_factors]. *)
Definition risk_factors (self : Tracker.TrackedObject) : list Z :=
  [distance_factor (Tracker.distance_estimate self);
   ttc_factor (Tracker.time_to_collision self);
   speed_factor (Tracker.speed self);
   priority_factor (Tracker.class_name self)].

(** Lines 246-251: [0.7 * max(risk_factors) + 0.3 * sum(risk_factors) /
    len(risk_factors)] for a non-empty list. *)
Definition final_risk_score (factors : list Z) : Q :=
  let max_risk := fold_right Z.max (hd 0 factors) factors in
  let avg_risk := (inject_Z (fold_right Z.add 0%Z factors)
                   / inject_Z (Z.of_nat (length factors)))%Q in
  ((7 # 10) * inject_Z max_risk + (3 # 10) * avg_risk)%Q.

(** Lines 253-263: the risk level of a score. *)
Definition level_of_score (score : Q) : CollisionPredictor.RiskLevel :=
  if Qleb (35 # 10) score then CollisionPredictor.Critical
  else if Qleb (25 # 10) score then CollisionPredictor.High
  else if Qleb (18 # 10) score then CollisionPredictor.Medium
  else if Qleb (12 # 10) score then CollisionPredictor.Low
  else CollisionPredictor.RiskNone.

(** [_assess_risk]: the new [risk_level] of the object. *)
Definition _assess_risk (self : Tracker.TrackedObject) : CollisionPredictor.RiskLevel :=
  level_of_score (final_risk_score (risk_factors self)).

End WithConfig.

End TrackerRisk.

(** ** modules/decision_maker.py *)

Module DecisionMaker.

Inductive WarningType : Type := FORWARD_COLLISION | LANE_DEPARTURE | WEATHER_ALERT.

(** The string that the analyzer stores under ['risk_level']. *)
Definition risk_level_name (level : CollisionPredictor.RiskLevel) : string :=
  match level with
  | CollisionPredictor.RiskNone => "None"
  | CollisionPredictor.Low => "Low"
  | CollisionPredictor.Medium => "Medium"
  | CollisionPredictor.High => "High"
  | CollisionPredictor.Critical => "Critical"
  end.

(** [SimpleDecisionMaker.make_decision] on a dictionary whose
    ['risk_level'] is [risk_level]. *)
Definition make_decision (risk_level : string) : list WarningType :=
  if existsb (String.eqb risk_level) ["High"; "Critical"]%string
  then [FORWARD_COLLISION] else [].

End DecisionMaker.

(** ** modules/warning_generator.py *)

Module WarningGenerator.

(** [_generate_simple_warning]: the lookup in the dictionary of fallback
    warnings, with [''] for a missing key. *)
Definition _generate_simple_warning (risk_level : string) : string :=
  if String.eqb risk_level "Critical" then "Immediate brake. Collision imminent."
  else if String.eqb risk_level "High" then "Brake now. High collision risk."
  else if String.eqb risk_level "Medium" then "Slow down. Object ahead."
  else if String.eqb risk_level "Low" then "Stay alert."
  else "".

(** [GeminiWarningGenerator.generate_warning] on the dictionary that
    [analyze_collision_risk] returns (never empty, so the first [return] is
    not taken). *)
Definition generate_warning (collision_analysis : CollisionPredictor.AnalysisResult)
    : string :=
  _generate_simple_warning
    (DecisionMaker.risk_level_name (CollisionPredictor.risk_level collision_analysis)).

End WarningGenerator.

(** ** utils/helpers.py *)

Module Helpers.

(** The dictionary [known_heights] of [calculate_simple_distance]. *)
Definition known_heights (name : string) : Q :=
  if String.eqb name "car" then 15 # 10
  else if String.eqb name "truck" then 28 # 10
  else if String.eqb name "person" then 17 # 10
  else if String.eqb name "motorcycle" then 12 # 10
  else if String.eqb name "bicycle" then 1
  else 15 # 10.

(** [calculate_simple_distance] *)
Definition calculate_simple_distance (b : BBox) (class_name : string) (frame_height : Z) : Q :=
  let object_height := (by2 b - by1 b)%Q in
  if Qleb object_height 0 then 50
  else
    let real_height := known_heights (lower class_name) in
    let focal_length := (inject_Z frame_height * (8 # 10))%Q in
    let distance := ((real_height * focal_length) / object_height)%Q in
    py_max 1 (py_min distance 100).

End Helpers.

(** ** modules/offline_processor.py: one frame through the pipeline *)

Module Pipeline.

(** The tracker's output dictionary as the analyzer reads it. *)
Definition as_tracked_obj (d : KalmanTracker.TrackedDict) : CollisionPredictor.TrackedObj :=
  CollisionPredictor.mkTrackedObj (KalmanTracker.out_track_id d) (KalmanTracker.out_bbox d)
    (KalmanTracker.out_class_name d).

(** The tracker and the collision predictor of a processor. *)
Record Processor : Type := mkProcessor {
  tracker : KalmanTracker.Tracker;
  collision_predictor : CollisionPredictor.Predictor
}.

Definition Processor_init : Processor :=
  {| tracker := KalmanTracker.Tracker_init;
     collision_predictor := CollisionPredictor.Predictor_init |}.

(** The dictionary that [_process_frame] returns. *)
Record FrameOutput : Type := mkFrameOutput {
  tracked_objects : list KalmanTracker.TrackedDict;
  collision_analysis : CollisionPredictor.AnalysisResult;
  warning_text : string;
  out_risk_level : string
}.

Section WithEnvironment.

Variable cfg : Config.
Variable sqrt : Q -> Q.
Variable linear_sum_assignment : KalmanTracker.Matrix -> list (nat * nat).

(** [OfflineProcessor._process_frame], given the detections that the
    detector returns for the frame; [None] when the tracker raises. *)
Definition _process_frame (self : Processor) (detections : list KalmanTracker.Detection)
    (frame : LaneDetector.Frame) : option (Processor * FrameOutput) :=
  '(trk, objs) ← KalmanTracker.update linear_sum_assignment sqrt (tracker self) detections;
  let '(predictor, analysis) :=
    CollisionPredictor.analyze_collision_risk cfg sqrt (collision_predictor self)
      (map as_tracked_obj objs) frame in
  Some ({| tracker := trk; collision_predictor := predictor |},
        {| tracked_objects := objs;
           collision_analysis := analysis;
           warning_text := WarningGenerator.generate_warning analysis;
           out_risk_level :=
             DecisionMaker.risk_level_name (CollisionPredictor.risk_level analysis) |}).

(** The processor driven over a video: the final state and the outputs,
    oldest first. *)
Fixpoint process_frames (self : Processor)
    (frames : list (list KalmanTracker.Detection * LaneDetector.Frame))
    : option (Processor * list FrameOutput) :=
  match frames with
  | [] => Some (self, [])
  | (detections, frame) :: rest =>
      '(self', out) ← _process_frame self detections frame;
      '(final, outs) ← process_frames self' rest;
      Some (final, out :: outs)
  end.

End WithEnvironment.

End Pipeline.

(** ** Notions used to state properties of the analyzer *)

(** The values of the loop variables of [analyze_collision_risk] before
    the first vehicle (lines 88-90 and the counters of the initial result). *)
Definition loop_start (history : gmap Z (list (Q * Q))) : CollisionPredictor.LoopState :=
  {| CollisionPredictor.ls_history := history;
     CollisionPredictor.ls_threatening := [];
     CollisionPredictor.ls_same_lane := 0;
     CollisionPredictor.ls_oncoming := 0;
     CollisionPredictor.ls_lane_change := 0;
     CollisionPredictor.ls_max_threat_score := 0;
     CollisionPredictor.ls_primary_threat := None |}.

Definition score_of (a : CollisionPredictor.ThreatAnalysis) : Z :=
  CollisionPredictor.threat_score (CollisionPredictor.ta_assessment a).

Definition type_of (a : CollisionPredictor.ThreatAnalysis) : CollisionPredictor.ThreatType :=
  CollisionPredictor.threat_type (CollisionPredictor.ta_assessment a).

(** The number of analyses of a given threat type. *)
Definition count_type (t : CollisionPredictor.ThreatType)
    (l : list CollisionPredictor.ThreatAnalysis) : Z :=
  Z.of_nat (length (List.filter (fun a => CollisionPredictor.ThreatType_eqb (type_of a) t) l)).

(** The first analysis of a list that has the given score. *)
Definition first_with_score (score : Z) (l : list CollisionPredictor.ThreatAnalysis)
    : option CollisionPredictor.ThreatAnalysis :=
  List.find (fun a => Z.eqb (score_of a) score) l.

(** The last [n] elements of a list ([l[-n:]] for a positive [n]). *)
Definition last_n {A : Type} (n : nat) (l : list A) : list A :=
  drop (length l - n) l.

(** What the loop variables of [analyze_collision_risk] satisfy after any
    number of vehicles: the collected analyses are threats with a score
    between 50 and 100, the maximum score is theirs, the primary threat is
    the object of the first analysis with that score, and each counter counts
    the analyses of its type. *)
Definition loop_invariant (st : CollisionPredictor.LoopState) : Prop :=
  let thr := CollisionPredictor.ls_threatening st in
  Forall (fun a => CollisionPredictor.is_threat (CollisionPredictor.ta_assessment a) = true /\
                   type_of a <> CollisionPredictor.none /\ 50 <= score_of a <= 100) thr /\
  CollisionPredictor.ls_max_threat_score st = CollisionPredictor.max_score thr /\
  CollisionPredictor.ls_primary_threat st =
    option_map CollisionPredictor.ta_object
      (first_with_score (CollisionPredictor.ls_max_threat_score st) thr) /\
  CollisionPredictor.ls_same_lane st = count_type CollisionPredictor.same_lane thr /\
  CollisionPredictor.ls_oncoming st = count_type CollisionPredictor.oncoming thr /\
  CollisionPredictor.ls_lane_change st = count_type CollisionPredictor.lane_change thr.

(** The centre of an object's box (line 189: [current_center]). *)
Definition center_of (obj : CollisionPredictor.TrackedObj) : Q * Q :=
  let b := CollisionPredictor.bbox obj in
  (((bx1 b + bx2 b) / 2)%Q, ((by1 b + by2 b) / 2)%Q).

(** The box centres of the objects with identity [tid], in order. *)
Definition centers_of (tid : Z) (objs : list CollisionPredictor.TrackedObj) : list (Q * Q) :=
  map center_of (List.filter (fun obj => Z.eqb (CollisionPredictor.track_id obj) tid) objs).

(** All vehicles that a sequence of calls assessed, in order. *)
Definition assessed_vehicles
    (calls : list (list CollisionPredictor.TrackedObj * LaneDetector.Frame))
    : list CollisionPredictor.TrackedObj :=
  concat (map (fun call => CollisionPredictor.vehicles_of (fst call)) calls).

(** ** Notions used to state properties of the tracker *)

(** The trackers created for a list of detections, with the identities
    [next], [next + 1], ... *)
Fixpoint spawn (next : Z) (detections : list KalmanTracker.Detection)
    : list KalmanTracker.FastKalmanFilter :=
  match detections with
  | [] => []
  | det :: rest =>
      KalmanTracker.FastKalmanFilter_init (KalmanTracker.det_bbox det) next
        (KalmanTracker.det_class_name det) (KalmanTracker.det_confidence det)
      :: spawn (next + 1) rest
  end.

(** The detections confident enough to start a track (line 142). *)
Definition confident (detections : list KalmanTracker.Detection)
    : list KalmanTracker.Detection :=
  List.filter (fun det => Qltb (1 # 2) (KalmanTracker.det_confidence det)) detections.

(** The lifecycle counters of a tracker are consistent. *)
Definition counters_ok (t : KalmanTracker.FastKalmanFilter) : Prop :=
  0 <= KalmanTracker.time_since_update t <= KalmanTracker.max_age /\
  KalmanTracker.time_since_update t <= KalmanTracker.age t /\
  1 <= KalmanTracker.hits t.

(** What holds of a tracker state between two updates: the frame count
    and the next identity are positive, and every tracker has consistent
    counters, an age below the frame count and a positive identity. *)
Definition lifecycle_invariant (s : KalmanTracker.Tracker) : Prop :=
  0 <= KalmanTracker.frame_count s /\ 1 <= KalmanTracker.next_id s /\
  Forall (fun t => counters_ok t /\
                   KalmanTracker.age t < KalmanTracker.frame_count s /\
                   1 <= KalmanTracker.id t)
         (KalmanTracker.trackers s).

(** What holds of a processor between two frames: its tracker has fresh
    identities and consistent counters, and every key of the analyzer's
    position-history map is an identity that the tracker has given out. *)
Definition pipeline_invariant (p : Pipeline.Processor) : Prop :=
  KalmanTracker.ids_fresh (Pipeline.tracker p) /\
  lifecycle_invariant (Pipeline.tracker p) /\
  forall k, k ∈ dom (CollisionPredictor.vehicle_history (Pipeline.collision_predictor p)) ->
            1 <= k < KalmanTracker.next_id (Pipeline.tracker p).

(** The window that a history map holds for an identity after more
    centres [cs] were recorded under it. *)
Definition window_after (old : option (list (Q * Q))) (cs : list (Q * Q))
    : option (list (Q * Q)) :=
  match cs with
  | [] => old
  | _ => Some (last_n CollisionPredictor.max_history_frames (default [] old ++ cs))
  end.

(** ** Concrete values used in closed examples *)

(** Modelled from the spec: the example thresholds of the spec
    (critical 10 m, medium 20 m; max age 5, confidence 0.5) completed with a
    high-risk distance of 15 m, TTC thresholds of 2, 4 and 6 seconds, a car
    of 1.5 m by 1.8 m, a person of 1.7 m by 0.5 m, a focal length of 800
    pixels and a history of 30 samples. *)
Definition example_config : Config :=
  {| CRITICAL_DISTANCE_THRESHOLD := 10;
     HIGH_RISK_DISTANCE_THRESHOLD := 15;
     MEDIUM_RISK_DISTANCE_THRESHOLD := 20;
     CRITICAL_TTC_THRESHOLD := 2;
     HIGH_RISK_TTC_THRESHOLD := 4;
     MEDIUM_RISK_TTC_THRESHOLD := 6;
     KNOWN_OBJECT_SIZES :=
       <["car"%string := mkObjectSize (3 # 2) (18 # 10)]>
         (<["person"%string := mkObjectSize (17 # 10) (1 # 2)]> ∅);
     CAMERA_FOCAL_LENGTH := 800;
     TRACK_HISTORY_LENGTH := 30 |}.

(** Modelled from the spec: example values for the speed brackets and
    the prioritised classes of the per-track risk level, 80 and 40 km/h,
    pedestrians and two-wheelers first, then cars, trucks and buses. *)
Definition example_risk_config : TrackerRisk.RiskConfig :=
  {| TrackerRisk.HIGH_SPEED_THRESHOLD := 80;
     TrackerRisk.MEDIUM_SPEED_THRESHOLD := 40;
     TrackerRisk.HIGH_PRIORITY_CLASSES := ["person"; "bicycle"; "motorcycle"]%string;
     TrackerRisk.MEDIUM_PRIORITY_CLASSES := ["car"; "truck"; "bus"]%string |}.

(** A rational stand-in for the square root in closed examples: the integer
    square root of the argument scaled by 10^6, divided by 10^3. *)
Definition approx_sqrt (q : Q) : Q :=
  (inject_Z (Z.sqrt (Qfloor (q * 1000000))) / 1000)%Q.

(** An assignment for closed examples in which detection [i] overlaps
    track [i]: the pairs [(i, i)]. *)
Definition diagonal_assignment (cost : KalmanTracker.Matrix) : list (nat * nat) :=
  map (fun i => (i, i)) (seq 0 (Nat.min (length cost) (KalmanTracker.ncols cost))).

(** A confident detection of a car. *)
Definition example_detection : KalmanTracker.Detection :=
  KalmanTracker.mkDetection (mkBBox 100 100 200 200) (9 # 10) "car".

(** One detection, then five frames without any: the track it creates
    reaches [time_since_update = 5]. *)
Definition frames_until_stale : list (list KalmanTracker.Detection) :=
  [example_detection] :: replicate 5 [].

(** A 640x480 frame in which no line is found. *)
Definition plain_frame : LaneDetector.Frame :=
  {| LaneDetector.shape_height := 480;
     LaneDetector.shape_width := 640;
     LaneDetector.hough_lines := None |}.

(** A 640x480 frame with one lane marking on each side of the centre. *)
Definition lane_frame : LaneDetector.Frame :=
  {| LaneDetector.shape_height := 480;
     LaneDetector.shape_width := 640;
     LaneDetector.hough_lines := Some [(200, 200, 260, 100); (380, 100, 440, 200)] |}.

Definition car (tid : Z) (b : BBox) : CollisionPredictor.TrackedObj :=
  CollisionPredictor.mkTrackedObj tid b "car".

(** A car 72 pixels high in a 480-pixel frame: 1.5 * 384 / 72 = 8 m. *)
Definition car_at_8m : CollisionPredictor.TrackedObj :=
  car 1 (mkBBox 300 200 340 272).

Definition pedestrian : CollisionPredictor.TrackedObj :=
  CollisionPredictor.mkTrackedObj 7 (mkBBox 100 100 130 200) "person".

(** Ego changing lanes to the right from lane 0, two lanes detected. *)
Definition lane_info_changing_right : LaneDetector.LaneInfo :=
  {| LaneDetector.ego_lane_id := 0;
     LaneDetector.lane_boundaries :=
       [((200, 480, 260, 240), (380, 240, 440, 480));
        ((440, 480, 380, 240), (600, 240, 640, 480))];
     LaneDetector.lane_change_detected := true;
     LaneDetector.lane_change_direction := LaneDetector.DirRight;
     LaneDetector.frame_width := 640;
     LaneDetector.frame_height := 480 |}.

(** Calls in which track 1 is seen once and then six frames show only
    track 2. *)
Definition stale_calls : list (list CollisionPredictor.TrackedObj * LaneDetector.Frame) :=
  ([car 1 (mkBBox 300 200 340 272)], plain_frame)
  :: replicate 6 ([car 2 (mkBBox 100 200 140 272)], plain_frame).

(** Every entry of a position-history map holds at most
    [max_history_frames] positions. *)
Definition bounded_entries (history : gmap Z (list (Q * Q))) : Prop :=
  map_Forall
    (fun _ positions => (length positions <= CollisionPredictor.max_history_frames)%nat)
    history.

(** The identities of all vehicles that a sequence of calls assessed. *)
Definition assessed_identities
    (calls : list (list CollisionPredictor.TrackedObj * LaneDetector.Frame)) : gset Z :=
  list_to_set
    (map CollisionPredictor.track_id
       (concat (map (fun call => CollisionPredictor.vehicles_of (fst call)) calls))).

(** ** The eviction property of the position-history map, as the
       specification words it *)

(** No object of the call carries the identity [tid]. *)
Definition absent_from (tid : Z)
    (call : list CollisionPredictor.TrackedObj * LaneDetector.Frame) : Prop :=
  Forall (fun obj => CollisionPredictor.track_id obj <> tid) (fst call).

(** After the calls, the map of a fresh analyzer has no entry for an
    identity that the last [max_age + 1] calls (or more) did not contain. *)
Definition evicts_stale_identities (cfg : Config) (sqrt : Q -> Q)
    (calls : list (list CollisionPredictor.TrackedObj * LaneDetector.Frame)) : Prop :=
  forall (tid : Z) older recent,
    calls = older ++ recent ->
    (Z.to_nat KalmanTracker.max_age < length recent)%nat ->
    Forall (absent_from tid) recent ->
    CollisionPredictor.vehicle_history
      (fst (CollisionPredictor.run cfg sqrt CollisionPredictor.Predictor_init calls)) !! tid = None.

(** * Theorems *)

(** ** Rational comparisons *)

Lemma Qleb_le a b : Qleb a b = true <-> (a <= b)%Q.
Proof. apply Qle_bool_iff. Qed.

Lemma Qltb_lt a b : Qltb a b = true <-> (a < b)%Q.
Proof.
  unfold Qltb. rewrite negb_true_iff, <- not_true_iff_false, Qle_bool_iff.
  split; [apply Qnot_le_lt | apply Qlt_not_le].
Qed.

Lemma Qltb_ge a b : Qltb a b = false <-> (b <= a)%Q.
Proof. unfold Qltb. rewrite negb_false_iff. apply Qle_bool_iff. Qed.

Lemma Qleb_gt a b : Qleb a b = false <-> (b < a)%Q.
Proof.
  unfold Qleb. rewrite <- not_true_iff_false, Qle_bool_iff.
  split; [apply Qnot_le_lt | apply Qlt_not_le].
Qed.

Lemma py_max_lower a b : (a <= py_max a b)%Q.
Proof.
  unfold py_max. destruct (Qltb a b) eqn:E.
  - apply Qltb_lt in E. lra.
  - lra.
Qed.

(** ** The per-vehicle threat rules *)

Section ThreatRules.

Import CollisionPredictor.

Variable cfg : Config.

Implicit Types (li : LaneDetector.LaneInfo) (mv : MovementInfo) (d : Q) (ttc : pyfloat).

(** The TTC bonus changes neither the verdict nor the threat type. *)
Lemma adjust_for_ttc_is_threat a ttc :
  is_threat (adjust_for_ttc cfg a ttc) = is_threat a.
Proof. unfold adjust_for_ttc. repeat case_match; reflexivity. Qed.

Lemma adjust_for_ttc_threat_type a ttc :
  threat_type (adjust_for_ttc cfg a ttc) = threat_type a.
Proof. unfold adjust_for_ttc. repeat case_match; reflexivity. Qed.

Lemma adjust_for_ttc_no_threat a ttc :
  is_threat a = false -> adjust_for_ttc cfg a ttc = a.
Proof. unfold adjust_for_ttc. intros ->. reflexivity. Qed.

Lemma adjust_for_ttc_inf a : adjust_for_ttc cfg a PInf = a.
Proof. unfold adjust_for_ttc. simpl. rewrite !andb_false_r. reflexivity. Qed.

Lemma target_lane_adjacent li : Z.abs (target_lane li - LaneDetector.ego_lane_id li) = 1.
Proof. unfold target_lane. case_match; lia. Qed.

(** The only base score of a lane-change threat is 60: the branch that
    assigns 70 is never taken. *)
Lemma lane_change_base_score vl li mv d :
  threat_type (classify_threat cfg vl li mv d) = lane_change ->
  threat_score (classify_threat cfg vl li mv d) = 60.
Proof.
  unfold classify_threat.
  destruct (vl =? LaneDetector.ego_lane_id li) eqn:E1.
  { repeat case_match; simpl; congruence. }
  destruct (vl =? -1) eqn:E2.
  { repeat case_match; simpl; congruence. }
  destruct (Z.abs (vl - LaneDetector.ego_lane_id li) =? 1) eqn:E3.
  { repeat case_match; simpl; congruence. }
  destruct (LaneDetector.lane_change_detected li); [|simpl; congruence].
  destruct (vl =? target_lane li) eqn:E4; [|simpl; congruence].
  apply Z.eqb_eq in E4. apply Z.eqb_neq in E3.
  exfalso. apply E3. rewrite E4. apply target_lane_adjacent.
Qed.

(** C1 (the code departs from the claim): a vehicle in the target lane
    of ego's detected lane change, in a lane other than ego's and other than
    the oncoming lane, within the medium distance and not itself changing lanes,
    is classified as no threat (type [none], score 0), where the claim expects
    a [lane_change] threat of base score 70.  The adjacent-lane test of the
    third rule is true for every target lane, so the fourth rule is never
    reached. *)
Theorem ego_merge_target_not_flagged vl li mv d ttc :
  LaneDetector.lane_change_detected li = true ->
  vl = target_lane li ->
  vl <> -1 ->
  (d < medium_risk_distance cfg)%Q ->
  is_changing_lanes mv = false ->
  _assess_actual_threat cfg vl li mv d ttc = mkAssessment false none 0.
Proof.
  intros Hdet Hvl Hon Hd Hch.
  unfold _assess_actual_threat.
  assert (Hc : classify_threat cfg vl li mv d = mkAssessment false none 0).
  { unfold classify_threat.
    assert ((vl =? LaneDetector.ego_lane_id li) = false) as ->.
    { apply Z.eqb_neq. pose proof (target_lane_adjacent li). lia. }
    assert ((vl =? -1) = false) as -> by (apply Z.eqb_neq; exact Hon).
    assert ((Z.abs (vl - LaneDetector.ego_lane_id li) =? 1) = true) as ->.
    { apply Z.eqb_eq. rewrite Hvl. apply target_lane_adjacent. }
    rewrite Hch. reflexivity. }
  rewrite Hc. apply adjust_for_ttc_no_threat. reflexivity.
Qed.

(** The same-lane rule on [classify_threat]. *)
Lemma classify_same_lane vl li mv d :
  vl = LaneDetector.ego_lane_id li ->
  classify_threat cfg vl li mv d =
    if (Qltb d (medium_risk_distance cfg)
        && (negb (is_approaching mv) || Qltb (relative_speed mv) 2))%bool
    then mkAssessment true same_lane
           (if Qltb d (critical_distance cfg) then 90
            else if Qltb d (high_risk_distance cfg) then 70 else 50)
    else mkAssessment false none 0.
Proof.
  intros ->. unfold classify_threat. rewrite Z.eqb_refl.
  destruct (Qltb d (medium_risk_distance cfg)); simpl; [|reflexivity].
  destruct (negb (is_approaching mv) || Qltb (relative_speed mv) 2)%bool; reflexivity.
Qed.

(** The oncoming rule on [classify_threat]. *)
Lemma classify_oncoming li mv d :
  LaneDetector.ego_lane_id li <> -1 ->
  classify_threat cfg (-1) li mv d =
    if (LaneDetector.lane_change_detected li
        && LaneDetector.Direction_eqb (LaneDetector.lane_change_direction li)
             LaneDetector.DirLeft
        && (Qltb d (high_risk_distance cfg) && is_approaching mv))%bool
    then mkAssessment true oncoming 95
    else mkAssessment false none 0.
Proof.
  intros Hego. unfold classify_threat.
  assert ((-1 =? LaneDetector.ego_lane_id li) = false) as -> by (apply Z.eqb_neq; lia).
  simpl (-1 =? -1).
  cbv iota.
  destruct (LaneDetector.lane_change_detected li && _)%bool; simpl; [|reflexivity].
  destruct (Qltb d (high_risk_distance cfg) && is_approaching mv)%bool; reflexivity.
Qed.

End ThreatRules.

(** ** The lane detector *)

Section LaneFacts.

Import LaneDetector.

Lemma find_lane_lower x i bs j : find_lane x i bs = Some j -> i <= j.
Proof.
  revert i. induction bs as [|[l r] bs IH]; intros i; simpl; [discriminate|].
  destruct (Qleb (mean_x l) x && Qleb x (mean_x r))%bool.
  - intros [= ->]. lia.
  - intros Hf. apply IH in Hf. lia.
Qed.

Lemma process_lane_lines_ego lines li :
  ego_lane_id (_process_lane_lines lines li) = ego_lane_id li.
Proof.
  unfold _process_lane_lines. destruct lines; [reflexivity|].
  destruct (split_lines _ _ _ _) as [[|l0 ls] [|r0 rs]]; reflexivity.
Qed.

Lemma process_lane_lines_change lines li :
  lane_change_detected (_process_lane_lines lines li) = lane_change_detected li.
Proof.
  unfold _process_lane_lines. destruct lines; [reflexivity|].
  destruct (split_lines _ _ _ _) as [[|l0 ls] [|r0 rs]]; reflexivity.
Qed.

Lemma detect_ego_position_boundaries hist li :
  lane_boundaries (snd (_detect_ego_position hist li)) = lane_boundaries li.
Proof.
  unfold _detect_ego_position. destruct (lane_boundaries li) eqn:E; [exact E|].
  repeat case_match; simpl; congruence.
Qed.

Lemma detect_ego_position_no_boundaries hist li :
  lane_boundaries li = [] -> _detect_ego_position hist li = (hist, li).
Proof. unfold _detect_ego_position. intros ->. reflexivity. Qed.

Lemma detect_ego_position_nonneg hist li :
  0 <= ego_lane_id li -> 0 <= ego_lane_id (snd (_detect_ego_position hist li)).
Proof.
  intros Hli. unfold _detect_ego_position.
  destruct (lane_boundaries li) eqn:E; [exact Hli|].
  rewrite <- E. clear E.
  destruct (find_lane _ 0 (lane_boundaries li)) as [i|] eqn:Hf.
  - apply find_lane_lower in Hf. repeat case_match; simpl; lia.
  - repeat case_match; simpl; lia.
Qed.

(** The lane information handed to the analyzer, with its construction
    unfolded one step. *)
Lemma detect_lanes_unfold hist frame :
  exists li0, ego_lane_id li0 = 0 /\ lane_change_detected li0 = false /\
    detect_lanes hist frame = _detect_ego_position hist li0.
Proof.
  unfold detect_lanes. destruct (hough_lines frame) as [lines|].
  - eexists. split; [|split; [|reflexivity]].
    + rewrite process_lane_lines_ego. reflexivity.
    + rewrite process_lane_lines_change. reflexivity.
  - eexists. split; [|split; [|reflexivity]]; reflexivity.
Qed.

(** The ego lane index of a detected [LaneInfo] is the index of a lane
    boundary pair, or the default 0: never negative. *)
Lemma detect_lanes_ego_nonneg hist frame :
  0 <= ego_lane_id (snd (detect_lanes hist frame)).
Proof.
  destruct (detect_lanes_unfold hist frame) as (li0 & H0 & _ & ->).
  apply detect_ego_position_nonneg. lia.
Qed.

Lemma detect_lanes_no_boundaries hist frame :
  lane_boundaries (snd (detect_lanes hist frame)) = [] ->
  ego_lane_id (snd (detect_lanes hist frame)) = 0 /\
  lane_change_detected (snd (detect_lanes hist frame)) = false.
Proof.
  destruct (detect_lanes_unfold hist frame) as (li0 & H0 & H1 & ->).
  rewrite detect_ego_position_boundaries. intros Hb.
  rewrite (detect_ego_position_no_boundaries _ _ Hb). simpl. auto.
Qed.

Lemma get_vehicle_lane_no_boundaries b li :
  lane_boundaries li = [] -> get_vehicle_lane b li = 0.
Proof. unfold get_vehicle_lane. intros ->. reflexivity. Qed.

End LaneFacts.

(** ** The analyzer, frame by frame *)

Section AnalyzerFacts.

Import CollisionPredictor.

Variable cfg : Config.
Variable sqrt : Q -> Q.

Lemma classify_threat_cases vl li mv d :
  let a := classify_threat cfg vl li mv d in
  (is_threat a = false /\ threat_type a = none /\ threat_score a = 0) \/
  (is_threat a = true /\ threat_type a <> none /\ 50 <= threat_score a <= 95).
Proof.
  unfold classify_threat. repeat case_match; simpl; (left; tauto) || (right; repeat split; (discriminate || lia)).
Qed.

(** A vehicle that is no threat has score 0; a threat has a score between
    50 and 100. *)
Lemma assess_actual_threat_cases vl li mv d ttc :
  let a := _assess_actual_threat cfg vl li mv d ttc in
  (is_threat a = false /\ threat_type a = none /\ threat_score a = 0) \/
  (is_threat a = true /\ threat_type a <> none /\ 50 <= threat_score a <= 100).
Proof.
  unfold _assess_actual_threat. simpl.
  destruct (classify_threat_cases vl li mv d) as [(H1 & H2 & H3)|(H1 & H2 & H3)].
  - left. rewrite adjust_for_ttc_no_threat by exact H1. auto.
  - right. rewrite adjust_for_ttc_is_threat, adjust_for_ttc_threat_type.
    split; [exact H1|split; [exact H2|]].
    unfold adjust_for_ttc. repeat case_match; simpl; lia.
Qed.

Lemma analyze_vehicle_threat_assessment history v li h w :
  ta_assessment (snd (_analyze_vehicle_threat cfg sqrt history v li h w)) =
  _assess_actual_threat cfg (LaneDetector.get_vehicle_lane (bbox v) li) li
    (snd (_analyze_vehicle_movement sqrt history v (track_id v)))
    (_estimate_distance_fast cfg v h)
    (_calculate_intelligent_ttc v (_estimate_distance_fast cfg v h)
       (snd (_analyze_vehicle_movement sqrt history v (track_id v)))).
Proof. reflexivity. Qed.

Lemma analyze_vehicle_threat_history history v li h w :
  fst (_analyze_vehicle_threat cfg sqrt history v li h w) =
  record_position history v (track_id v).
Proof. reflexivity. Qed.

Lemma analyses_cons history li h w v vs :
  analyses cfg sqrt history li h w (v :: vs) =
  snd (_analyze_vehicle_threat cfg sqrt history v li h w)
  :: analyses cfg sqrt (fst (_analyze_vehicle_threat cfg sqrt history v li h w)) li h w vs.
Proof.
  cbn [analyses]. destruct (_analyze_vehicle_threat cfg sqrt history v li h w). reflexivity.
Qed.

Lemma assess_vehicle_no_threat li h w st v :
  is_threat (ta_assessment (snd (_analyze_vehicle_threat cfg sqrt (ls_history st) v li h w)))
    = false ->
  assess_vehicle cfg sqrt li h w st v =
  {| ls_history := fst (_analyze_vehicle_threat cfg sqrt (ls_history st) v li h w);
     ls_threatening := ls_threatening st;
     ls_same_lane := ls_same_lane st;
     ls_oncoming := ls_oncoming st;
     ls_lane_change := ls_lane_change st;
     ls_max_threat_score := ls_max_threat_score st;
     ls_primary_threat := ls_primary_threat st |}.
Proof.
  unfold assess_vehicle.
  destruct (_analyze_vehicle_threat cfg sqrt (ls_history st) v li h w) as [history ta].
  cbn [fst snd]. intros ->. reflexivity.
Qed.

Lemma assess_vehicle_threat li h w st v :
  let ta := snd (_analyze_vehicle_threat cfg sqrt (ls_history st) v li h w) in
  let a := ta_assessment ta in
  is_threat a = true ->
  assess_vehicle cfg sqrt li h w st v =
  {| ls_history := fst (_analyze_vehicle_threat cfg sqrt (ls_history st) v li h w);
     ls_threatening := ls_threatening st ++ [ta];
     ls_same_lane :=
       if ThreatType_eqb (threat_type a) same_lane then ls_same_lane st + 1
       else ls_same_lane st;
     ls_oncoming :=
       if ThreatType_eqb (threat_type a) oncoming then ls_oncoming st + 1
       else ls_oncoming st;
     ls_lane_change :=
       if ThreatType_eqb (threat_type a) lane_change then ls_lane_change st + 1
       else ls_lane_change st;
     ls_max_threat_score :=
       if ls_max_threat_score st <? threat_score a then threat_score a
       else ls_max_threat_score st;
     ls_primary_threat :=
       if ls_max_threat_score st <? threat_score a then Some v
       else ls_primary_threat st |}.
Proof.
  unfold assess_vehicle.
  destruct (_analyze_vehicle_threat cfg sqrt (ls_history st) v li h w) as [history ta].
  cbn [fst snd]. intros ->. reflexivity.
Qed.

Lemma analysis_cases history v li h w :
  let a := ta_assessment (snd (_analyze_vehicle_threat cfg sqrt history v li h w)) in
  (is_threat a = false /\ threat_type a = none /\ threat_score a = 0) \/
  (is_threat a = true /\ threat_type a <> none /\ 50 <= threat_score a <= 100).
Proof.
  cbv zeta. rewrite analyze_vehicle_threat_assessment. apply assess_actual_threat_cases.
Qed.

(** The loop over [vehicles], characterised by the list of analyses. *)
Lemma fold_assess_vehicle li h w vehicles st :
  0 <= ls_max_threat_score st ->
  let all := analyses cfg sqrt (ls_history st) li h w vehicles in
  let st' := fold_left (assess_vehicle cfg sqrt li h w) vehicles st in
  ls_threatening st' =
    ls_threatening st ++ List.filter (fun a => is_threat (ta_assessment a)) all /\
  ls_max_threat_score st' = Z.max (ls_max_threat_score st) (max_score all).
Proof.
  revert st. induction vehicles as [|v vs IH]; intros st Hmax; cbv zeta.
  - cbn. rewrite app_nil_r. split; [reflexivity|lia].
  - rewrite analyses_cons. cbn [fold_left List.filter].
    destruct (analysis_cases (ls_history st) v li h w) as [(H1 & H2 & H3)|(H1 & H2 & H3)].
    + rewrite (assess_vehicle_no_threat _ _ _ _ _ H1), H1.
      match goal with |- context [fold_left _ vs ?s] => specialize (IH s) end.
      cbv zeta in IH. cbn [ls_history ls_threatening ls_max_threat_score] in IH.
      destruct (IH Hmax) as [IH1 IH2]. rewrite IH1, IH2.
      split; [reflexivity|]. unfold max_score. cbn [map fold_right]. rewrite H3.
      fold (max_score (analyses cfg sqrt
        (fst (_analyze_vehicle_threat cfg sqrt (ls_history st) v li h w)) li h w vs)).
      lia.
    + rewrite (assess_vehicle_threat _ _ _ _ _ H1), H1.
      match goal with |- context [fold_left _ vs ?s] => specialize (IH s) end.
      cbv zeta in IH. cbn [ls_history ls_threatening ls_max_threat_score] in IH.
      match type of IH with ?A -> _ => assert (Hm : A) by (case_match; lia) end.
      destruct (IH Hm) as [IH1 IH2]. rewrite IH1, IH2. rewrite <- app_assoc.
      split; [reflexivity|]. unfold max_score. cbn [map fold_right].
      destruct (ls_max_threat_score st <? _) eqn:E.
      * apply Z.ltb_lt in E. lia.
      * apply Z.ltb_ge in E. lia.
Qed.

Lemma max_score_nonneg l : 0 <= max_score l.
Proof. unfold max_score. induction l as [|a l IH]; cbn [map fold_right]; lia. Qed.

(** The result of [analyze_collision_risk] in terms of the analyses of the
    frame's vehicles. *)
Lemma analyze_collision_risk_result self objs frame :
  let li := snd (LaneDetector.detect_lanes (ego_lane_history self) frame) in
  let all := analyses cfg sqrt (vehicle_history self) li
               (LaneDetector.shape_height frame) (LaneDetector.shape_width frame)
               (vehicles_of objs) in
  let r := snd (analyze_collision_risk cfg sqrt self objs frame) in
  res_threat_score r = max_score all /\
  risk_level r = risk_level_of_score (res_threat_score r) /\
  threatening_objects r = List.filter (fun a => is_threat (ta_assessment a)) all /\
  total_objects r = length objs.
Proof.
  cbv zeta. unfold analyze_collision_risk, vehicles_of.
  destruct objs as [|o objs]; [cbn; auto|].
  destruct (LaneDetector.detect_lanes (ego_lane_history self) frame) as [eh li].
  cbn [snd].
  destruct (filter _ (o :: objs)) as [|v vs] eqn:Hv; [cbn; auto|].
  cbn [snd res_threat_score risk_level threatening_objects total_objects].
  match goal with |- context [fold_left _ _ ?s] =>
    pose proof (fold_assess_vehicle li (LaneDetector.shape_height frame)
                  (LaneDetector.shape_width frame) (v :: vs) s) as Hf end.
  cbv zeta in Hf. cbn [ls_history ls_threatening ls_max_threat_score] in Hf.
  destruct Hf as [Hf1 Hf2]; [lia|].
  rewrite Hf1, Hf2. cbn [app].
  assert (0 <= max_score (analyses cfg sqrt (vehicle_history self) li
            (LaneDetector.shape_height frame) (LaneDetector.shape_width frame) (v :: vs))).
  { apply max_score_nonneg. }
  repeat split; try reflexivity. lia.
Qed.

Lemma analyses_Forall (P : ThreatAnalysis -> Prop) li h w vs :
  (forall history v, P (snd (_analyze_vehicle_threat cfg sqrt history v li h w))) ->
  forall history, Forall P (analyses cfg sqrt history li h w vs).
Proof.
  intros HP. induction vs as [|v vs IH]; intros history.
  - constructor.
  - rewrite analyses_cons. constructor; [apply HP | apply IH].
Qed.

Lemma vehicles_of_single v :
  is_vehicle_class (class_name v) = true -> vehicles_of [v] = [v].
Proof.
  intros Hv. unfold vehicles_of. rewrite filter_cons_True by exact Hv. reflexivity.
Qed.

(** A frame whose only object is a vehicle in ego's lane, closer than the
    critical distance and not approaching. *)
Lemma single_same_lane_vehicle self v frame :
  let li := snd (LaneDetector.detect_lanes (ego_lane_history self) frame) in
  let d := _estimate_distance_fast cfg v (LaneDetector.shape_height frame) in
  let mv := snd (_analyze_vehicle_movement sqrt (vehicle_history self) v (track_id v)) in
  is_vehicle_class (class_name v) = true ->
  LaneDetector.get_vehicle_lane (bbox v) li = LaneDetector.ego_lane_id li ->
  (d < critical_distance cfg)%Q ->
  (critical_distance cfg <= medium_risk_distance cfg)%Q ->
  is_approaching mv = false ->
  let r := snd (analyze_collision_risk cfg sqrt self [v] frame) in
  risk_level r = Critical /\ res_threat_score r = 90 /\
  exists ta, threatening_objects r = [ta] /\ ta_object ta = v /\
    ta_assessment ta = mkAssessment true same_lane 90.
Proof.
  cbv zeta. intros Hv Hlane Hd Hcm Happ.
  pose proof (analyze_collision_risk_result self [v] frame) as Hr.
  cbv zeta in Hr. rewrite (vehicles_of_single _ Hv), analyses_cons in Hr.
  cbn [analyses] in Hr.
  set (ta := snd (_analyze_vehicle_threat cfg sqrt (vehicle_history self) v
                    (snd (LaneDetector.detect_lanes (ego_lane_history self) frame))
                    (LaneDetector.shape_height frame) (LaneDetector.shape_width frame))) in *.
  assert (Ha : ta_assessment ta = mkAssessment true same_lane 90).
  { unfold ta. rewrite analyze_vehicle_threat_assessment.
    unfold _assess_actual_threat, _calculate_intelligent_ttc.
    rewrite Happ. cbn [negb]. rewrite adjust_for_ttc_inf.
    rewrite (classify_same_lane cfg _ _ _ _ Hlane), Happ.
    assert (Qltb (_estimate_distance_fast cfg v (LaneDetector.shape_height frame))
              (medium_risk_distance cfg) = true) as -> by (apply Qltb_lt; lra).
    assert (Qltb (_estimate_distance_fast cfg v (LaneDetector.shape_height frame))
              (critical_distance cfg) = true) as -> by (apply Qltb_lt; lra).
    reflexivity. }
  destruct Hr as (Hs & Hl & Ht & _).
  unfold max_score in Hs. cbn [map fold_right List.filter] in Hs, Ht.
  rewrite Ha in Hs, Ht. cbn [is_threat threat_score] in Hs, Ht.
  change (Z.max 90 0) with 90 in Hs.
  rewrite Hl, Hs. repeat split.
  exists ta. repeat split; [exact Ht|exact Ha].
Qed.

(** C3: a vehicle whose lane index equals ego's is a threat exactly
    when its distance is below the medium threshold and it is not approaching
    quickly (not approaching, or relative speed below 2 px/frame); the threat
    type is then [same_lane] and the score before the TTC bonus is 90 below
    the critical distance, 70 below the high-risk distance and 50 otherwise.
    Consequently a frame whose single vehicle is in ego's lane, closer than
    the critical distance (such as 8 m against 10 m) and not approaching has
    that vehicle as a [same_lane] threat of score 90 and risk level Critical;
    the critical threshold is taken not to exceed the medium one. *)
Theorem same_lane_rule vl li mv d ttc :
  vl = LaneDetector.ego_lane_id li ->
  let base := classify_threat cfg vl li mv d in
  let a := _assess_actual_threat cfg vl li mv d ttc in
  (is_threat a = true <->
     (d < medium_risk_distance cfg)%Q /\
     (is_approaching mv = false \/ (relative_speed mv < 2)%Q)) /\
  (is_threat a = true ->
     threat_type a = same_lane /\
     a = adjust_for_ttc cfg base ttc /\
     ((d < critical_distance cfg)%Q -> threat_score base = 90) /\
     ((critical_distance cfg <= d)%Q -> (d < high_risk_distance cfg)%Q ->
        threat_score base = 70) /\
     ((critical_distance cfg <= d)%Q -> (high_risk_distance cfg <= d)%Q ->
        threat_score base = 50)) /\
  (forall self v frame,
     let li' := snd (LaneDetector.detect_lanes (ego_lane_history self) frame) in
     let d' := _estimate_distance_fast cfg v (LaneDetector.shape_height frame) in
     let mv' := snd (_analyze_vehicle_movement sqrt (vehicle_history self) v (track_id v)) in
     is_vehicle_class (class_name v) = true ->
     LaneDetector.get_vehicle_lane (bbox v) li' = LaneDetector.ego_lane_id li' ->
     (d' < critical_distance cfg)%Q ->
     (critical_distance cfg <= medium_risk_distance cfg)%Q ->
     is_approaching mv' = false ->
     let r := snd (analyze_collision_risk cfg sqrt self [v] frame) in
     risk_level r = Critical /\ res_threat_score r = 90 /\
     exists ta, threatening_objects r = [ta] /\ ta_object ta = v /\
       ta_assessment ta = mkAssessment true same_lane 90).
Proof.
  intros Hvl. cbv zeta. unfold _assess_actual_threat.
  rewrite adjust_for_ttc_is_threat, adjust_for_ttc_threat_type.
  rewrite (classify_same_lane cfg _ _ _ _ Hvl).
  split; [|split].
  - destruct (Qltb d (medium_risk_distance cfg)) eqn:Hm; cbn [andb].
    + apply Qltb_lt in Hm.
      destruct (is_approaching mv); cbn [negb orb].
      * destruct (Qltb (relative_speed mv) 2) eqn:Hs; cbn [is_threat].
        -- apply Qltb_lt in Hs. tauto.
        -- apply Qltb_ge in Hs. split; [discriminate|].
           intros [_ [Hf|Hf]]; [discriminate|lra].
      * cbn [is_threat]. tauto.
    + apply Qltb_ge in Hm. cbn [is_threat]. split; [discriminate|]. intros [Hf _]. lra.
  - destruct (Qltb d (medium_risk_distance cfg) && _)%bool; cbn [is_threat threat_type];
      [intros _|discriminate].
    split; [reflexivity|]. split; [reflexivity|]. cbn [threat_score].
    destruct (Qltb d (critical_distance cfg)) eqn:Hc;
      [apply Qltb_lt in Hc|apply Qltb_ge in Hc];
      (destruct (Qltb d (high_risk_distance cfg)) eqn:Hh;
        [apply Qltb_lt in Hh|apply Qltb_ge in Hh]);
      repeat split; intros; try reflexivity; lra.
  - intros self v frame. apply single_same_lane_vehicle.
Qed.

(** C4: a vehicle in the oncoming lane (index -1) is a threat exactly
    when ego's lane change is detected with direction left, the distance is
    below the high-risk threshold and the vehicle is approaching; the threat
    type is then [oncoming] with base score 95.  When ego is not changing
    lanes the vehicle is no threat, whatever its distance and speed.  The
    lane information is any that the lane detector produces. *)
Theorem oncoming_rule hist frame mv d ttc :
  let li := snd (LaneDetector.detect_lanes hist frame) in
  let base := classify_threat cfg (-1) li mv d in
  let a := _assess_actual_threat cfg (-1) li mv d ttc in
  (is_threat a = true <->
     LaneDetector.lane_change_detected li = true /\
     LaneDetector.lane_change_direction li = LaneDetector.DirLeft /\
     (d < high_risk_distance cfg)%Q /\
     is_approaching mv = true) /\
  (is_threat a = true ->
     threat_type a = oncoming /\ a = adjust_for_ttc cfg base ttc /\ threat_score base = 95) /\
  (LaneDetector.lane_change_detected li = false -> a = mkAssessment false none 0).
Proof.
  cbv zeta. unfold _assess_actual_threat.
  rewrite adjust_for_ttc_is_threat, adjust_for_ttc_threat_type.
  pose proof (detect_lanes_ego_nonneg hist frame) as Hego.
  rewrite (classify_oncoming cfg); [|lia].
  set (li := snd (LaneDetector.detect_lanes hist frame)) in *.
  destruct (LaneDetector.lane_change_detected li);
    destruct (LaneDetector.lane_change_direction li);
    cbn [LaneDetector.Direction_eqb andb];
    (destruct (Qltb d (high_risk_distance cfg)) eqn:Hh;
       [apply Qltb_lt in Hh|apply Qltb_ge in Hh]);
    destruct (is_approaching mv);
    cbn [andb is_threat threat_type threat_score];
    (split; [|split]);
    try (intros _; apply adjust_for_ttc_no_threat; reflexivity);
    try (intros; congruence);
    try (split; [congruence|]; intros (H1 & H2 & H3 & H4); (congruence || lra)).
  all: tauto.
Qed.

(** *** The position-history map *)

Lemma cap_history_length {A : Type} (n : nat) (l : list A) :
  (length l <= S n)%nat -> (length (LaneDetector.cap_history n l) <= n)%nat.
Proof.
  unfold LaneDetector.cap_history. intros Hl.
  destruct (Nat.ltb n (length l)) eqn:E.
  - apply Nat.ltb_lt in E. destruct l; cbn [tail length] in *; lia.
  - apply Nat.ltb_ge in E. lia.
Qed.

Lemma record_position_dom (history : gmap Z (list (Q * Q))) v tid :
  dom (record_position history v tid) = {[tid]} ∪ dom history.
Proof.
  unfold record_position. destruct (history !! tid) eqn:E.
  - rewrite dom_insert_L. reflexivity.
  - rewrite !dom_insert_L, (assoc_L (∪)), (idemp_L (∪)). reflexivity.
Qed.

Lemma record_position_bounded (history : gmap Z (list (Q * Q))) v tid :
  bounded_entries history -> bounded_entries (record_position history v tid).
Proof.
  intros Hb. unfold record_position, bounded_entries, max_history_frames in *.
  destruct (history !! tid) as [l|] eqn:E.
  - rewrite E. cbn [default]. apply map_Forall_insert_2; [|exact Hb].
    apply cap_history_length. rewrite length_app. cbn [length].
    pose proof (Hb _ _ E) as Hl. cbn beta in Hl. unfold id. lia.
  - rewrite lookup_insert_eq. cbn [default app].
    apply map_Forall_insert_2; [unfold LaneDetector.cap_history; cbn; lia|].
    apply map_Forall_insert_2; [cbn; lia|exact Hb].
Qed.

Lemma assess_vehicle_history li h w st v :
  ls_history (assess_vehicle cfg sqrt li h w st v) =
  record_position (ls_history st) v (track_id v).
Proof.
  destruct (analysis_cases (ls_history st) v li h w) as [(H1 & _)|(H1 & _)].
  - rewrite (assess_vehicle_no_threat _ _ _ _ _ H1). reflexivity.
  - rewrite (assess_vehicle_threat _ _ _ _ _ H1). reflexivity.
Qed.

Lemma fold_assess_vehicle_history li h w vs st :
  let st' := fold_left (assess_vehicle cfg sqrt li h w) vs st in
  dom (ls_history st') = dom (ls_history st) ∪ list_to_set (map track_id vs) /\
  (bounded_entries (ls_history st) -> bounded_entries (ls_history st')).
Proof.
  revert st. induction vs as [|v vs IH]; intros st; cbv zeta.
  - cbn. split; [set_solver|auto].
  - cbn [fold_left map]. destruct (IH (assess_vehicle cfg sqrt li h w st v)) as [IH1 IH2].
    rewrite assess_vehicle_history in IH1, IH2.
    split.
    + rewrite IH1, record_position_dom. set_solver.
    + intros Hb. apply IH2, record_position_bounded, Hb.
Qed.

(** One call adds the identities of the frame's vehicles to the key set and
    removes none. *)
Lemma analyze_collision_risk_history self objs frame :
  let self' := fst (analyze_collision_risk cfg sqrt self objs frame) in
  dom (vehicle_history self') =
    dom (vehicle_history self) ∪ list_to_set (map track_id (vehicles_of objs)) /\
  (bounded_entries (vehicle_history self) -> bounded_entries (vehicle_history self')).
Proof.
  cbv zeta. unfold analyze_collision_risk.
  destruct objs as [|o objs]; [cbn; split; [set_solver|auto]|].
  destruct (LaneDetector.detect_lanes (ego_lane_history self) frame) as [eh li].
  destruct (vehicles_of (o :: objs)) as [|v vs] eqn:Hv; [cbn; split; [set_solver|auto]|].
  cbn [fst vehicle_history].
  match goal with |- context [fold_left _ _ ?s] =>
    pose proof (fold_assess_vehicle_history li (LaneDetector.shape_height frame)
                  (LaneDetector.shape_width frame) (v :: vs) s) as Hf end.
  exact Hf.
Qed.

Lemma run_history self calls :
  let final := fst (run cfg sqrt self calls) in
  dom (vehicle_history final) = dom (vehicle_history self) ∪ assessed_identities calls /\
  (bounded_entries (vehicle_history self) -> bounded_entries (vehicle_history final)).
Proof.
  revert self. induction calls as [|[objs frame] calls IH]; intros self; cbv zeta.
  - cbn. split; [set_solver|auto].
  - cbn [run].
    pose proof (analyze_collision_risk_history self objs frame) as Ha. cbv zeta in Ha.
    destruct (analyze_collision_risk cfg sqrt self objs frame) as [self' r].
    specialize (IH self'). cbv zeta in IH.
    destruct (run cfg sqrt self' calls) as [final rs].
    cbn [fst] in *. destruct Ha as [Ha1 Ha2], IH as [IH1 IH2].
    split; [|auto].
    rewrite IH1, Ha1. unfold assessed_identities. cbn [map concat fst].
    rewrite map_app, list_to_set_app_L. set_solver.
Qed.

(** C2 (amended): the position-history map is never pruned by
    identity.  After any sequence of [analyze_collision_risk] calls on a fresh
    analyzer its key set is exactly the set of identities of all vehicles
    assessed so far, however long ago; only the length of each entry is
    bounded, by [max_history_frames] = 10 positions. *)
Theorem vehicle_history_keys_accumulate calls :
  let final := fst (run cfg sqrt Predictor_init calls) in
  dom (vehicle_history final) = assessed_identities calls /\
  map_Forall (fun _ positions => (length positions <= 10)%nat) (vehicle_history final).
Proof.
  cbv zeta. destruct (run_history Predictor_init calls) as [H1 H2].
  split.
  - rewrite H1. cbn. set_solver.
  - apply H2. intros k l Hk. cbn in Hk. rewrite lookup_empty in Hk. discriminate.
Qed.

(** *** Frame-level aggregation *)

Lemma risk_level_of_score_mono (A B : Z) :
  B <= A ->
  (risk_ordinal (risk_level_of_score B) <= risk_ordinal (risk_level_of_score A))%nat.
Proof.
  intros HAB. unfold risk_level_of_score.
  repeat match goal with
         | |- context [Z.leb ?a ?b] => destruct (Z.leb_spec a b)
         end; cbn [risk_ordinal]; lia.
Qed.

(** C5: the risk level of a frame is the step function of its threat
    score (80 and above Critical, 60 High, 40 Medium, 20 Low, otherwise None),
    that score is the maximum of the threat scores of the frame's vehicles,
    and the step function is monotone: for scores A > B the level of A is at
    least the level of B in the order None < Low < Medium < High < Critical. *)
Theorem risk_level_step_monotone self objs frame (A B : Z) :
  B < A ->
  let li := snd (LaneDetector.detect_lanes (ego_lane_history self) frame) in
  let all := analyses cfg sqrt (vehicle_history self) li
               (LaneDetector.shape_height frame) (LaneDetector.shape_width frame)
               (vehicles_of objs) in
  let r := snd (analyze_collision_risk cfg sqrt self objs frame) in
  res_threat_score r = max_score all /\
  risk_level r = risk_level_of_score (res_threat_score r) /\
  (80 <= A -> risk_level_of_score A = Critical) /\
  (60 <= A < 80 -> risk_level_of_score A = High) /\
  (40 <= A < 60 -> risk_level_of_score A = Medium) /\
  (20 <= A < 40 -> risk_level_of_score A = Low) /\
  (A < 20 -> risk_level_of_score A = RiskNone) /\
  (risk_ordinal (risk_level_of_score B) <= risk_ordinal (risk_level_of_score A))%nat.
Proof.
  intros HAB. cbv zeta.
  destruct (analyze_collision_risk_result self objs frame) as (H1 & H2 & _).
  split; [exact H1|]. split; [exact H2|].
  unfold risk_level_of_score at 1 2 3 4 5.
  repeat split; intros;
    repeat match goal with
           | |- context [Z.leb ?a ?b] => destruct (Z.leb_spec a b)
           end; try reflexivity; try lia.
  apply risk_level_of_score_mono. lia.
Qed.

(** C9: a call with an empty list of tracked objects, or with no
    vehicle among them, returns the initial result: risk level None, threat
    score 0, no primary threat, no threatening object, no recommendation, the
    three threat counters at 0, and [total_objects] equal to the length of the
    input. *)
Theorem no_vehicle_result self objs frame :
  vehicles_of objs = [] ->
  let r := snd (analyze_collision_risk cfg sqrt self objs frame) in
  risk_level r = RiskNone /\ res_threat_score r = 0 /\ primary_threat r = None /\
  threatening_objects r = [] /\ recommendations r = [] /\
  same_lane_threats r = 0 /\ oncoming_threats r = 0 /\ lane_change_threats r = 0 /\
  total_objects r = length objs /\
  (objs = [] -> total_objects r = 0%nat /\ lane_info r = None /\
                fst (analyze_collision_risk cfg sqrt self objs frame) = self).
Proof.
  intros Hv. cbv zeta. unfold analyze_collision_risk.
  destruct objs as [|o objs].
  - cbn. repeat split; reflexivity.
  - rewrite Hv.
    destruct (LaneDetector.detect_lanes (ego_lane_history self) frame) as [eh li].
    cbn. repeat split; try reflexivity; congruence.
Qed.

(** C10: when the lane information of a frame has no lane boundary,
    ego's lane index is 0 and [get_vehicle_lane] returns 0 for every box, so
    the lane of every assessed vehicle equals ego's lane, and no vehicle is
    classified [oncoming] or [lane_change]: the threat type of every analysis
    is [same_lane] or [none], every threatening object of the frame is a
    [same_lane] threat and the other two counters stay at 0. *)
Theorem no_lane_geometry_same_lane_only self objs frame :
  let li := snd (LaneDetector.detect_lanes (ego_lane_history self) frame) in
  LaneDetector.lane_boundaries li = [] ->
  LaneDetector.ego_lane_id li = 0 /\
  (forall b, LaneDetector.get_vehicle_lane b li = 0) /\
  (forall history v h w,
     let ta := snd (_analyze_vehicle_threat cfg sqrt history v li h w) in
     ta_vehicle_lane ta = LaneDetector.ego_lane_id li /\
     threat_type (ta_assessment ta) <> oncoming /\
     threat_type (ta_assessment ta) <> lane_change) /\
  let r := snd (analyze_collision_risk cfg sqrt self objs frame) in
  Forall (fun ta => threat_type (ta_assessment ta) = same_lane) (threatening_objects r).
Proof.
  cbv zeta. intros Hb.
  destruct (detect_lanes_no_boundaries _ _ Hb) as [Hego Hch].
  set (li := snd (LaneDetector.detect_lanes (ego_lane_history self) frame)) in *.
  assert (Hlane : forall b, LaneDetector.get_vehicle_lane b li = 0).
  { intros b. apply get_vehicle_lane_no_boundaries, Hb. }
  assert (Hone : forall history v h w,
             threat_type (ta_assessment (snd (_analyze_vehicle_threat cfg sqrt history v li h w)))
               = (if is_threat (ta_assessment (snd (_analyze_vehicle_threat cfg sqrt history v li h w)))
                  then same_lane else none)).
  { intros history v h w. rewrite analyze_vehicle_threat_assessment.
    unfold _assess_actual_threat.
    rewrite adjust_for_ttc_threat_type, adjust_for_ttc_is_threat.
    rewrite (classify_same_lane cfg) by (rewrite Hlane, Hego; reflexivity).
    case_match; reflexivity. }
  split; [exact Hego|]. split; [exact Hlane|]. split.
  - intros history v h w. split; [cbn; rewrite Hlane, Hego; reflexivity|].
    rewrite Hone. case_match; split; discriminate.
  - destruct (analyze_collision_risk_result self objs frame) as (_ & _ & Ht & _).
    rewrite Ht. fold li.
    apply Forall_forall. intros ta Hin. apply list_elem_of_In, filter_In in Hin.
    destruct Hin as [Hin Hthreat].
    pose proof (analyses_Forall
      (fun ta => is_threat (ta_assessment ta) = true -> threat_type (ta_assessment ta) = same_lane)
      li (LaneDetector.shape_height frame) (LaneDetector.shape_width frame) (vehicles_of objs)) as HF.
    cbv beta in HF.
    assert (HP : forall history v,
      is_threat (ta_assessment (snd (_analyze_vehicle_threat cfg sqrt history v li
          (LaneDetector.shape_height frame) (LaneDetector.shape_width frame)))) = true ->
      threat_type (ta_assessment (snd (_analyze_vehicle_threat cfg sqrt history v li
          (LaneDetector.shape_height frame) (LaneDetector.shape_width frame)))) = same_lane).
    { intros history v Ht'. rewrite Hone, Ht'. reflexivity. }
    specialize (HF HP (vehicle_history self)).
    rewrite Forall_forall in HF. apply HF; [|exact Hthreat].
    apply list_elem_of_In. exact Hin.
Qed.

End AnalyzerFacts.

(** ** The analyzer on concrete frames *)

(** The failing input of C1: ego in lane 0 changing to the right, a vehicle
    in lane 1 at 5 m that is not changing lanes. *)
Lemma ego_merge_target_not_flagged_witness :
  LaneDetector.lane_change_detected lane_info_changing_right = true /\
  1 = CollisionPredictor.target_lane lane_info_changing_right /\
  1 <> -1 /\
  (5 < CollisionPredictor.medium_risk_distance example_config)%Q /\
  CollisionPredictor.is_changing_lanes CollisionPredictor.movement_default = false /\
  CollisionPredictor._assess_actual_threat example_config 1 lane_info_changing_right
    CollisionPredictor.movement_default 5 PInf
  = CollisionPredictor.mkAssessment false CollisionPredictor.none 0.
Proof.
  assert (H1 : LaneDetector.lane_change_detected lane_info_changing_right = true)
    by reflexivity.
  assert (H2 : 1 = CollisionPredictor.target_lane lane_info_changing_right)
    by reflexivity.
  assert (H3 : 1 <> -1) by lia.
  assert (H4 : (5 < CollisionPredictor.medium_risk_distance example_config)%Q)
    by reflexivity.
  assert (H5 : CollisionPredictor.is_changing_lanes CollisionPredictor.movement_default = false)
    by reflexivity.
  exact (conj H1 (conj H2 (conj H3 (conj H4 (conj H5
    (ego_merge_target_not_flagged example_config 1 lane_info_changing_right
       CollisionPredictor.movement_default 5 PInf H1 H2 H3 H4 H5)))))).
Defined.

(** C2 (counterexample): track 1 is assessed once, then six calls, one
    more than the tracker's maximum age of 5, contain only track 2; the map
    still holds the entry of track 1. *)
Lemma stale_identity_is_kept :
  ~ evicts_stale_identities example_config approx_sqrt stale_calls.
Proof.
  intros Hev.
  specialize (Hev 1
    [([car 1 (mkBBox 300 200 340 272)], plain_frame)]
    (replicate 6 ([car 2 (mkBBox 100 200 140 272)], plain_frame))
    eq_refl).
  assert (Hlen : (Z.to_nat KalmanTracker.max_age
                  < length (replicate 6 ([car 2 (mkBBox 100 200 140 272)], plain_frame)))%nat)
    by (vm_compute; lia).
  assert (Habs : Forall (absent_from 1)
                   (replicate 6 ([car 2 (mkBBox 100 200 140 272)], plain_frame))).
  { apply Forall_replicate. unfold absent_from, car. cbn.
    constructor; [cbn; lia|constructor]. }
  specialize (Hev Hlen Habs). vm_compute in Hev. discriminate Hev.
Qed.

(** Scenario 1 of the specification: a single car at 8 m in ego's lane. *)
Lemma same_lane_rule_witness :
  0 = LaneDetector.ego_lane_id (snd (LaneDetector.detect_lanes [] plain_frame)) /\
  (CollisionPredictor._estimate_distance_fast example_config car_at_8m 480 == 8)%Q /\
  let r := snd (CollisionPredictor.analyze_collision_risk example_config approx_sqrt
                  CollisionPredictor.Predictor_init [car_at_8m] plain_frame) in
  CollisionPredictor.risk_level r = CollisionPredictor.Critical /\
  CollisionPredictor.res_threat_score r = 90 /\
  exists ta, CollisionPredictor.threatening_objects r = [ta] /\
    CollisionPredictor.ta_object ta = car_at_8m /\
    CollisionPredictor.ta_assessment ta
    = CollisionPredictor.mkAssessment true CollisionPredictor.same_lane 90.
Proof.
  assert (H0 : 0 = LaneDetector.ego_lane_id (snd (LaneDetector.detect_lanes [] plain_frame)))
    by reflexivity.
  split; [exact H0|]. split; [reflexivity|].
  destruct (same_lane_rule example_config approx_sqrt 0
              (snd (LaneDetector.detect_lanes [] plain_frame))
              CollisionPredictor.movement_default 8 PInf H0) as (_ & _ & Hframe).
  apply (Hframe CollisionPredictor.Predictor_init car_at_8m plain_frame);
    vm_compute; (reflexivity || discriminate).
Defined.

(** Scores 85 and 45 on the frame of scenario 1. *)
Lemma risk_level_step_monotone_witness :
  45 < 85 /\
  (CollisionPredictor.risk_ordinal (CollisionPredictor.risk_level_of_score 45)
   <= CollisionPredictor.risk_ordinal (CollisionPredictor.risk_level_of_score 85))%nat /\
  CollisionPredictor.risk_level
    (snd (CollisionPredictor.analyze_collision_risk example_config approx_sqrt
            CollisionPredictor.Predictor_init [car_at_8m] plain_frame))
  = CollisionPredictor.risk_level_of_score 90.
Proof.
  assert (H : 45 < 85) by lia.
  destruct (risk_level_step_monotone example_config approx_sqrt
              CollisionPredictor.Predictor_init [car_at_8m] plain_frame 85 45 H)
    as (_ & Hlevel & _ & _ & _ & _ & _ & Hmono).
  split; [exact H|]. split; [exact Hmono|]. rewrite Hlevel. reflexivity.
Defined.

(** Scenario 4 of the specification (no detection), and a frame whose only
    object is a pedestrian. *)
Lemma no_vehicle_result_witness :
  CollisionPredictor.vehicles_of [] = [] /\
  CollisionPredictor.vehicles_of [pedestrian] = [] /\
  CollisionPredictor.total_objects
    (snd (CollisionPredictor.analyze_collision_risk example_config approx_sqrt
            CollisionPredictor.Predictor_init [] plain_frame)) = 0%nat /\
  CollisionPredictor.risk_level
    (snd (CollisionPredictor.analyze_collision_risk example_config approx_sqrt
            CollisionPredictor.Predictor_init [pedestrian] lane_frame))
  = CollisionPredictor.RiskNone /\
  CollisionPredictor.total_objects
    (snd (CollisionPredictor.analyze_collision_risk example_config approx_sqrt
            CollisionPredictor.Predictor_init [pedestrian] lane_frame)) = 1%nat.
Proof.
  assert (H1 : CollisionPredictor.vehicles_of [] = []) by reflexivity.
  assert (H2 : CollisionPredictor.vehicles_of [pedestrian] = []) by reflexivity.
  pose proof (no_vehicle_result example_config approx_sqrt
                CollisionPredictor.Predictor_init [] plain_frame H1) as He.
  pose proof (no_vehicle_result example_config approx_sqrt
                CollisionPredictor.Predictor_init [pedestrian] lane_frame H2) as Hp.
  cbv zeta in He, Hp.
  destruct He as (_ & _ & _ & _ & _ & _ & _ & _ & He & _).
  destruct Hp as (Hp1 & _ & _ & _ & _ & _ & _ & _ & Hp2 & _).
  exact (conj H1 (conj H2 (conj He (conj Hp1 Hp2)))).
Defined.

(** A frame without lane markings: a car at the far left is still in
    lane 0 and can only be a same-lane threat. *)
Lemma no_lane_geometry_same_lane_only_witness :
  LaneDetector.lane_boundaries (snd (LaneDetector.detect_lanes [] plain_frame)) = [] /\
  LaneDetector.get_vehicle_lane (mkBBox 20 200 80 260)
    (snd (LaneDetector.detect_lanes [] plain_frame)) = 0 /\
  Forall (fun ta => CollisionPredictor.threat_type (CollisionPredictor.ta_assessment ta)
                    = CollisionPredictor.same_lane)
    (CollisionPredictor.threatening_objects
       (snd (CollisionPredictor.analyze_collision_risk example_config approx_sqrt
               CollisionPredictor.Predictor_init [car 3 (mkBBox 20 200 80 260)] plain_frame))).
Proof.
  assert (H : LaneDetector.lane_boundaries
                (snd (LaneDetector.detect_lanes
                        (CollisionPredictor.ego_lane_history CollisionPredictor.Predictor_init)
                        plain_frame)) = []) by reflexivity.
  destruct (no_lane_geometry_same_lane_only example_config approx_sqrt
              CollisionPredictor.Predictor_init [car 3 (mkBBox 20 200 80 260)] plain_frame H)
    as (_ & Hlane & _ & Hall).
  exact (conj H (conj (Hlane (mkBBox 20 200 80 260)) Hall)).
Defined.

(** Scenario 2 of the specification: with lane markings detected, a car left
    of ego's lane gets lane index -1; ego is not changing lanes, and the car
    is no threat although it is closer than the critical distance. *)
Example oncoming_vehicle_without_lane_change :
  let car_left := car 4 (mkBBox 40 200 100 300) in
  let li := snd (LaneDetector.detect_lanes [] lane_frame) in
  LaneDetector.get_vehicle_lane (mkBBox 40 200 100 300) li = -1 /\
  LaneDetector.lane_change_detected li = false /\
  (CollisionPredictor._estimate_distance_fast example_config car_left 480 < 10)%Q /\
  CollisionPredictor.threatening_objects
    (snd (CollisionPredictor.analyze_collision_risk example_config approx_sqrt
            CollisionPredictor.Predictor_init [car_left] lane_frame)) = [].
Proof. cbv zeta. repeat split; vm_compute; reflexivity. Qed.

(** ** The Kalman tracker: track lifecycle *)

Section TrackerFacts.

Import KalmanTracker.

Variable linear_sum_assignment : Matrix -> list (nat * nat).
Variable sqrt : Q -> Q.

Local Abbreviation update := (update linear_sum_assignment sqrt).
Local Abbreviation run := (run linear_sum_assignment sqrt).
Local Abbreviation before_removal := (before_removal linear_sum_assignment).

Implicit Types (t : FastKalmanFilter) (trks : list FastKalmanFilter) (s : Tracker).

Lemma elem_of_List_filter {A : Type} (f : A -> bool) (l : list A) (x : A) :
  x ∈ List.filter f l <-> x ∈ l /\ f x = true.
Proof. rewrite !list_elem_of_In. apply filter_In. Qed.

Lemma NoDup_map_inj {A B : Type} (f : A -> B) (l : list A) (x y : A) :
  NoDup (map f l) -> x ∈ l -> y ∈ l -> f x = f y -> x = y.
Proof.
  induction l as [|a l IH]; intros Hnd Hx Hy Hf.
  - inversion Hx.
  - cbn [map] in Hnd. apply NoDup_cons in Hnd. destruct Hnd as [Hna Hnd].
    apply elem_of_cons in Hx. apply elem_of_cons in Hy.
    destruct Hx as [->|Hx], Hy as [->|Hy]; auto.
    + exfalso. apply Hna. rewrite Hf. apply (list_elem_of_fmap_2 f). exact Hy.
    + exfalso. apply Hna. rewrite <- Hf. apply (list_elem_of_fmap_2 f). exact Hx.
Qed.

(** *** Identities through one update *)

Lemma predict_id t : id (predict t) = id t.
Proof. reflexivity. Qed.

Lemma map_predict_ids trks : map id (map predict trks) = map id trks.
Proof. rewrite map_map. reflexivity. Qed.

Lemma kf_update_id t b t' : kf_update t b = Some t' -> id t' = id t.
Proof.
  unfold kf_update. destruct (inv2 _); cbn [mbind option_bind]; [|discriminate].
  intros [= <-]. reflexivity.
Qed.

Lemma update_matched_ids detections matches trks trks' :
  update_matched detections matches trks = Some trks' ->
  map id trks' = map id trks.
Proof.
  revert trks. induction matches as [|[d i] ms IH]; intros trks; cbn [update_matched].
  - intros [= <-]. reflexivity.
  - destruct (trks !! i) as [trk|] eqn:Ht; cbn [mbind option_bind]; [|discriminate].
    destruct (detections !! d) as [det|]; cbn [mbind option_bind]; [|discriminate].
    destruct (kf_update trk (det_bbox det)) as [trk'|] eqn:Hk;
      cbn [mbind option_bind]; [|discriminate].
    intros Hm. apply IH in Hm. rewrite Hm.
    change (map id (<[i:=trk']> trks)) with (id <$> <[i:=trk']> trks).
    rewrite list_fmap_insert. apply list_insert_id.
    rewrite list_lookup_fmap, Ht. cbn. f_equal. symmetry. apply (kf_update_id _ _ _ Hk).
Qed.

(** The trackers that an update creates get the identities
    [next], [next + 1], ... in order. *)
Lemma create_new_spec detections unmatched trks next trks' next' :
  create_new detections unmatched trks next = Some (trks', next') ->
  exists news,
    trks' = trks ++ news /\ next <= next' /\
    Forall (fun t => next <= id t < next' /\ hits t = 1 /\ time_since_update t = 0) news /\
    NoDup (map id news).
Proof.
  revert trks next. induction unmatched as [|d ds IH]; intros trks next; cbn [create_new].
  - intros [= <- <-]. exists []. rewrite app_nil_r.
    repeat split; [lia|constructor|constructor].
  - destruct (detections !! d) as [det|]; cbn [mbind option_bind]; [|discriminate].
    destruct (Qltb (1 # 2) (det_confidence det)).
    + intros Hc. apply IH in Hc. destruct Hc as (news & -> & Hle & Hall & Hnd).
      exists (FastKalmanFilter_init (det_bbox det) next (det_class_name det)
                (det_confidence det) :: news).
      rewrite <- app_assoc. split; [reflexivity|]. split; [lia|]. split.
      * constructor; [cbn; lia|].
        eapply Forall_impl; [exact Hall|]. cbn. intros t Ht. lia.
      * cbn [map]. apply NoDup_cons. split; [|exact Hnd].
        cbn [id FastKalmanFilter_init]. intros Hin.
        apply list_elem_of_fmap in Hin. destruct Hin as (t & Hid & Hin).
        rewrite Forall_forall in Hall. specialize (Hall _ Hin). lia.
    + apply IH.
Qed.

(** The trackers just before the removal step: those of the previous state,
    in order and with their identities, followed by the new ones. *)
Lemma before_removal_spec s detections pre next :
  before_removal s detections = Some (pre, next) ->
  exists olds news,
    pre = olds ++ news /\ map id olds = map id (trackers s) /\
    next_id s <= next /\
    Forall (fun t => next_id s <= id t < next /\ hits t = 1 /\ time_since_update t = 0) news /\
    NoDup (map id news).
Proof.
  unfold KalmanTracker.before_removal.
  match goal with |- context [mbind _ ?m] => destruct m as [[[matches ud] ut]|] end;
    cbn [mbind option_bind]; [|discriminate].
  destruct (update_matched detections matches (map predict (trackers s))) as [olds|] eqn:Hm;
    cbn [mbind option_bind]; [|discriminate].
  intros Hc. apply create_new_spec in Hc. destruct Hc as (news & -> & Hle & Hall & Hnd).
  exists olds, news. split; [reflexivity|]. split; [|auto].
  rewrite (update_matched_ids _ _ _ _ Hm). apply map_predict_ids.
Qed.

(** *** The invariant on identities *)

Lemma ids_fresh_init : ids_fresh Tracker_init.
Proof. split; constructor. Qed.

Lemma update_spec s detections s' out :
  update s detections = Some (s', out) ->
  exists pre,
    before_removal s detections = Some (pre, next_id s') /\
    trackers s' = remove_old pre /\
    out = map (snapshot sqrt) (List.filter emitted (trackers s')).
Proof.
  unfold KalmanTracker.update.
  destruct (before_removal s detections) as [[pre next]|]; cbn [mbind option_bind];
    [|discriminate].
  intros [= <- <-]. exists pre. auto.
Qed.

Lemma remove_old_ids pre i :
  i ∈ map id (remove_old pre) -> i ∈ map id pre.
Proof.
  intros Hin. apply list_elem_of_fmap in Hin. destruct Hin as (t & -> & Hin).
  apply elem_of_List_filter in Hin. apply list_elem_of_fmap_2, Hin.
Qed.

Lemma NoDup_map_filter {A B : Type} (f : A -> B) (p : A -> bool) (l : list A) :
  NoDup (map f l) -> NoDup (map f (List.filter p l)).
Proof.
  induction l as [|a l IH]; cbn [map List.filter]; intros Hnd; [constructor|].
  apply NoDup_cons in Hnd. destruct Hnd as [Hna Hnd].
  destruct (p a); cbn [map]; [|auto].
  apply NoDup_cons. split; [|auto].
  intros Hin. apply Hna. apply list_elem_of_fmap in Hin. destruct Hin as (x & -> & Hin).
  apply elem_of_List_filter in Hin. apply list_elem_of_fmap_2, Hin.
Qed.

(** The trackers before removal have pairwise distinct identities below the
    new [next_id]; an identity among them is an old one or a new one. *)
Lemma before_removal_ids s detections pre next :
  ids_fresh s ->
  before_removal s detections = Some (pre, next) ->
  NoDup (map id pre) /\ Forall (fun t => id t < next) pre /\ next_id s <= next /\
  (forall i, i ∈ map id pre -> i ∈ map id (trackers s) \/ next_id s <= i).
Proof.
  intros [Hlt Hnd] Hb. apply before_removal_spec in Hb.
  destruct Hb as (olds & news & -> & Hids & Hle & Hnews & Hndn).
  assert (Holds : Forall (fun i => i < next_id s) (map id olds)).
  { rewrite Hids. apply Forall_fmap. exact Hlt. }
  rewrite map_app. repeat split.
  - apply NoDup_app. split; [rewrite Hids; exact Hnd|]. split; [|exact Hndn].
    intros i Hi Hi'. rewrite Forall_forall in Holds. specialize (Holds _ Hi).
    apply list_elem_of_fmap in Hi'. destruct Hi' as (t & -> & Ht).
    rewrite Forall_forall in Hnews. specialize (Hnews _ Ht). lia.
  - apply Forall_app. split.
    + apply Forall_fmap in Holds. eapply Forall_impl; [exact Holds|]. cbn. intros; lia.
    + eapply Forall_impl; [exact Hnews|]. cbn. intros; lia.
  - exact Hle.
  - intros i Hi. apply elem_of_app in Hi. destruct Hi as [Hi|Hi].
    + left. rewrite <- Hids. exact Hi.
    + right. apply list_elem_of_fmap in Hi. destruct Hi as (t & -> & Ht).
      rewrite Forall_forall in Hnews. specialize (Hnews _ Ht). lia.
Qed.

Lemma update_ids_fresh s detections s' out :
  ids_fresh s ->
  update s detections = Some (s', out) ->
  ids_fresh s' /\ next_id s <= next_id s' /\
  (forall i, i ∈ map id (trackers s') -> i ∈ map id (trackers s) \/ next_id s <= i) /\
  (forall i, i ∈ map out_track_id out -> i ∈ map id (trackers s')).
Proof.
  intros Hinv Hu. apply update_spec in Hu. destruct Hu as (pre & Hb & Htr & ->).
  destruct (before_removal_ids _ _ _ _ Hinv Hb) as (Hnd & Hlt & Hle & Hor).
  repeat split.
  - rewrite Htr. rewrite Forall_forall in Hlt. apply Forall_forall. intros t Ht.
    apply elem_of_List_filter in Ht. apply Hlt, Ht.
  - rewrite Htr. apply NoDup_map_filter, Hnd.
  - exact Hle.
  - intros i Hi. rewrite Htr in Hi. apply Hor, remove_old_ids, Hi.
  - intros i Hi. rewrite map_map in Hi. cbn [snapshot out_track_id] in Hi.
    change (i ∈ map id (List.filter emitted (trackers s'))) in Hi.
    apply list_elem_of_fmap in Hi. destruct Hi as (t & -> & Ht).
    apply elem_of_List_filter in Ht. apply list_elem_of_fmap_2, Ht.
Qed.

(** Every state that a sequence of updates reaches from any state with fresh identities
    has fresh identities. *)
Lemma run_ids_fresh frames s final outs :
  ids_fresh s -> run s frames = Some (final, outs) -> ids_fresh final.
Proof.
  revert s final outs. induction frames as [|dets frames IH]; intros s final outs Hinv;
    cbn [KalmanTracker.run].
  - intros [= <- <-]. exact Hinv.
  - destruct (update s dets) as [[s' out]|] eqn:Hu; cbn [mbind option_bind]; [|discriminate].
    destruct (run s' frames) as [[final' outs']|] eqn:Hr; cbn [mbind option_bind];
      [|discriminate].
    intros [= <- <-]. eapply IH; [|exact Hr].
    apply (update_ids_fresh _ _ _ _ Hinv Hu).
Qed.

(** An identity that was given out and is no longer tracked never comes
    back, in the track set or in the output. *)
Lemma gone_forever frames s final outs i :
  ids_fresh s -> i < next_id s -> i ∉ map id (trackers s) ->
  run s frames = Some (final, outs) ->
  (i ∉ map id (trackers final)) /\ Forall (fun out => i ∉ map out_track_id out) outs.
Proof.
  revert s final outs. induction frames as [|dets frames IH]; intros s final outs Hinv Hlt Hni;
    cbn [KalmanTracker.run].
  - intros [= <- <-]. split; [exact Hni|constructor].
  - destruct (update s dets) as [[s' out]|] eqn:Hu; cbn [mbind option_bind]; [|discriminate].
    destruct (run s' frames) as [[final' outs']|] eqn:Hr; cbn [mbind option_bind];
      [|discriminate].
    intros [= <- <-].
    destruct (update_ids_fresh _ _ _ _ Hinv Hu) as (Hinv' & Hle & Hor & Hout).
    assert (Hni' : i ∉ map id (trackers s')).
    { intros Hi. apply Hor in Hi. destruct Hi as [Hi|Hi]; [auto|lia]. }
    destruct (IH s' final' outs' Hinv' ltac:(lia) Hni' Hr) as [Hf Ho].
    split; [exact Hf|]. constructor; [|exact Ho].
    intros Hi. apply Hni', Hout, Hi.
Qed.

(** *** The lifecycle counters through one update *)

Lemma update_matched_counters detections matches trks trks' :
  update_matched detections matches trks = Some trks' ->
  forall i t0, trks !! i = Some t0 ->
  exists t1, trks' !! i = Some t1 /\ id t1 = id t0 /\
    (((i ∉ map snd matches) /\ t1 = t0) \/
     (i ∈ map snd matches /\ time_since_update t1 = 0 /\ hits t0 < hits t1)).
Proof.
  revert trks. induction matches as [|[d j] ms IH]; intros trks; cbn [update_matched].
  - intros [= <-] i t0 Hi. exists t0. split; [exact Hi|]. split; [reflexivity|].
    left. split; [|reflexivity]. cbn. apply not_elem_of_nil.
  - destruct (trks !! j) as [trk|] eqn:Ht; cbn [mbind option_bind]; [|discriminate].
    destruct (detections !! d) as [det|]; cbn [mbind option_bind]; [|discriminate].
    destruct (kf_update trk (det_bbox det)) as [trk'|] eqn:Hk;
      cbn [mbind option_bind]; [|discriminate].
    intros Hm i t0 Hi. cbn [map snd].
    assert (Htrk' : id trk' = id trk /\ time_since_update trk' = 0 /\ hits trk' = hits trk + 1).
    { unfold kf_update in Hk. destruct (inv2 _); cbn [mbind option_bind] in Hk; [|discriminate].
      injection Hk as <-. auto. }
    destruct (decide (i = j)) as [->|Hne].
    + assert (Hl : <[j:=trk']> trks !! j = Some trk').
      { apply list_lookup_insert_eq. eapply lookup_lt_Some, Ht. }
      destruct (IH _ Hm j trk' Hl) as (t1 & Hl1 & Hid & Hcase).
      rewrite Ht in Hi. injection Hi as <-.
      exists t1. split; [exact Hl1|]. split; [lia|]. right.
      split; [apply elem_of_cons; auto|].
      destruct Hcase as [[_ ->]|(_ & H0 & Hh)]; lia.
    + assert (Hl : <[j:=trk']> trks !! i = Some t0).
      { rewrite list_lookup_insert_ne by auto. exact Hi. }
      destruct (IH _ Hm i t0 Hl) as (t1 & Hl1 & Hid & Hcase).
      exists t1. split; [exact Hl1|]. split; [exact Hid|].
      destruct Hcase as [[Hn ->]|(Hin & H0 & Hh)].
      * left. split; [|reflexivity]. intros Hin. apply elem_of_cons in Hin.
        destruct Hin as [?|?]; auto.
      * right. split; [apply elem_of_cons; auto|auto].
Qed.

(** Every tracker of the previous state is still at its index before the
    removal step, with its identity; its [time_since_update] is one more than
    before when no detection was matched to it, and 0 when one was, in which
    case [hits] has grown. *)
Lemma track_counters_step s detections pre next i t0 :
  before_removal s detections = Some (pre, next) ->
  trackers s !! i = Some t0 ->
  exists t1, pre !! i = Some t1 /\ id t1 = id t0 /\
    ((time_since_update t1 = time_since_update t0 + 1 /\ hits t1 = hits t0) \/
     (time_since_update t1 = 0 /\ hits t0 < hits t1)).
Proof.
  unfold KalmanTracker.before_removal.
  match goal with |- context [mbind _ ?m] => destruct m as [[[matches ud] ut]|] end;
    cbn [mbind option_bind]; [|discriminate].
  destruct (update_matched detections matches (map predict (trackers s))) as [olds|] eqn:Hm;
    cbn [mbind option_bind]; [|discriminate].
  intros Hc Hi. apply create_new_spec in Hc. destruct Hc as (news & -> & _).
  assert (Hp : map predict (trackers s) !! i = Some (predict t0)).
  { change (map predict (trackers s)) with (predict <$> trackers s).
    rewrite list_lookup_fmap, Hi. reflexivity. }
  destruct (update_matched_counters _ _ _ _ Hm i _ Hp) as (t1 & Hl & Hid & Hcase).
  exists t1. split; [apply lookup_app_l_Some, Hl|]. split; [exact Hid|].
  destruct Hcase as [[_ ->]|(_ & H0 & Hh)]; [left|right]; cbn in *; auto.
Qed.

(** *** Removal and emission *)

(** C6: in any update of a tracker reached by a sequence of updates, a
    track whose [time_since_update] exceeds [max_age] when old trackers are
    removed is removed: its identity is neither in the track set nor in the
    output of that update, and in no track set and no output of any later
    update.  Every track that survives has [time_since_update <= max_age]. *)
Theorem stale_track_removed_forever frames0 outs0 s detections pre next s' out t
    later final outs :
  run Tracker_init frames0 = Some (s, outs0) ->
  before_removal s detections = Some (pre, next) ->
  update s detections = Some (s', out) ->
  t ∈ pre ->
  max_age < time_since_update t ->
  run s' later = Some (final, outs) ->
  (id t ∉ map id (trackers s')) /\
  (id t ∉ map out_track_id out) /\
  (id t ∉ map id (trackers final)) /\
  Forall (fun o => id t ∉ map out_track_id o) outs /\
  Forall (fun t' => time_since_update t' <= max_age) (trackers s').
Proof.
  intros Hreach Hb Hu Ht Hage Hlater.
  pose proof (run_ids_fresh _ _ _ _ ids_fresh_init Hreach) as Hinv.
  destruct (before_removal_ids _ _ _ _ Hinv Hb) as (Hnd & Hlt & Hle & _).
  destruct (update_ids_fresh _ _ _ _ Hinv Hu) as (Hinv' & _ & _ & Hout).
  pose proof (update_spec _ _ _ _ Hu) as (pre' & Hb' & Htr & _).
  rewrite Hb in Hb'. injection Hb' as <- Hnext.
  assert (Hgone : id t ∉ map id (trackers s')).
  { rewrite Htr. intros Hin. apply list_elem_of_fmap in Hin. destruct Hin as (t' & Hid & Hin).
    apply elem_of_List_filter in Hin. destruct Hin as [Hin Hkeep].
    assert (t = t') as <- by (eapply NoDup_map_inj; eauto).
    apply Z.leb_le in Hkeep. lia. }
  assert (Hbelow : id t < next_id s').
  { rewrite <- Hnext. rewrite Forall_forall in Hlt. apply Hlt, Ht. }
  destruct (gone_forever _ _ _ _ _ Hinv' Hbelow Hgone Hlater) as [Hf Ho].
  split; [exact Hgone|]. split; [intros Hi; apply Hgone, Hout, Hi|].
  split; [exact Hf|]. split; [exact Ho|].
  rewrite Htr. apply Forall_forall. intros t' Hin.
  apply elem_of_List_filter in Hin. destruct Hin as [_ Hkeep].
  apply Z.leb_le in Hkeep. exact Hkeep.
Qed.

(** C7: in any update of a tracker reached by a sequence of updates,
    the output is the list of snapshots of exactly the surviving tracks with
    [hits >= min_hits] or [time_since_update = 0], in the order of the track
    set: a surviving track is in the output if and only if it satisfies that
    condition, so a track with [hits < min_hits] is emitted only in a frame
    in which it was matched or created. *)
Theorem emitted_iff_confirmed_or_updated frames0 outs0 s detections s' out :
  run Tracker_init frames0 = Some (s, outs0) ->
  update s detections = Some (s', out) ->
  out = map (snapshot sqrt) (List.filter emitted (trackers s')) /\
  (forall t, t ∈ trackers s' ->
     (id t ∈ map out_track_id out <->
      min_hits <= hits t \/ time_since_update t = 0)) /\
  (forall t, t ∈ trackers s' ->
     hits t < min_hits -> 0 < time_since_update t -> id t ∉ map out_track_id out) /\
  (forall o, o ∈ out ->
     exists t, t ∈ trackers s' /\ o = snapshot sqrt t /\
       (min_hits <= hits t \/ time_since_update t = 0)).
Proof.
  intros Hreach Hu.
  pose proof (run_ids_fresh _ _ _ _ ids_fresh_init Hreach) as Hinv.
  destruct (update_ids_fresh _ _ _ _ Hinv Hu) as ([_ Hnd] & _ & _ & _).
  pose proof (update_spec _ _ _ _ Hu) as (pre & _ & _ & Hout).
  assert (Hem : forall t, emitted t = true <-> min_hits <= hits t \/ time_since_update t = 0).
  { intros t. unfold emitted. rewrite orb_true_iff, Z.leb_le, Z.eqb_eq. reflexivity. }
  assert (Hiff : forall t, t ∈ trackers s' ->
            (id t ∈ map out_track_id out <-> min_hits <= hits t \/ time_since_update t = 0)).
  { intros t Ht. rewrite <- Hem, Hout, map_map. split.
    - intros Hin. apply list_elem_of_fmap in Hin. destruct Hin as (t' & Hid & Hin).
      cbn [snapshot out_track_id] in Hid.
      apply elem_of_List_filter in Hin. destruct Hin as [Hin He].
      assert (t = t') as -> by (eapply NoDup_map_inj; eauto). exact He.
    - intros He.
      apply (list_elem_of_fmap_2 (fun x => out_track_id (snapshot sqrt x)) _ t).
      apply elem_of_List_filter. auto. }
  split; [exact Hout|]. split; [exact Hiff|]. split.
  - intros t Ht Hh Hage Hin. apply (Hiff t Ht) in Hin. lia.
  - intros o Ho. rewrite Hout in Ho. apply list_elem_of_fmap in Ho.
    destruct Ho as (t & -> & Hin). apply elem_of_List_filter in Hin.
    destruct Hin as [Hin He]. exists t. split; [exact Hin|]. split; [reflexivity|].
    apply Hem, He.
Qed.

End TrackerFacts.

(** ** The tracker on concrete frames *)

(** A track created by one detection and then unmatched for six frames: in
    the sixth its counter reaches 6 > 5 and identity 1 disappears for good,
    also when the same object is detected again. *)
Lemma stale_track_removed_forever_witness :
  exists s outs0 pre next s' out t final outs,
    KalmanTracker.run diagonal_assignment approx_sqrt KalmanTracker.Tracker_init
      frames_until_stale = Some (s, outs0) /\
    KalmanTracker.before_removal diagonal_assignment s [] = Some (pre, next) /\
    KalmanTracker.update diagonal_assignment approx_sqrt s [] = Some (s', out) /\
    t ∈ pre /\
    KalmanTracker.max_age < KalmanTracker.time_since_update t /\
    KalmanTracker.run diagonal_assignment approx_sqrt s' [[example_detection]; []]
      = Some (final, outs) /\
    KalmanTracker.id t = 1 /\
    (KalmanTracker.id t ∉ map KalmanTracker.id (KalmanTracker.trackers s')) /\
    (KalmanTracker.id t ∉ map KalmanTracker.id (KalmanTracker.trackers final)) /\
    Forall (fun o => KalmanTracker.id t ∉ map KalmanTracker.out_track_id o) outs.
Proof.
  eexists _, _, _, _, _, _, _, _, _.
  match goal with
  | |- ?A1 /\ ?A2 /\ ?A3 /\ ?A4 /\ ?A5 /\ ?A6 /\ ?A7 /\ _ =>
      assert (H1 : A1) by (vm_compute; reflexivity);
      assert (H2 : A2) by (vm_compute; reflexivity);
      assert (H3 : A3) by (vm_compute; reflexivity);
      assert (H4 : A4) by (apply list_elem_of_here);
      assert (H5 : A5) by (vm_compute; reflexivity);
      assert (H6 : A6) by (vm_compute; reflexivity);
      assert (H7 : A7) by reflexivity
  end.
  destruct (stale_track_removed_forever diagonal_assignment approx_sqrt
              _ _ _ _ _ _ _ _ _ _ _ _ H1 H2 H3 H4 H5 H6) as (C1 & _ & C3 & C4 & _).
  exact (conj H1 (conj H2 (conj H3 (conj H4 (conj H5 (conj H6 (conj H7
          (conj C1 (conj C3 C4))))))))).
Defined.

(** A track created in one frame is emitted in that frame; unmatched in the
    next, with one hit, it is kept but not emitted. *)
Lemma emitted_iff_confirmed_or_updated_witness :
  exists s outs0 s' out t,
    KalmanTracker.run diagonal_assignment approx_sqrt KalmanTracker.Tracker_init
      [[example_detection]] = Some (s, outs0) /\
    KalmanTracker.update diagonal_assignment approx_sqrt s [] = Some (s', out) /\
    map (map KalmanTracker.out_track_id) outs0 = [[1]] /\
    KalmanTracker.trackers s' = [t] /\
    KalmanTracker.id t = 1 /\ KalmanTracker.hits t = 1 /\
    KalmanTracker.time_since_update t = 1 /\
    (KalmanTracker.id t ∉ map KalmanTracker.out_track_id out).
Proof.
  eexists _, _, _, _, _.
  match goal with
  | |- ?A1 /\ ?A2 /\ ?A3 /\ ?A4 /\ ?A5 /\ ?A6 /\ ?A7 /\ _ =>
      assert (H1 : A1) by (vm_compute; reflexivity);
      assert (H2 : A2) by (vm_compute; reflexivity);
      assert (H3 : A3) by reflexivity;
      assert (H4 : A4) by reflexivity;
      assert (H5 : A5) by reflexivity;
      assert (H6 : A6) by reflexivity;
      assert (H7 : A7) by reflexivity
  end.
  destruct (emitted_iff_confirmed_or_updated diagonal_assignment approx_sqrt
              _ _ _ _ _ _ H1 H2) as (_ & _ & Hnot & _).
  refine (conj H1 (conj H2 (conj H3 (conj H4 (conj H5 (conj H6 (conj H7 _))))))).
  apply Hnot.
  - rewrite H4. apply list_elem_of_here.
  - rewrite H6. reflexivity.
  - rewrite H7. reflexivity.
Defined.

(** ** Time to collision *)

Section TtcFacts.

Variable cfg : Config.
Variable sqrt : Q -> Q.

Lemma Qdiv_pos (a b : Q) : (0 < a)%Q -> (0 < b)%Q -> (0 < a / b)%Q.
Proof. intros Ha Hb. apply Qlt_shift_div_l; [exact Hb|]. lra. Qed.

(** The analyzer's time-to-collision is [+inf] or at least 0.1. *)
Lemma intelligent_ttc_cases v d mv :
  let t := CollisionPredictor._calculate_intelligent_ttc v d mv in
  (t = PInf \/ exists q, t = Fin q /\ (1 # 10 <= q)%Q) /\
  ((CollisionPredictor.is_approaching mv = false \/
    (CollisionPredictor.relative_speed mv < 1 # 10)%Q) -> t = PInf).
Proof.
  cbv zeta. unfold CollisionPredictor._calculate_intelligent_ttc.
  destruct (CollisionPredictor.is_approaching mv); cbn [negb].
  - destruct (Qltb (CollisionPredictor.relative_speed mv) (1 # 10)) eqn:Hs.
    + split; [left; reflexivity|reflexivity].
    + apply Qltb_ge in Hs. split.
      * right. eexists. split; [reflexivity|]. apply py_max_lower.
      * intros [Hf|Hf]; [discriminate|lra].
  - split; [left; reflexivity|reflexivity].
Qed.

(** [_calculate_time_to_collision] keeps a well-formed value well formed,
    returns nothing finite above 60, and returns [+inf] for an object with
    two samples that is not approaching or closes in no faster than 0.1. *)
Lemma calculate_ttc_cases distance n vel rw_vel previous :
  let t := Tracker._calculate_time_to_collision sqrt distance n vel rw_vel previous in
  (ttc_wf previous -> ttc_wf t) /\
  (forall q, t = Fin q -> (q <= 60)%Q) /\
  ((2 <= n)%nat ->
   ((snd vel <= 0)%Q \/ (Tracker.norm sqrt rw_vel <= 1 # 10)%Q) -> t = PInf) /\
  ((n < 2)%nat -> previous = PInf -> t = PInf).
Proof.
  cbv zeta. unfold Tracker._calculate_time_to_collision.
  destruct (Qleb distance 0) eqn:Hd.
  { repeat split; intros; (exact I || discriminate || reflexivity). }
  apply Qleb_gt in Hd.
  assert (Hcap : forall t0 : pyfloat,
            (ttc_wf t0 -> ttc_wf (if fl_gtb t0 (Fin 60) then PInf else t0)) /\
            (forall q, (if fl_gtb t0 (Fin 60) then PInf else t0) = Fin q -> (q <= 60)%Q) /\
            (t0 = PInf -> (if fl_gtb t0 (Fin 60) then PInf else t0) = PInf)).
  { intros t0. destruct t0 as [q0| | |]; unfold fl_gtb; cbn [fl_ltb].
    - destruct (Qltb 60 q0) eqn:E.
      + repeat split; intros; (exact I || discriminate).
      + apply Qltb_ge in E. repeat split; intros; try discriminate; auto.
        match goal with H : Fin _ = Fin _ |- _ => injection H as <- end. exact E.
    - repeat split; intros; (exact I || discriminate || reflexivity).
    - repeat split; intros; (contradiction || discriminate).
    - repeat split; intros; (contradiction || discriminate). }
  destruct (Nat.leb 2 n) eqn:Hn.
  - apply Nat.leb_le in Hn.
    destruct (Qltb 0 (snd vel)) eqn:Hv; cbn [andb].
    + apply Qltb_lt in Hv.
      destruct (Qltb (1 # 10) (Tracker.norm sqrt rw_vel)) eqn:Hs.
      * apply Qltb_lt in Hs.
        destruct (Hcap (Fin (distance / Tracker.norm sqrt rw_vel))) as (H1 & H2 & _).
        split; [intros _; apply H1; cbn; apply Qdiv_pos; lra|].
        split; [exact H2|]. split; [intros _ [Hf|Hf]; lra|intros; lia].
      * split; [intros; exact I|]. split; [intros; discriminate|].
        split; intros; reflexivity.
    + split; [intros; exact I|]. split; [intros; discriminate|].
      split; intros; reflexivity.
  - apply Nat.leb_gt in Hn. destruct (Hcap previous) as (H1 & H2 & H3).
    split; [exact H1|]. split; [exact H2|]. split; [intros; lia|intros _; exact H3].
Qed.

Lemma slice_last_length {A : Type} (m : Z) (l : list A) :
  length (Tracker.slice_last m l) =
  if Z.ltb 0 m then Nat.min (length l) (Z.to_nat m)
  else (length l - Z.to_nat (- m))%nat.
Proof.
  unfold Tracker.slice_last. destruct (Z.ltb 0 m); rewrite length_drop; lia.
Qed.

Lemma ttc_invariant_init b tid name ts :
  Tracker.ttc_invariant cfg sqrt (Tracker.TrackedObject_init cfg sqrt b tid name ts).
Proof.
  unfold Tracker.ttc_invariant. cbn [Tracker.TrackedObject_init Tracker.time_to_collision
    Tracker.position_history length ttc_wf].
  split; [exact I|]. split; [intros; discriminate|]. split; [reflexivity|].
  destruct (Z.lt_trichotomy (TRACK_HISTORY_LENGTH cfg) 0) as [?|[?|?]];
    [right|left|]; try (repeat split; (lia || reflexivity)).
  destruct (Z.eq_dec (TRACK_HISTORY_LENGTH cfg) 1);
    [right|left]; repeat split; (lia || reflexivity).
Qed.

Lemma ttc_invariant_step obj new_box ts obj' :
  Tracker.ttc_invariant cfg sqrt obj ->
  Tracker.update_position cfg sqrt obj new_box ts = Some obj' ->
  Tracker.ttc_invariant cfg sqrt obj'.
Proof.
  intros (Hwf & Hcap & Hinf & Hlen) Hu. unfold Tracker.update_position in Hu.
  match type of Hu with context [mbind _ ?m] => destruct m as [[rw_vel spd]|] end;
    cbn [mbind option_bind] in Hu; [|discriminate].
  injection Hu as <-. unfold Tracker.ttc_invariant.
  cbn [Tracker.time_to_collision Tracker.position_history Tracker.velocity
       Tracker.real_world_velocity].
  set (h1 := Tracker.position_history obj ++ _) in *.
  set (history := if Z.ltb _ _ then _ else h1) in *.
  assert (Hh1 : length h1 = S (length (Tracker.position_history obj))).
  { unfold h1. rewrite length_app. cbn [length]. lia. }
  assert (Hhl : length history =
                if Z.ltb (TRACK_HISTORY_LENGTH cfg) (Z.of_nat (length h1))
                then (if Z.ltb 0 (TRACK_HISTORY_LENGTH cfg)
                      then Nat.min (length h1) (Z.to_nat (TRACK_HISTORY_LENGTH cfg))
                      else (length h1 - Z.to_nat (- TRACK_HISTORY_LENGTH cfg))%nat)
                else length h1).
  { unfold history. destruct (Z.ltb _ (Z.of_nat (length h1))); [|reflexivity].
    apply slice_last_length. }
  match goal with |- context [Tracker._calculate_time_to_collision sqrt ?d ?n ?v ?r ?p] =>
    destruct (calculate_ttc_cases d n v r p) as (C1 & C2 & C3 & C4) end.
  cbv zeta in C1, C2, C3, C4.
  split; [apply C1, Hwf|]. split; [exact C2|].
  destruct Hlen as [[Hm HL]|(Hm & HL & Hp)].
  - assert (Hlong : (2 <= length history)%nat).
    { rewrite Hhl. destruct (Z.ltb_spec (TRACK_HISTORY_LENGTH cfg) (Z.of_nat (length h1)));
        [|lia].
      destruct (Z.ltb_spec 0 (TRACK_HISTORY_LENGTH cfg)); lia. }
    split; [apply C3, Hlong|]. left. split; [exact Hm|lia].
  - assert (Hshort : (length history <= 1)%nat).
    { rewrite Hhl. destruct (Z.ltb_spec (TRACK_HISTORY_LENGTH cfg) (Z.of_nat (length h1)));
        [|lia].
      destruct (Z.ltb_spec 0 (TRACK_HISTORY_LENGTH cfg)); lia. }
    assert (Ht : Tracker._calculate_time_to_collision sqrt
                   (Tracker._estimate_distance cfg sqrt new_box (Tracker.class_name obj))
                   (length history)
                   (if Nat.leb 2 (length history)
                    then Tracker._calculate_velocity history (Tracker.velocity obj)
                    else Tracker.velocity obj) rw_vel (Tracker.time_to_collision obj) = PInf).
    { apply C4; [lia|exact Hp]. }
    split; [intros _; exact Ht|]. right. split; [exact Hm|]. split; [exact Hshort|exact Ht].
Qed.

Lemma ttc_invariant_updates steps obj obj' :
  Tracker.ttc_invariant cfg sqrt obj ->
  Tracker.updates cfg sqrt obj steps = Some obj' ->
  Tracker.ttc_invariant cfg sqrt obj'.
Proof.
  revert obj. induction steps as [|[b ts] steps IH]; intros obj Hinv; cbn [Tracker.updates].
  - intros [= <-]. exact Hinv.
  - destruct (Tracker.update_position cfg sqrt obj b ts) as [obj1|] eqn:Hu;
      cbn [mbind option_bind]; [|discriminate].
    apply IH. eapply ttc_invariant_step; eauto.
Qed.

(** C8: every time-to-collision is [+inf] or finite and strictly
    positive, never negative and never NaN.  The analyzer's value is [+inf]
    when the vehicle is not approaching or its speed is below 0.1, and
    otherwise at least 0.1.  The value of a tracked object, after any
    sequence of position updates, is [+inf] when its vertical pixel velocity
    is not positive or its closing speed is at most 0.1, and is never a
    finite value above 60. *)
Theorem ttc_well_formed v d mv b tid name ts steps obj :
  Tracker.updates cfg sqrt (Tracker.TrackedObject_init cfg sqrt b tid name ts) steps
    = Some obj ->
  let t := CollisionPredictor._calculate_intelligent_ttc v d mv in
  ttc_wf t /\
  ((CollisionPredictor.is_approaching mv = false \/
    (CollisionPredictor.relative_speed mv < 1 # 10)%Q) -> t = PInf) /\
  ttc_wf (Tracker.time_to_collision obj) /\
  (((snd (Tracker.velocity obj) <= 0)%Q \/
    (Tracker.norm sqrt (Tracker.real_world_velocity obj) <= 1 # 10)%Q) ->
   Tracker.time_to_collision obj = PInf) /\
  (forall q, Tracker.time_to_collision obj = Fin q -> (0 < q <= 60)%Q).
Proof.
  intros Hu. cbv zeta.
  destruct (intelligent_ttc_cases v d mv) as [Hc Hi]. cbv zeta in Hc, Hi.
  pose proof (ttc_invariant_updates _ _ _ (ttc_invariant_init b tid name ts) Hu)
    as (Hwf & Hcap & Hinf & _).
  split.
  { destruct Hc as [->|(q & -> & Hq)]; cbn; [exact I|lra]. }
  split; [exact Hi|]. split; [exact Hwf|]. split; [exact Hinf|].
  intros q Hq. split; [|apply Hcap, Hq]. rewrite Hq in Hwf. exact Hwf.
Qed.

End TtcFacts.

(** A car whose box moves 100 pixels down the frame in one second: its
    time-to-collision is finite, positive and below 60; and the analyzer's
    value for an approaching vehicle at 8 m moving 5 pixels per frame. *)
Lemma ttc_well_formed_witness :
  exists obj q,
    Tracker.updates example_config approx_sqrt
      (Tracker.TrackedObject_init example_config approx_sqrt (mkBBox 100 100 200 200) 1 "car" 0)
      [(mkBBox 100 200 200 300, 1%Q)] = Some obj /\
    Tracker.time_to_collision obj = Fin q /\ (0 < q <= 60)%Q /\
    ttc_wf (CollisionPredictor._calculate_intelligent_ttc car_at_8m 8
              (CollisionPredictor.mkMovementInfo CollisionPredictor.down 5 true false
                 LaneDetector.DirNone)).
Proof.
  eexists _, _.
  match goal with
  | |- ?A1 /\ ?A2 /\ _ =>
      assert (H1 : A1) by (vm_compute; reflexivity);
      assert (H2 : A2) by (vm_compute; reflexivity)
  end.
  destruct (ttc_well_formed example_config approx_sqrt car_at_8m 8
              (CollisionPredictor.mkMovementInfo CollisionPredictor.down 5 true false
                 LaneDetector.DirNone)
              _ _ _ _ _ _ H1) as (Ha & _ & _ & _ & Hq).
  exact (conj H1 (conj H2 (conj (Hq _ H2) Ha))).
Defined.

(** * Further properties of the code *)

(** ** Clamping *)

Lemma py_min_cases a b :
  (py_min a b = a /\ (a <= b)%Q) \/ (py_min a b = b /\ (b < a)%Q).
Proof.
  unfold py_min. destruct (Qltb b a) eqn:E.
  - right. split; [reflexivity|]. apply Qltb_lt, E.
  - left. split; [reflexivity|]. apply Qltb_ge, E.
Qed.

Lemma py_max_cases a b :
  (py_max a b = a /\ (b <= a)%Q) \/ (py_max a b = b /\ (a < b)%Q).
Proof.
  unfold py_max. destruct (Qltb a b) eqn:E.
  - right. split; [reflexivity|]. apply Qltb_lt, E.
  - left. split; [reflexivity|]. apply Qltb_ge, E.
Qed.

(** [max(lo, min(x, hi))] lies between [lo] and [hi] and grows with [x]. *)
Lemma clamp_bounds lo hi x :
  (lo <= hi)%Q -> (lo <= py_max lo (py_min x hi) <= hi)%Q.
Proof.
  intros Hlh.
  destruct (py_min_cases x hi) as [[-> H1]|[-> H1]];
    destruct (py_max_cases lo x) as [[E2 H2]|[E2 H2]];
    destruct (py_max_cases lo hi) as [[E3 H3]|[E3 H3]];
    rewrite ?E2, ?E3; lra.
Qed.

Lemma clamp_mono lo hi x y :
  (x <= y)%Q -> (py_max lo (py_min x hi) <= py_max lo (py_min y hi))%Q.
Proof.
  intros Hxy.
  destruct (py_min_cases x hi) as [[-> H1]|[-> H1]];
    destruct (py_min_cases y hi) as [[-> H2]|[-> H2]];
    repeat match goal with
           | |- context [py_max ?a ?b] =>
               let E := fresh "E" in let H := fresh "H" in
               destruct (py_max_cases a b) as [[E H]|[E H]]; rewrite E
           end; lra.
Qed.

(** ** Distance estimates *)

Section DistanceFacts.

Variable cfg : Config.

(** A non-negative quantity divided by a larger positive height is not
    larger. *)
Lemma Qdiv_antitone (a h1 h2 : Q) :
  (0 <= a)%Q -> (0 < h1)%Q -> (h1 <= h2)%Q -> (a / h2 <= a / h1)%Q.
Proof.
  intros Ha H1 H12.
  assert (H2 : (0 < h2)%Q) by lra.
  apply Qle_shift_div_l; [exact H1|].
  assert (Hy : (0 <= a / h2)%Q) by (apply Qle_shift_div_l; [exact H2|lra]).
  assert (He : (a / h2 * h2 == a)%Q) by (field; lra).
  assert (Hm : (a / h2 * h1 <= a / h2 * h2)%Q).
  { rewrite !(Qmult_comm (a / h2)). apply Qmult_le_compat_r; assumption. }
  lra.
Qed.

(** The known height that [_estimate_distance_fast] uses for a class. *)
Lemma estimate_distance_fast_unfold obj h :
  (0 < by2 (CollisionPredictor.bbox obj) - by1 (CollisionPredictor.bbox obj))%Q ->
  exists known_height,
    (KNOWN_OBJECT_SIZES cfg !! lower (CollisionPredictor.class_name obj) = None /\
       known_height = (3 # 2)%Q \/
     exists size,
       KNOWN_OBJECT_SIZES cfg !! lower (CollisionPredictor.class_name obj) = Some size /\
       known_height = height size) /\
    CollisionPredictor._estimate_distance_fast cfg obj h =
    py_max 1 (py_min (known_height * (inject_Z h * (8 # 10))
                      / (by2 (CollisionPredictor.bbox obj) - by1 (CollisionPredictor.bbox obj)))
                     100).
Proof.
  intros Hpos. unfold CollisionPredictor._estimate_distance_fast.
  assert (Qleb (by2 (CollisionPredictor.bbox obj) - by1 (CollisionPredictor.bbox obj)) 0 = false)
    as -> by (apply Qleb_gt; exact Hpos).
  destruct (KNOWN_OBJECT_SIZES cfg !! lower (CollisionPredictor.class_name obj)) as [size|] eqn:E.
  - exists (height size). split; [right; exists size; auto|reflexivity].
  - exists (3 # 2)%Q. split; [left; auto|reflexivity].
Qed.

(** X1: the analyzer's distance estimate always lies between 1 and 100
    meters, and it is exactly 50 for a box whose height is not positive. *)
Theorem estimate_distance_fast_range obj h :
  let d := CollisionPredictor._estimate_distance_fast cfg obj h in
  (1 <= d <= 100)%Q /\
  ((by2 (CollisionPredictor.bbox obj) - by1 (CollisionPredictor.bbox obj) <= 0)%Q -> d = 50%Q).
Proof.
  cbv zeta. unfold CollisionPredictor._estimate_distance_fast.
  destruct (Qleb (by2 (CollisionPredictor.bbox obj) - by1 (CollisionPredictor.bbox obj)) 0) eqn:E.
  - split; [lra|reflexivity].
  - apply Qleb_gt in E. split; [apply clamp_bounds; lra|intros Hf; lra].
Qed.

(** X2: for two objects of the same class in frames of the same
    non-negative height, the object with the taller box is estimated no
    farther away, provided the configured height of the class is not
    negative. *)
Theorem estimate_distance_fast_antitone o1 o2 h :
  CollisionPredictor.class_name o1 = CollisionPredictor.class_name o2 ->
  0 <= h ->
  (forall size,
     KNOWN_OBJECT_SIZES cfg !! lower (CollisionPredictor.class_name o1) = Some size ->
     (0 <= height size)%Q) ->
  (0 < by2 (CollisionPredictor.bbox o1) - by1 (CollisionPredictor.bbox o1))%Q ->
  (by2 (CollisionPredictor.bbox o1) - by1 (CollisionPredictor.bbox o1)
   <= by2 (CollisionPredictor.bbox o2) - by1 (CollisionPredictor.bbox o2))%Q ->
  (CollisionPredictor._estimate_distance_fast cfg o2 h
   <= CollisionPredictor._estimate_distance_fast cfg o1 h)%Q.
Proof.
  intros Hname Hh Hsize H1 H12.
  destruct (estimate_distance_fast_unfold o1 h H1) as (k1 & Hk1 & ->).
  destruct (estimate_distance_fast_unfold o2 h ltac:(lra)) as (k2 & Hk2 & ->).
  rewrite <- Hname in Hk2.
  assert (Hk : k2 = k1 /\ (0 <= k1)%Q).
  { destruct Hk1 as [[E1 ->]|(s1 & E1 & ->)], Hk2 as [[E2 ->]|(s2 & E2 & ->)];
      rewrite E1 in E2; try discriminate.
    - split; [reflexivity|lra].
    - injection E2 as <-. split; [reflexivity|apply (Hsize _ E1)]. }
  destruct Hk as [-> Hk].
  apply clamp_mono, Qdiv_antitone; [|exact H1|exact H12].
  apply Qmult_le_0_compat; [exact Hk|].
  apply Qmult_le_0_compat; [|lra].
  change 0%Q with (inject_Z 0). rewrite <- Zle_Qle. exact Hh.
Qed.

(** X3: the fast estimate of [utils/helpers.py] always lies between 1
    and 100 meters, is 50 for a box whose height is not positive, and, in a
    frame of non-negative height, is no larger for a taller box of the same
    class. *)
Theorem calculate_simple_distance_range_antitone b1 b2 name h :
  (1 <= Helpers.calculate_simple_distance b1 name h <= 100)%Q /\
  ((by2 b1 - by1 b1 <= 0)%Q -> Helpers.calculate_simple_distance b1 name h = 50%Q) /\
  (0 <= h -> (0 < by2 b1 - by1 b1)%Q -> (by2 b1 - by1 b1 <= by2 b2 - by1 b2)%Q ->
   (Helpers.calculate_simple_distance b2 name h
    <= Helpers.calculate_simple_distance b1 name h)%Q).
Proof.
  unfold Helpers.calculate_simple_distance.
  split; [|split].
  - destruct (Qleb (by2 b1 - by1 b1) 0); [lra|apply clamp_bounds; lra].
  - intros Hn. apply Qleb_le in Hn. rewrite Hn. reflexivity.
  - intros Hh H1 H12.
    assert (Qleb (by2 b1 - by1 b1) 0 = false) as -> by (apply Qleb_gt; exact H1).
    assert (Qleb (by2 b2 - by1 b2) 0 = false) as -> by (apply Qleb_gt; lra).
    apply clamp_mono, Qdiv_antitone; [|exact H1|exact H12].
    apply Qmult_le_0_compat.
    + unfold Helpers.known_heights. repeat case_match; lra.
    + apply Qmult_le_0_compat; [|lra].
      change 0%Q with (inject_Z 0). rewrite <- Zle_Qle. exact Hh.
Qed.

End DistanceFacts.

(** Two cars in a 480-pixel frame, 72 and 100 pixels high. *)
Lemma estimate_distance_fast_antitone_witness :
  (CollisionPredictor._estimate_distance_fast example_config
     (car 5 (mkBBox 300 200 340 300)) 480
   <= CollisionPredictor._estimate_distance_fast example_config car_at_8m 480)%Q.
Proof.
  apply (estimate_distance_fast_antitone example_config car_at_8m
           (car 5 (mkBBox 300 200 340 300)) 480).
  - reflexivity.
  - lia.
  - intros size Hs. vm_compute in Hs. injection Hs as <-. vm_compute. discriminate.
  - vm_compute. reflexivity.
  - vm_compute. discriminate.
Defined.

(** ** The result of a frame *)

Section FrameFacts.

Import CollisionPredictor.

Variable cfg : Config.
Variable sqrt : Q -> Q.

Lemma max_score_app l1 l2 : max_score (l1 ++ l2) = Z.max (max_score l1) (max_score l2).
Proof.
  unfold max_score. induction l1 as [|a l1 IH]; cbn [app map fold_right].
  - pose proof (max_score_nonneg l2) as H. unfold max_score in H. lia.
  - rewrite IH. lia.
Qed.

Lemma max_score_upper l a : a ∈ l -> score_of a <= max_score l.
Proof.
  unfold max_score, score_of. induction l as [|b l IH]; intros Hin.
  - inversion Hin.
  - cbn [map fold_right]. apply elem_of_cons in Hin. destruct Hin as [->|Hin]; [lia|].
    specialize (IH Hin). lia.
Qed.

Lemma first_with_score_app l1 l2 s a :
  first_with_score s l1 = Some a -> first_with_score s (l1 ++ l2) = Some a.
Proof.
  unfold first_with_score. induction l1 as [|b l1 IH]; cbn [app List.find]; [discriminate|].
  destruct (score_of b =? s); auto.
Qed.

Lemma first_with_score_none l1 l2 s :
  Forall (fun a => score_of a < s) l1 ->
  first_with_score s (l1 ++ l2) = first_with_score s l2.
Proof.
  unfold first_with_score. induction 1 as [|b l1 Hb _ IH]; cbn [app List.find]; [reflexivity|].
  assert ((score_of b =? s) = false) as -> by (apply Z.eqb_neq; lia). exact IH.
Qed.

(** The maximum score of a non-empty list of positive scores is attained. *)
Lemma max_score_attained l :
  l <> [] -> Forall (fun a => 0 < score_of a) l ->
  exists a, first_with_score (max_score l) l = Some a.
Proof.
  induction l as [|b l IH]; intros Hne Hpos; [congruence|].
  apply Forall_cons in Hpos. destruct Hpos as [Hb Hpos].
  unfold first_with_score, max_score. cbn [map fold_right List.find].
  fold (max_score l). fold (score_of b).
  destruct (score_of b =? Z.max (score_of b) (max_score l)) eqn:E; [eauto|].
  apply Z.eqb_neq in E.
  assert (Hl : l <> []).
  { intros ->. unfold max_score in E. cbn in E. lia. }
  destruct (IH Hl Hpos) as (a & Ha). exists a.
  assert (Z.max (score_of b) (max_score l) = max_score l) as -> by lia. exact Ha.
Qed.

Lemma count_type_app t l1 l2 : count_type t (l1 ++ l2) = count_type t l1 + count_type t l2.
Proof. unfold count_type. rewrite List.filter_app, length_app. lia. Qed.

Lemma loop_invariant_start history : loop_invariant (loop_start history).
Proof. unfold loop_invariant, loop_start. cbn. repeat split; constructor. Qed.

Lemma analyze_vehicle_threat_object history v li h w :
  ta_object (snd (_analyze_vehicle_threat cfg sqrt history v li h w)) = v.
Proof. reflexivity. Qed.

(** One iteration of the loop keeps the invariant. *)
Lemma loop_invariant_step li h w st v :
  loop_invariant st -> loop_invariant (assess_vehicle cfg sqrt li h w st v).
Proof.
  intros (Hall & Hmax & Hprim & Hs & Ho & Hl).
  destruct (analysis_cases cfg sqrt (ls_history st) v li h w) as [(H1 & H2 & H3)|(H1 & H2 & H3)].
  - rewrite (assess_vehicle_no_threat cfg sqrt _ _ _ _ _ H1).
    unfold loop_invariant. cbn [ls_threatening ls_max_threat_score ls_primary_threat
      ls_same_lane ls_oncoming ls_lane_change]. auto 10.
  - rewrite (assess_vehicle_threat cfg sqrt _ _ _ _ _ H1).
    pose proof (analyze_vehicle_threat_object (ls_history st) v li h w) as Hobj.
    remember (snd (_analyze_vehicle_threat cfg sqrt (ls_history st) v li h w)) as ta eqn:Hta_def.
    clear Hta_def.
    unfold loop_invariant. cbn [ls_threatening ls_max_threat_score ls_primary_threat
      ls_same_lane ls_oncoming ls_lane_change].
    assert (Hupper : Forall (fun a => score_of a <= ls_max_threat_score st) (ls_threatening st)).
    { rewrite Hmax. apply Forall_forall. intros a Ha. apply max_score_upper, Ha. }
    assert (Hta : max_score [ta] = threat_score (ta_assessment ta)).
    { unfold max_score. cbn [map fold_right]. lia. }
    split; [|split; [|split]].
    + apply Forall_app. split; [exact Hall|]. constructor; [|constructor].
      unfold type_of, score_of. auto.
    + rewrite max_score_app, Hta, <- Hmax. case_match eqn:E;
        [apply Z.ltb_lt in E|apply Z.ltb_ge in E]; lia.
    + destruct (ls_max_threat_score st <? threat_score (ta_assessment ta)) eqn:E.
      * apply Z.ltb_lt in E. rewrite first_with_score_none.
        -- unfold first_with_score. cbn [List.find]. fold (score_of ta).
           unfold score_of at 1. rewrite Z.eqb_refl. cbn [option_map].
           rewrite Hobj. reflexivity.
        -- eapply Forall_impl; [exact Hupper|]. cbn beta. intros a Ha. lia.
      * apply Z.ltb_ge in E.
        assert (Hne : ls_threatening st <> []).
        { intros Hnil. rewrite Hnil in Hmax. unfold max_score in Hmax. cbn in Hmax. lia. }
        destruct (max_score_attained (ls_threatening st) Hne) as (a & Ha).
        { eapply Forall_impl; [exact Hall|]. cbn beta. intros a Ha. lia. }
        rewrite <- Hmax in Ha. rewrite (first_with_score_app _ _ _ _ Ha).
        rewrite Hprim, Ha. reflexivity.
    + rewrite !count_type_app, Hs, Ho, Hl. unfold count_type, type_of. cbn [List.filter].
      destruct (threat_type (ta_assessment ta)); cbn [ThreatType_eqb length];
        (split; [|split]); lia.
Qed.

Lemma loop_invariant_fold li h w vs st :
  loop_invariant st -> loop_invariant (fold_left (assess_vehicle cfg sqrt li h w) vs st).
Proof.
  revert st. induction vs as [|v vs IH]; intros st Hst; cbn [fold_left]; [exact Hst|].
  apply IH, loop_invariant_step, Hst.
Qed.

(** Every field of the result but [total_objects] and [lane_info] is read
    off the loop variables after the frame's vehicles, also when the call
    returns early. *)
Lemma analyze_collision_risk_fields self objs frame :
  let li := snd (LaneDetector.detect_lanes (ego_lane_history self) frame) in
  let st := fold_left (assess_vehicle cfg sqrt li (LaneDetector.shape_height frame)
                         (LaneDetector.shape_width frame))
              (vehicles_of objs) (loop_start (vehicle_history self)) in
  let r := snd (analyze_collision_risk cfg sqrt self objs frame) in
  res_threat_score r = ls_max_threat_score st /\
  risk_level r = risk_level_of_score (ls_max_threat_score st) /\
  primary_threat r = ls_primary_threat st /\
  threatening_objects r = ls_threatening st /\
  recommendations r =
    _generate_intelligent_recommendations (risk_level r) (ls_threatening st) li /\
  same_lane_threats r = ls_same_lane st /\
  oncoming_threats r = ls_oncoming st /\
  lane_change_threats r = ls_lane_change st /\
  vehicle_history (fst (analyze_collision_risk cfg sqrt self objs frame)) = ls_history st.
Proof.
  cbv zeta. unfold analyze_collision_risk.
  destruct objs as [|o objs]; [cbn; auto 10|].
  destruct (LaneDetector.detect_lanes (ego_lane_history self) frame) as [eh li].
  cbn [snd].
  destruct (vehicles_of (o :: objs)) as [|v vs] eqn:Hv; [cbn; auto 10|].
  cbn [snd fst res_threat_score risk_level primary_threat threatening_objects recommendations
       same_lane_threats oncoming_threats lane_change_threats vehicle_history].
  unfold loop_start. auto 10.
Qed.

(** The loop variables after the frame's vehicles satisfy the invariant. *)
Lemma analyze_collision_risk_invariant self objs frame :
  let li := snd (LaneDetector.detect_lanes (ego_lane_history self) frame) in
  loop_invariant
    (fold_left (assess_vehicle cfg sqrt li (LaneDetector.shape_height frame)
                  (LaneDetector.shape_width frame))
       (vehicles_of objs) (loop_start (vehicle_history self))).
Proof. apply loop_invariant_fold, loop_invariant_start. Qed.

End FrameFacts.

Section FrameProperties.

Import CollisionPredictor.

Variable cfg : Config.
Variable sqrt : Q -> Q.

(** What holds of every single analysis holds of every threatening object
    of a result. *)
Lemma threatening_objects_Forall (P : ThreatAnalysis -> Prop) self objs frame :
  (forall history v li h w, P (snd (_analyze_vehicle_threat cfg sqrt history v li h w))) ->
  Forall P (threatening_objects (snd (analyze_collision_risk cfg sqrt self objs frame))).
Proof.
  intros HP.
  destruct (analyze_collision_risk_result cfg sqrt self objs frame) as (_ & _ & Ht & _).
  rewrite Ht. apply Forall_forall. intros a Ha. apply elem_of_List_filter in Ha.
  destruct Ha as [Ha _]. revert a Ha. apply Forall_forall, analyses_Forall.
  intros history v. apply HP.
Qed.

(** A threat whose score is below 60 is a same-lane threat. *)
Lemma low_score_is_same_lane vl li mv d ttc :
  let a := _assess_actual_threat cfg vl li mv d ttc in
  is_threat a = true -> threat_score a < 60 -> threat_type a = same_lane.
Proof.
  cbv zeta. unfold _assess_actual_threat.
  rewrite adjust_for_ttc_is_threat, adjust_for_ttc_threat_type.
  unfold adjust_for_ttc.
  set (c := classify_threat cfg vl li mv d).
  assert (Hc : threat_type c = same_lane \/ 60 <= threat_score c \/ is_threat c = false).
  { unfold c, classify_threat. repeat case_match; cbn; auto; right; left; lia. }
  intros Ht. rewrite Ht. cbn [andb].
  destruct Hc as [Hc|[Hc|Hc]]; [auto| |congruence].
  repeat case_match; cbn [threat_score]; lia.
Qed.

Lemma max_score_le l b :
  0 <= b -> Forall (fun a => score_of a <= b) l -> max_score l <= b.
Proof.
  intros Hb. unfold max_score, score_of. induction 1; cbn [map fold_right]; lia.
Qed.

(** The two shapes of a result: nothing threatening, or a score between
    50 and 100. *)
Lemma frame_level_cases self objs frame :
  let r := snd (analyze_collision_risk cfg sqrt self objs frame) in
  (threatening_objects r = [] /\ res_threat_score r = 0 /\ risk_level r = RiskNone) \/
  (threatening_objects r <> [] /\ 50 <= res_threat_score r <= 100 /\
   (risk_level r = Medium \/ risk_level r = High \/ risk_level r = Critical)).
Proof.
  cbv zeta.
  destruct (analyze_collision_risk_fields cfg sqrt self objs frame)
    as (Hs & Hl & _ & Ht & _).
  destruct (analyze_collision_risk_invariant cfg sqrt self objs frame)
    as (Hall & Hmax & _).
  cbv zeta in *. rewrite <- Ht in Hall, Hmax. rewrite <- Hs in Hmax, Hl.
  set (r := snd (analyze_collision_risk cfg sqrt self objs frame)) in *.
  destruct (threatening_objects r) as [|a thr] eqn:E.
  - assert (H0 : res_threat_score r = 0) by (rewrite Hmax; reflexivity).
    rewrite Hl, H0. left. auto.
  - assert (Hlo : 50 <= res_threat_score r).
    { rewrite Hmax. apply Forall_cons in Hall. destruct Hall as [(_ & _ & Ha) _].
      pose proof (max_score_upper (a :: thr) a ltac:(apply list_elem_of_here)). lia. }
    assert (Hhi : res_threat_score r <= 100).
    { rewrite Hmax. apply max_score_le; [lia|].
      eapply Forall_impl; [exact Hall|]. cbn beta. intros b Hb. lia. }
    rewrite Hl. unfold risk_level_of_score.
    repeat match goal with
           | |- context [Z.leb ?a ?b] => destruct (Z.leb_spec a b)
           end; try lia;
      (right; split; [discriminate|]; split; [lia|]; auto).
Qed.

(** X4: the threat score of a frame is 0, with no threatening object and
    risk level None, or it lies between 50 and 100, with at least one
    threatening object and risk level Medium, High or Critical.  The risk
    level Low is never returned. *)
Theorem frame_risk_never_low self objs frame :
  let r := snd (analyze_collision_risk cfg sqrt self objs frame) in
  risk_level r <> Low /\
  ((threatening_objects r = [] /\ res_threat_score r = 0 /\ risk_level r = RiskNone) \/
   (threatening_objects r <> [] /\ 50 <= res_threat_score r <= 100 /\
    (risk_level r = Medium \/ risk_level r = High \/ risk_level r = Critical))).
Proof.
  cbv zeta. pose proof (frame_level_cases self objs frame) as Hcase. cbv zeta in Hcase.
  split; [|exact Hcase].
  destruct Hcase as [(_ & _ & ->)|(_ & _ & [->|[->| ->]])]; discriminate.
Qed.

Lemma count_types_total l :
  Forall (fun a => type_of a <> none) l ->
  count_type same_lane l + count_type oncoming l + count_type lane_change l
  = Z.of_nat (length l).
Proof.
  unfold count_type. induction 1 as [|a l Ha _ IH]; [reflexivity|].
  cbn [List.filter length]. destruct (type_of a); cbn [ThreatType_eqb length];
    [lia|lia|lia|congruence].
Qed.

Lemma threat_counters_count self objs frame :
  let r := snd (analyze_collision_risk cfg sqrt self objs frame) in
  same_lane_threats r = count_type same_lane (threatening_objects r) /\
  oncoming_threats r = count_type oncoming (threatening_objects r) /\
  lane_change_threats r = count_type lane_change (threatening_objects r).
Proof.
  cbv zeta.
  destruct (analyze_collision_risk_fields cfg sqrt self objs frame)
    as (_ & _ & _ & Ht & _ & H1 & H2 & H3 & _).
  destruct (analyze_collision_risk_invariant cfg sqrt self objs frame)
    as (_ & _ & _ & I1 & I2 & I3).
  cbv zeta in *. rewrite <- Ht in I1, I2, I3.
  rewrite H1, H2, H3, I1, I2, I3. auto.
Qed.

(** X5: each of the three threat counters of a result is the number of
    threatening objects of its type, and the three counters add up to the
    number of threatening objects. *)
Theorem threat_counters_partition self objs frame :
  let r := snd (analyze_collision_risk cfg sqrt self objs frame) in
  same_lane_threats r = count_type same_lane (threatening_objects r) /\
  oncoming_threats r = count_type oncoming (threatening_objects r) /\
  lane_change_threats r = count_type lane_change (threatening_objects r) /\
  same_lane_threats r + oncoming_threats r + lane_change_threats r
  = Z.of_nat (length (threatening_objects r)).
Proof.
  cbv zeta.
  destruct (threat_counters_count self objs frame) as (C1 & C2 & C3).
  destruct (analyze_collision_risk_fields cfg sqrt self objs frame)
    as (_ & _ & _ & Ht & _).
  destruct (analyze_collision_risk_invariant cfg sqrt self objs frame) as (Hall & _).
  cbv zeta in *. rewrite <- Ht in Hall.
  split; [exact C1|]. split; [exact C2|]. split; [exact C3|].
  rewrite C1, C2, C3.
  apply count_types_total. eapply Forall_impl; [exact Hall|]. cbn beta. tauto.
Qed.

Lemma threat_scores_bounded self objs frame :
  let r := snd (analyze_collision_risk cfg sqrt self objs frame) in
  Forall (fun a => score_of a <= res_threat_score r) (threatening_objects r).
Proof.
  cbv zeta.
  destruct (analyze_collision_risk_fields cfg sqrt self objs frame)
    as (Hs & _ & _ & Ht & _).
  destruct (analyze_collision_risk_invariant cfg sqrt self objs frame)
    as (_ & Hmax & _).
  cbv zeta in *. rewrite <- Ht in Hmax. rewrite <- Hs in Hmax.
  rewrite Hmax. apply Forall_forall. intros a Ha. apply max_score_upper, Ha.
Qed.

(** X6: the primary threat of a result is the object of the first
    threatening object whose score equals the frame's threat score, which no
    threatening object exceeds; there is no primary threat exactly when there
    is no threatening object. *)
Theorem primary_threat_is_first_maximum self objs frame :
  let r := snd (analyze_collision_risk cfg sqrt self objs frame) in
  primary_threat r =
    option_map ta_object (first_with_score (res_threat_score r) (threatening_objects r)) /\
  Forall (fun a => score_of a <= res_threat_score r) (threatening_objects r) /\
  (primary_threat r = None <-> threatening_objects r = []).
Proof.
  cbv zeta.
  destruct (analyze_collision_risk_fields cfg sqrt self objs frame)
    as (Hs & _ & Hp & Ht & _).
  destruct (analyze_collision_risk_invariant cfg sqrt self objs frame)
    as (Hall & Hmax & Hprim & _).
  cbv zeta in *. rewrite <- Ht in Hall, Hmax, Hprim. rewrite <- Hs in Hmax, Hprim.
  rewrite <- Hp in Hprim.
  set (r := snd (analyze_collision_risk cfg sqrt self objs frame)) in *.
  split; [exact Hprim|]. split.
  - rewrite Hmax. apply Forall_forall. intros a Ha. apply max_score_upper, Ha.
  - rewrite Hprim. split.
    + intros Hnone. destruct (threatening_objects r) as [|a thr] eqn:E; [reflexivity|].
      destruct (max_score_attained (a :: thr)) as (b & Hb); [discriminate| |].
      * eapply Forall_impl; [exact Hall|]. cbn beta. intros c Hc. lia.
      * rewrite Hmax, Hb in Hnone. discriminate.
    + intros ->. reflexivity.
Qed.

Lemma existsb_type_of t (l : list ThreatAnalysis) a :
  a ∈ l -> type_of a = t -> has_type t l = true.
Proof.
  intros Hin Ht. unfold has_type. apply existsb_exists. exists a.
  split; [apply list_elem_of_In, Hin|]. fold (type_of a). rewrite Ht. destruct t; reflexivity.
Qed.

(** X7: a result has no recommendation exactly when it has no
    threatening object; at risk level Critical the first recommendation is
    to brake, and at risk level Medium a vehicle ahead is always among the
    threats, so the recommendation to keep a safe distance is given. *)
Theorem recommendations_follow_threats self objs frame :
  let r := snd (analyze_collision_risk cfg sqrt self objs frame) in
  (recommendations r = [] <-> threatening_objects r = []) /\
  (risk_level r = Critical -> head (recommendations r) = Some "EMERGENCY BRAKE"%string) /\
  (risk_level r = Medium -> "MAINTAIN SAFE DISTANCE"%string ∈ recommendations r).
Proof.
  cbv zeta.
  destruct (analyze_collision_risk_fields cfg sqrt self objs frame)
    as (Hs & Hl & _ & Ht & Hr & _).
  pose proof (frame_level_cases self objs frame) as Hcase.
  pose proof (threat_scores_bounded self objs frame) as Hupper.
  pose proof (threatening_objects_Forall
    (fun a => is_threat (ta_assessment a) = true -> score_of a < 60 -> type_of a = same_lane)
    self objs frame) as Hlow.
  pose proof (threatening_objects_Forall
    (fun a => is_threat (ta_assessment a) = true -> type_of a <> none)
    self objs frame) as Htype.
  pose proof (threatening_objects_Forall
    (fun a => is_threat (ta_assessment a) = true)
    self objs frame) as Hthreat.
  cbv zeta in *. rewrite <- Ht in Hr.
  set (r := snd (analyze_collision_risk cfg sqrt self objs frame)) in *.
  assert (Hlow' : Forall (fun a => is_threat (ta_assessment a) = true -> score_of a < 60 ->
                                   type_of a = same_lane) (threatening_objects r)).
  { apply Hlow. intros history v li h w. rewrite analyze_vehicle_threat_assessment.
    apply low_score_is_same_lane. }
  assert (Htype' : Forall (fun a => is_threat (ta_assessment a) = true -> type_of a <> none)
                     (threatening_objects r)).
  { apply Htype. intros history v li h w Hth.
    destruct (analysis_cases cfg sqrt history v li h w) as [(H1 & _)|(_ & H2 & _)];
      [congruence|exact H2]. }
  clear Hlow Htype.
  destruct Hcase as [(Hnil & H0 & Hnone)|(Hne & Hrange & Hlevel)].
  - rewrite Hr, Hnil, Hnone. cbn. repeat split; auto; intros; discriminate.
  - destruct (threatening_objects r) as [|a thr] eqn:E; [congruence|].
    assert (Ha : a ∈ a :: thr) by apply list_elem_of_here.
    assert (Hat : type_of a <> none).
    { rewrite Forall_forall in Htype'. apply (Htype' a Ha).
      destruct (analyze_collision_risk_result cfg sqrt self objs frame) as (_ & _ & Hf & _).
      fold r in Hf. rewrite E in Hf.
      assert (Hin : a ∈ List.filter (fun a => is_threat (ta_assessment a))
                (analyses cfg sqrt (vehicle_history self)
                   (snd (LaneDetector.detect_lanes (ego_lane_history self) frame))
                   (LaneDetector.shape_height frame) (LaneDetector.shape_width frame)
                   (vehicles_of objs))) by (rewrite <- Hf; exact Ha).
      apply elem_of_List_filter in Hin. apply Hin. }
    assert (Hath : is_threat (ta_assessment a) = true).
    { destruct (analyze_collision_risk_result cfg sqrt self objs frame) as (_ & _ & Hf & _).
      fold r in Hf. rewrite E in Hf.
      assert (Hin : a ∈ List.filter (fun a => is_threat (ta_assessment a))
                (analyses cfg sqrt (vehicle_history self)
                   (snd (LaneDetector.detect_lanes (ego_lane_history self) frame))
                   (LaneDetector.shape_height frame) (LaneDetector.shape_width frame)
                   (vehicles_of objs))) by (rewrite <- Hf; exact Ha).
      apply elem_of_List_filter in Hin. apply Hin. }
    assert (Hsome : has_type same_lane (a :: thr) = true \/
                    has_type oncoming (a :: thr) = true \/
                    has_type lane_change (a :: thr) = true).
    { destruct (type_of a) eqn:Et; [left|right; left|right; right|congruence];
        eapply existsb_type_of; eauto. }
    split; [|split].
    + split; [|discriminate]. intros Hrec. exfalso. rewrite Hr in Hrec.
      unfold _generate_intelligent_recommendations in Hrec.
      destruct Hlevel as [Hlv|[Hlv|Hlv]]; rewrite Hlv in Hrec.
      * assert (Hsl : has_type same_lane (a :: thr) = true).
        { eapply existsb_type_of; [exact Ha|].
          rewrite Forall_forall in Hlow'. apply (Hlow' a Ha Hath).
          rewrite Forall_forall in Hupper. specialize (Hupper a Ha).
          rewrite Hl in Hlv. unfold risk_level_of_score in Hlv.
          repeat match type of Hlv with
                 | context [Z.leb ?x ?y] => destruct (Z.leb_spec x y)
                 end; try discriminate; lia. }
        rewrite Hsl in Hrec. discriminate.
      * destruct Hsome as [Hh|[Hh|Hh]]; rewrite Hh in Hrec;
          repeat match type of Hrec with
                 | context [if ?b then _ else _] => destruct b
                 end; discriminate.
      * discriminate.
    + intros Hlv. rewrite Hr, Hlv. reflexivity.
    + intros Hlv. rewrite Hr, Hlv.
      assert (Hsl : has_type same_lane (a :: thr) = true).
      { eapply existsb_type_of; [exact Ha|].
        rewrite Forall_forall in Hlow'. apply (Hlow' a Ha Hath).
        rewrite Forall_forall in Hupper. specialize (Hupper a Ha).
        rewrite Hl in Hlv. unfold risk_level_of_score in Hlv.
        repeat match type of Hlv with
               | context [Z.leb ?x ?y] => destruct (Z.leb_spec x y)
               end; try discriminate; lia. }
      unfold _generate_intelligent_recommendations. rewrite Hsl.
      apply list_elem_of_here.
Qed.

End FrameProperties.

(** ** The position history as a window *)

Section HistoryWindow.

Import CollisionPredictor.

Variable cfg : Config.
Variable sqrt : Q -> Q.

Lemma last_n_short {A : Type} (n : nat) (l : list A) :
  (length l <= n)%nat -> last_n n l = l.
Proof. intros H. unfold last_n. replace (length l - n)%nat with 0%nat by lia. reflexivity. Qed.

Lemma last_n_length {A : Type} (n : nat) (l : list A) :
  (length (last_n n l) <= n)%nat.
Proof. unfold last_n. rewrite length_drop. lia. Qed.

(** Appending to the last [n] elements and keeping the last [n] again is
    keeping the last [n] after appending. *)
Lemma last_n_app_last_n {A : Type} (n : nat) (l l' : list A) :
  last_n n (last_n n l ++ l') = last_n n (l ++ l').
Proof.
  unfold last_n. rewrite !length_app, length_drop.
  destruct (Nat.le_gt_cases (length l) n) as [Hle|Hgt].
  - replace (length l - n)%nat with 0%nat by lia. cbn [drop].
    f_equal. lia.
  - replace (length l - (length l - n) + length l' - n)%nat with (length l')%nat by lia.
    replace (length l + length l' - n)%nat with ((length l - n) + length l')%nat by lia.
    rewrite <- drop_drop. rewrite (drop_app_le l l' (length l - n)) by lia. reflexivity.
Qed.

Lemma cap_history_last_n {A : Type} (n : nat) (l : list A) :
  (length l <= S n)%nat -> LaneDetector.cap_history n l = last_n n l.
Proof.
  intros H. unfold LaneDetector.cap_history, last_n.
  destruct (Nat.ltb n (length l)) eqn:E.
  - apply Nat.ltb_lt in E. replace (length l - n)%nat with 1%nat by lia.
    destruct l; reflexivity.
  - apply Nat.ltb_ge in E. replace (length l - n)%nat with 0%nat by lia. reflexivity.
Qed.

(** The entry that [record_position] writes and the entries it leaves. *)
Lemma record_position_lookup (history : gmap Z (list (Q * Q))) v tid k :
  record_position history v tid !! k =
  if decide (k = tid)
  then Some (LaneDetector.cap_history max_history_frames
               (default [] (history !! tid) ++ [center_of v]))
  else history !! k.
Proof.
  unfold record_position. fold (center_of v).
  destruct (decide (k = tid)) as [->|Hne].
  - rewrite lookup_insert_eq. destruct (history !! tid) eqn:E.
    + rewrite E. reflexivity.
    + rewrite lookup_insert_eq. reflexivity.
  - rewrite lookup_insert_ne by auto. destruct (history !! tid) eqn:E; [reflexivity|].
    rewrite lookup_insert_ne by auto. reflexivity.
Qed.

Lemma fold_record_position li h w vs st tid :
  bounded_entries (ls_history st) ->
  ls_history (fold_left (assess_vehicle cfg sqrt li h w) vs st) !! tid =
  window_after (ls_history st !! tid) (centers_of tid vs).
Proof.
  revert st. induction vs as [|v vs IH]; intros st Hb; [reflexivity|].
  cbn [fold_left]. rewrite IH by (rewrite assess_vehicle_history; apply record_position_bounded, Hb).
  rewrite assess_vehicle_history, record_position_lookup.
  unfold centers_of. cbn [List.filter]. rewrite (Z.eqb_sym (track_id v) tid).
  destruct (decide (tid = track_id v)) as [->|Hne].
  - rewrite Z.eqb_refl. cbn [map].
    fold (centers_of (track_id v) vs).
    assert (Hlen : (length (default [] (ls_history st !! track_id v)) <= max_history_frames)%nat).
    { destruct (ls_history st !! track_id v) eqn:E; cbn; [exact (Hb _ _ E)|lia]. }
    rewrite cap_history_last_n by (rewrite length_app; cbn; lia).
    unfold window_after at 2. cbn [app].
    destruct (centers_of (track_id v) vs) as [|c cs] eqn:Ec.
    + reflexivity.
    + cbn [window_after default]. f_equal. unfold id.
      rewrite last_n_app_last_n, <- app_assoc. reflexivity.
  - assert ((tid =? track_id v) = false) as -> by (apply Z.eqb_neq; exact Hne). reflexivity.
Qed.

Lemma centers_of_app tid l1 l2 : centers_of tid (l1 ++ l2) = centers_of tid l1 ++ centers_of tid l2.
Proof. unfold centers_of. rewrite List.filter_app, map_app. reflexivity. Qed.

Lemma window_after_app old cs1 cs2 :
  (length (default [] old) <= max_history_frames)%nat ->
  window_after (window_after old cs1) cs2 = window_after old (cs1 ++ cs2).
Proof.
  intros Hb. destruct cs1 as [|c1 cs1]; [reflexivity|].
  destruct cs2 as [|c2 cs2].
  - rewrite app_nil_r. reflexivity.
  - cbn [window_after default app]. f_equal. unfold id.
    rewrite last_n_app_last_n, <- app_assoc. reflexivity.
Qed.

Lemma run_window self calls tid :
  bounded_entries (vehicle_history self) ->
  vehicle_history (fst (run cfg sqrt self calls)) !! tid =
  window_after (vehicle_history self !! tid) (centers_of tid (assessed_vehicles calls)).
Proof.
  revert self. induction calls as [|[objs frame] calls IH]; intros self Hb; [reflexivity|].
  cbn [run].
  destruct (analyze_collision_risk_fields cfg sqrt self objs frame)
    as (_ & _ & _ & _ & _ & _ & _ & _ & Hh).
  destruct (analyze_collision_risk_history cfg sqrt self objs frame) as [_ Hb'].
  destruct (analyze_collision_risk cfg sqrt self objs frame) as [self' r].
  specialize (IH self'). destruct (run cfg sqrt self' calls) as [final rs].
  cbn [fst] in *. rewrite IH by auto.
  unfold assessed_vehicles. cbn [map concat fst]. rewrite centers_of_app.
  rewrite Hh, fold_record_position by exact Hb.
  cbn [loop_start ls_history]. apply window_after_app.
  destruct (vehicle_history self !! tid) eqn:E; cbn; [exact (Hb _ _ E)|lia].
Qed.

(** X8: after any sequence of calls on a fresh analyzer, the entry of
    the position history for an identity is the list of the last 10 box
    centres of the vehicles assessed under that identity, oldest first, and
    there is no entry for an identity under which no vehicle was assessed. *)
Theorem vehicle_history_is_last_ten_centres calls tid :
  vehicle_history (fst (run cfg sqrt Predictor_init calls)) !! tid =
  match centers_of tid (assessed_vehicles calls) with
  | [] => None
  | centres => Some (last_n 10 centres)
  end.
Proof.
  rewrite run_window.
  - cbn [Predictor_init vehicle_history]. rewrite lookup_empty.
    destruct (centers_of tid (assessed_vehicles calls)); reflexivity.
  - intros k l Hk. cbn in Hk. rewrite lookup_empty in Hk. discriminate.
Qed.

End HistoryWindow.

(** ** Movement, lane changes and ignored objects *)

Section MovementFacts.

Import CollisionPredictor.

Variable cfg : Config.
Variable sqrt : Q -> Q.

Lemma movement_of_short_window (positions : list (Q * Q)) :
  (length positions < 3)%nat -> movement_of_positions sqrt positions = movement_default.
Proof.
  intros H. unfold movement_of_positions.
  assert (Nat.leb 3 (length positions) = false) as -> by (apply Nat.leb_gt; exact H).
  reflexivity.
Qed.

(** Without a lane change of its own and without approaching, a vehicle can
    only be a same-lane threat. *)
Lemma classify_default_movement vl li d :
  let a := classify_threat cfg vl li movement_default d in
  (a = mkAssessment false none 0) \/
  (is_threat a = true /\ threat_type a = same_lane /\
   (threat_score a = 50 \/ threat_score a = 70 \/ threat_score a = 90)).
Proof.
  cbv zeta. unfold classify_threat, movement_default.
  cbn [is_approaching is_changing_lanes negb orb andb].
  rewrite !andb_false_r.
  repeat case_match; cbn; auto 10.
  exfalso.
  match goal with
  | H1 : (Z.abs _ =? 1) = false, H3 : (vl =? target_lane li) = true |- _ =>
      apply Z.eqb_eq in H3; apply Z.eqb_neq in H1; apply H1; rewrite H3;
      apply target_lane_adjacent
  end.
Qed.

(** X9: a vehicle seen for the first or the second time under its
    identity (fewer than two recorded positions before the call) has the
    default movement (direction unknown, speed 0, not approaching, not
    changing lanes) and an infinite time-to-collision; it can only be a
    same-lane threat, with a score of exactly 50, 70 or 90, or no threat with
    score 0. *)
Theorem early_observations_only_same_lane history v li h w :
  (length (default [] (history !! track_id v)) < 2)%nat ->
  let ta := snd (_analyze_vehicle_threat cfg sqrt history v li h w) in
  ta_movement ta = movement_default /\
  ta_ttc ta = PInf /\
  ((ta_assessment ta = mkAssessment false none 0) \/
   (is_threat (ta_assessment ta) = true /\ type_of ta = same_lane /\
    (score_of ta = 50 \/ score_of ta = 70 \/ score_of ta = 90))).
Proof.
  intros Hlen. cbv zeta.
  assert (Hm : snd (_analyze_vehicle_movement sqrt history v (track_id v)) = movement_default).
  { unfold _analyze_vehicle_movement. cbn [snd].
    rewrite record_position_lookup, decide_True by reflexivity.
    set (old := default [] (history !! track_id v)) in *.
    match goal with
    | |- context [default [] (Some ?a)] => change (default [] (Some a)) with a
    end.
    unfold LaneDetector.cap_history, max_history_frames.
    assert (Hl : length (old ++ [center_of v]) = S (length old))
      by (rewrite length_app; cbn [length]; lia).
    assert (Nat.ltb 10 (length (old ++ [center_of v])) = false)
      as -> by (apply Nat.ltb_ge; lia).
    apply movement_of_short_window. lia. }
  assert (Hmov : ta_movement (snd (_analyze_vehicle_threat cfg sqrt history v li h w))
                 = snd (_analyze_vehicle_movement sqrt history v (track_id v))) by reflexivity.
  assert (Httc : ta_ttc (snd (_analyze_vehicle_threat cfg sqrt history v li h w))
                 = _calculate_intelligent_ttc v (_estimate_distance_fast cfg v h)
                     (snd (_analyze_vehicle_movement sqrt history v (track_id v))))
    by reflexivity.
  unfold type_of, score_of.
  rewrite Hmov, Httc, analyze_vehicle_threat_assessment, Hm.
  split; [reflexivity|]. split; [reflexivity|].
  change (_calculate_intelligent_ttc v (_estimate_distance_fast cfg v h) movement_default)
    with PInf.
  unfold _assess_actual_threat. rewrite adjust_for_ttc_inf.
  apply classify_default_movement.
Qed.

(** *** Lane changes of ego *)

Lemma cap_history_Forall {A : Type} (P : A -> Prop) n (l : list A) :
  Forall P l -> Forall P (LaneDetector.cap_history n l).
Proof.
  unfold LaneDetector.cap_history. intros H. destruct (Nat.ltb n (length l)); [|exact H].
  destruct H; [constructor|assumption].
Qed.

(** With every recorded ego position equal to the centre of the current
    frame, the detector records the centre again and reports no lane
    change. *)
Lemma detect_lanes_constant_width hist frame :
  Forall (fun x => x = LaneDetector.shape_width frame / 2) hist ->
  Forall (fun x => x = LaneDetector.shape_width frame / 2)
    (fst (LaneDetector.detect_lanes hist frame)) /\
  LaneDetector.lane_change_detected (snd (LaneDetector.detect_lanes hist frame)) = false.
Proof.
  intros Hh.
  assert (Hw : exists li0,
             LaneDetector.lane_change_detected li0 = false /\
             LaneDetector.frame_width li0 = LaneDetector.shape_width frame /\
             LaneDetector.detect_lanes hist frame = LaneDetector._detect_ego_position hist li0).
  { unfold LaneDetector.detect_lanes. destruct (LaneDetector.hough_lines frame) as [lines|].
    - eexists. split; [|split; [|reflexivity]].
      + rewrite process_lane_lines_change. reflexivity.
      + unfold LaneDetector._process_lane_lines. repeat case_match; reflexivity.
    - eexists. split; [|split; [|reflexivity]]; reflexivity. }
  destruct Hw as (li0 & Hc & Hfw & ->).
  unfold LaneDetector._detect_ego_position.
  destruct (LaneDetector.lane_boundaries li0) eqn:Eb; [cbn; auto|].
  rewrite Hfw.
  set (history := LaneDetector.cap_history 10 (hist ++ [LaneDetector.shape_width frame / 2])).
  assert (Hall : Forall (fun x => x = LaneDetector.shape_width frame / 2) history).
  { apply cap_history_Forall, Forall_app. split; [exact Hh|]. constructor; [reflexivity|constructor]. }
  assert (Hfrom : forall k x, LaneDetector.from_end history k = Some x ->
                              x = LaneDetector.shape_width frame / 2).
  { intros k x Hk. unfold LaneDetector.from_end in Hk.
    rewrite Forall_forall in Hall. apply Hall. eapply list_elem_of_lookup_2, Hk. }
  destruct (Nat.leb 5 (length history)); [|cbn; auto].
  destruct (LaneDetector.from_end history 1) as [a|] eqn:E1; [|cbn; auto].
  destruct (LaneDetector.from_end history 5) as [b|] eqn:E5; [|cbn; auto].
  rewrite (Hfrom _ _ E1), (Hfrom _ _ E5), Z.sub_diag. cbn. auto.
Qed.

Lemma no_lane_change_no_oncoming vl li mv d ttc :
  LaneDetector.lane_change_detected li = false ->
  threat_type (_assess_actual_threat cfg vl li mv d ttc) <> oncoming.
Proof.
  intros Hc. unfold _assess_actual_threat. rewrite adjust_for_ttc_threat_type.
  unfold classify_threat. rewrite Hc. cbn [andb].
  repeat case_match; cbn; discriminate.
Qed.

Lemma count_type_oncoming_zero (l : list ThreatAnalysis) :
  Forall (fun a => type_of a <> oncoming) l -> count_type oncoming l = 0.
Proof.
  unfold count_type. induction 1 as [|a l Ha _ IHl]; [reflexivity|].
  cbn [List.filter]. destruct (type_of a); cbn [ThreatType_eqb]; congruence.
Qed.

(** Frames of one width. *)
Lemma run_constant_width calls width self :
  Forall (fun call => LaneDetector.shape_width (snd call) = width) calls ->
  Forall (fun x => x = width / 2) (ego_lane_history self) ->
  Forall (fun r => oncoming_threats r = 0 /\
                   Forall (fun a => type_of a <> oncoming) (threatening_objects r) /\
                   forall li, lane_info r = Some li ->
                              LaneDetector.lane_change_detected li = false)
    (snd (run cfg sqrt self calls)).
Proof.
  intros Hcalls. revert self.
  induction Hcalls as [|[objs frame] calls Hw _ IH]; intros self Hh; [constructor|].
  cbn [snd] in Hw. subst width. cbn [run].
  destruct (detect_lanes_constant_width (ego_lane_history self) frame Hh) as [Hh' Hc].
  pose proof (threat_counters_count cfg sqrt self objs frame) as (_ & Hon & _).
  pose proof (analyze_collision_risk_result cfg sqrt self objs frame) as (_ & _ & Ht & _).
  cbv zeta in Hon, Ht.
  assert (Hego : Forall (fun x => x = LaneDetector.shape_width frame / 2)
                   (ego_lane_history (fst (analyze_collision_risk cfg sqrt self objs frame)))).
  { unfold analyze_collision_risk. destruct objs as [|o objs]; [exact Hh|].
    destruct (LaneDetector.detect_lanes (ego_lane_history self) frame) as [eh li].
    cbn [fst] in Hh'. destruct (vehicles_of (o :: objs)); exact Hh'. }
  assert (Hli : forall li,
             lane_info (snd (analyze_collision_risk cfg sqrt self objs frame)) = Some li ->
             LaneDetector.lane_change_detected li = false).
  { unfold analyze_collision_risk. destruct objs as [|o objs]; [discriminate|].
    destruct (LaneDetector.detect_lanes (ego_lane_history self) frame) as [eh li].
    cbn [snd] in Hc. destruct (vehicles_of (o :: objs)); cbn; intros li' [= <-]; exact Hc. }
  assert (Hno : Forall (fun a => type_of a <> oncoming)
                  (threatening_objects (snd (analyze_collision_risk cfg sqrt self objs frame)))).
  { rewrite Ht. apply Forall_forall. intros a Ha. apply elem_of_List_filter in Ha.
    destruct Ha as [Ha _]. revert a Ha. apply Forall_forall.
    apply (analyses_Forall cfg sqrt). intros history v. unfold type_of.
    rewrite analyze_vehicle_threat_assessment. apply no_lane_change_no_oncoming, Hc. }
  destruct (analyze_collision_risk cfg sqrt self objs frame) as [self' r].
  cbn [fst snd] in *. specialize (IH self' Hego).
  destruct (run cfg sqrt self' calls) as [final rs]. cbn [snd] in *.
  constructor; [|exact IH].
  split; [|split; [exact Hno|exact Hli]].
  rewrite Hon. apply count_type_oncoming_zero, Hno.
Qed.

(** X10: ego's position is taken to be the centre of the frame, so on a
    video whose frames all have the same width the lane detector never
    reports a lane change of ego, and a fresh analyzer never reports an
    oncoming threat: in every result the oncoming counter is 0 and no
    threatening object has type [oncoming]. *)
Theorem constant_width_never_oncoming calls width :
  Forall (fun call => LaneDetector.shape_width (snd call) = width) calls ->
  Forall (fun r => oncoming_threats r = 0 /\
                   Forall (fun a => type_of a <> oncoming) (threatening_objects r) /\
                   forall li, lane_info r = Some li ->
                              LaneDetector.lane_change_detected li = false)
    (snd (run cfg sqrt Predictor_init calls)).
Proof.
  intros Hcalls. apply (run_constant_width calls width Predictor_init Hcalls). constructor.
Qed.

(** *** Objects that are no vehicles *)

Lemma vehicles_of_idempotent objs : vehicles_of (vehicles_of objs) = vehicles_of objs.
Proof.
  unfold vehicles_of. induction objs as [|o objs IH]; [reflexivity|].
  destruct (decide (is_vehicle_class (class_name o) = true)) as [Ho|Ho].
  - do 2 (rewrite filter_cons_True by exact Ho). rewrite IH. reflexivity.
  - rewrite filter_cons_False by exact Ho. exact IH.
Qed.

(** X11: objects that are no vehicles do not influence the analysis: as
    long as the frame holds a vehicle, the call leaves the analyzer in the
    same state and returns the same result, up to [total_objects], as the call
    on the frame's vehicles alone. *)
Theorem non_vehicles_are_ignored self objs frame :
  vehicles_of objs <> [] ->
  let full := analyze_collision_risk cfg sqrt self objs frame in
  let only := analyze_collision_risk cfg sqrt self (vehicles_of objs) frame in
  fst full = fst only /\
  risk_level (snd full) = risk_level (snd only) /\
  res_threat_score (snd full) = res_threat_score (snd only) /\
  primary_threat (snd full) = primary_threat (snd only) /\
  threatening_objects (snd full) = threatening_objects (snd only) /\
  recommendations (snd full) = recommendations (snd only) /\
  lane_info (snd full) = lane_info (snd only) /\
  same_lane_threats (snd full) = same_lane_threats (snd only) /\
  oncoming_threats (snd full) = oncoming_threats (snd only) /\
  lane_change_threats (snd full) = lane_change_threats (snd only) /\
  total_objects (snd full) = length objs /\
  total_objects (snd only) = length (vehicles_of objs).
Proof.
  intros Hne. cbv zeta. unfold analyze_collision_risk.
  destruct objs as [|o objs]; [contradiction|].
  pose proof (vehicles_of_idempotent (o :: objs)) as Hi.
  destruct (vehicles_of (o :: objs)) as [|v vs] eqn:Hv; [contradiction|].
  rewrite Hi.
  destruct (LaneDetector.detect_lanes (ego_lane_history self) frame) as [eh li].
  cbn. repeat split; reflexivity.
Qed.

End MovementFacts.

(** Three frames of width 640, the first and the last with lane markings. *)
Lemma constant_width_never_oncoming_witness :
  Forall (fun r => CollisionPredictor.oncoming_threats r = 0)
    (snd (CollisionPredictor.run example_config approx_sqrt CollisionPredictor.Predictor_init
            [([car 4 (mkBBox 40 200 100 300)], lane_frame);
             ([car 4 (mkBBox 40 210 100 320)], plain_frame);
             ([car 4 (mkBBox 40 230 100 350)], lane_frame)])).
Proof.
  eapply Forall_impl.
  - apply (constant_width_never_oncoming example_config approx_sqrt _ 640).
    repeat constructor.
  - cbn beta. intros r Hr. apply Hr.
Defined.

(** A frame with a car and a pedestrian. *)
Lemma non_vehicles_are_ignored_witness :
  CollisionPredictor.threatening_objects
    (snd (CollisionPredictor.analyze_collision_risk example_config approx_sqrt
            CollisionPredictor.Predictor_init [pedestrian; car_at_8m] plain_frame))
  = CollisionPredictor.threatening_objects
      (snd (CollisionPredictor.analyze_collision_risk example_config approx_sqrt
              CollisionPredictor.Predictor_init [car_at_8m] plain_frame)).
Proof.
  assert (H : CollisionPredictor.vehicles_of [pedestrian; car_at_8m] <> []) by discriminate.
  destruct (non_vehicles_are_ignored example_config approx_sqrt
              CollisionPredictor.Predictor_init [pedestrian; car_at_8m] plain_frame H)
    as (_ & _ & _ & _ & Ht & _).
  exact Ht.
Defined.

(** A car seen for the first time. *)
Lemma early_observations_only_same_lane_witness :
  CollisionPredictor.ta_ttc
    (snd (CollisionPredictor._analyze_vehicle_threat example_config approx_sqrt ∅ car_at_8m
            lane_info_changing_right 480 640)) = PInf.
Proof.
  assert (H : (length (default [] ((∅ : gmap Z (list (Q * Q)))
                                   !! CollisionPredictor.track_id car_at_8m)) < 2)%nat)
    by (rewrite lookup_empty; cbn; lia).
  destruct (early_observations_only_same_lane example_config approx_sqrt ∅ car_at_8m
              lane_info_changing_right 480 640 H) as (_ & Ht & _).
  exact Ht.
Defined.

(** ** The lane detector: what a detected lane looks like *)

Section LaneGeometry.

Import LaneDetector.

(** The two lists that [split_lines] returns hold lines to the left,
    respectively not to the left, of the centre. *)
Lemma split_lines_sides center_x lines ls rs ls' rs' :
  Forall (fun l => (line_center_x l < inject_Z center_x)%Q) ls ->
  Forall (fun l => (inject_Z center_x <= line_center_x l)%Q) rs ->
  split_lines center_x lines ls rs = (ls', rs') ->
  Forall (fun l => (line_center_x l < inject_Z center_x)%Q) ls' /\
  Forall (fun l => (inject_Z center_x <= line_center_x l)%Q) rs'.
Proof.
  revert ls rs. induction lines as [|line lines IH]; intros ls rs Hl Hr; cbn [split_lines].
  - intros [= <- <-]. auto.
  - destruct (lx2 line - lx1 line =? 0); [apply IH; assumption|].
    destruct (Qltb _ (3 # 10) || Qltb 3 _)%bool; [apply IH; assumption|].
    destruct (Qltb (line_center_x line) (inject_Z center_x)) eqn:E.
    + apply IH; [|assumption]. apply Forall_app. split; [assumption|].
      constructor; [apply Qltb_lt, E|constructor].
    + apply IH; [assumption|]. apply Forall_app. split; [assumption|].
      constructor; [apply Qltb_ge, E|constructor].
Qed.

Lemma max_by_elem key best ls : max_by key best ls ∈ best :: ls.
Proof.
  revert best. induction ls as [|l ls IH]; intros best; cbn [max_by].
  - apply list_elem_of_here.
  - specialize (IH (if Qltb (key best) (key l) then l else best)).
    apply elem_of_cons in IH. destruct IH as [->|IH].
    + destruct (Qltb (key best) (key l));
        [apply list_elem_of_further, list_elem_of_here|apply list_elem_of_here].
    + do 2 apply list_elem_of_further. exact IH.
Qed.

Lemma min_by_elem key best ls : min_by key best ls ∈ best :: ls.
Proof.
  revert best. induction ls as [|l ls IH]; intros best; cbn [min_by].
  - apply list_elem_of_here.
  - specialize (IH (if Qltb (key l) (key best) then l else best)).
    apply elem_of_cons in IH. destruct IH as [->|IH].
    + destruct (Qltb (key l) (key best));
        [apply list_elem_of_further, list_elem_of_here|apply list_elem_of_here].
    + do 2 apply list_elem_of_further. exact IH.
Qed.

(** The lane information before ego is located: no lane change, ego lane
    0, the frame's width, and no boundary pair or one whose left line is left
    of the centre and whose right line is not. *)
Lemma process_lane_lines_shape lines w h :
  let li := _process_lane_lines lines
              (mkLaneInfo 0 [] false DirNone w h) in
  ego_lane_id li = 0 /\ lane_change_detected li = false /\
  lane_change_direction li = DirNone /\ frame_width li = w /\
  (lane_boundaries li = [] \/
   exists l r, lane_boundaries li = [(l, r)] /\
     (mean_x l < inject_Z (w / 2))%Q /\ (inject_Z (w / 2) <= mean_x r)%Q).
Proof.
  cbv zeta. unfold _process_lane_lines. destruct lines as [|l0 lines]; [cbn; auto 10|].
  cbn [frame_width].
  destruct (split_lines (w / 2) (l0 :: lines) [] []) as [ls rs] eqn:Es.
  destruct (split_lines_sides _ _ _ _ _ _ (Forall_nil_2 _) (Forall_nil_2 _) Es) as [Hl Hr].
  destruct ls as [|a ls]; [cbn; auto 10|]. destruct rs as [|b rs]; [cbn; auto 10|].
  cbn. repeat split; try reflexivity. right. eexists _, _. split; [reflexivity|].
  split.
  - rewrite Forall_forall in Hl. apply (Hl _ (max_by_elem line_center_x a ls)).
  - rewrite Forall_forall in Hr. apply (Hr _ (min_by_elem line_center_x b rs)).
Qed.

Lemma detect_lanes_shape hist frame :
  exists li0,
    detect_lanes hist frame = _detect_ego_position hist li0 /\
    ego_lane_id li0 = 0 /\ lane_change_detected li0 = false /\
    lane_change_direction li0 = DirNone /\ frame_width li0 = shape_width frame /\
    (lane_boundaries li0 = [] \/
     exists l r, lane_boundaries li0 = [(l, r)] /\
       (mean_x l < inject_Z (shape_width frame / 2))%Q /\
       (inject_Z (shape_width frame / 2) <= mean_x r)%Q).
Proof.
  unfold detect_lanes. destruct (hough_lines frame) as [lines|].
  - eexists. split; [reflexivity|]. apply process_lane_lines_shape.
  - eexists. split; [reflexivity|]. cbn. auto 10.
Qed.

Lemma detect_ego_position_fields hist li :
  let li' := snd (_detect_ego_position hist li) in
  lane_boundaries li' = lane_boundaries li /\
  frame_width li' = frame_width li /\
  (ego_lane_id li' = ego_lane_id li \/
   find_lane (inject_Z (frame_width li / 2)) 0 (lane_boundaries li) = Some (ego_lane_id li')).
Proof.
  cbv zeta. unfold _detect_ego_position.
  destruct (lane_boundaries li) as [|p bs] eqn:Hb; [cbn; auto|].
  match goal with
  | |- context [let '(_, _) := ?e in _] => destruct e as [detected direction]
  end.
  cbn [snd lane_boundaries frame_width ego_lane_id].
  split; [reflexivity|]. split; [reflexivity|].
  destruct (find_lane (inject_Z (frame_width li / 2)) 0 (p :: bs)); auto.
Qed.

(** X12: the lane information that [detect_lanes] returns has at most
    one lane, and ego is always in lane 0; hence [get_vehicle_lane] only ever
    returns -1, 0 or 1. *)
Theorem detect_lanes_single_lane hist frame b :
  let li := snd (detect_lanes hist frame) in
  (length (lane_boundaries li) <= 1)%nat /\
  ego_lane_id li = 0 /\
  frame_width li = shape_width frame /\
  (get_vehicle_lane b li = -1 \/ get_vehicle_lane b li = 0 \/ get_vehicle_lane b li = 1).
Proof.
  cbv zeta.
  destruct (detect_lanes_shape hist frame) as (li0 & -> & He & _ & _ & Hw & Hb).
  destruct (detect_ego_position_fields hist li0) as (Hbs & Hfw & Hego). cbv zeta in *.
  unfold get_vehicle_lane. rewrite Hbs, Hfw, Hw.
  assert (Hfind : forall x i, find_lane x 0 (lane_boundaries li0) = Some i -> i = 0).
  { intros x i. destruct Hb as [Hb|(l & r & Hb & _)]; rewrite Hb; cbn [find_lane];
      [discriminate|]. case_match; congruence. }
  split; [destruct Hb as [Hb|(l & r & Hb & _)]; rewrite Hb; cbn; lia|].
  split; [destruct Hego as [Hego|Hego]; [congruence|apply (Hfind _ _ Hego)]|].
  split; [reflexivity|].
  destruct (lane_boundaries li0) as [|p bs] eqn:Eb; [auto|].
  destruct (find_lane ((bx1 b + bx2 b) / 2) 0 (p :: bs)) as [i|] eqn:Ef.
  - rewrite (Hfind _ _ Ef). auto.
  - case_match; auto.
Qed.

(** X13: the lane-change flag and the lane-change direction of a
    detected lane information agree (the direction is ['none'] exactly when
    no lane change is detected), a lane change is reported only with lane
    boundaries in the frame, and never before the detector has recorded four
    earlier ego positions. *)
Theorem lane_change_flag_and_direction hist frame :
  let li := snd (detect_lanes hist frame) in
  (lane_change_detected li = true <-> lane_change_direction li <> DirNone) /\
  (lane_change_detected li = true -> lane_boundaries li <> []) /\
  (lane_change_detected li = true -> (4 <= length hist)%nat).
Proof.
  cbv zeta.
  destruct (detect_lanes_shape hist frame) as (li0 & -> & _ & Hc & Hd & _ & _).
  unfold _detect_ego_position.
  destruct (lane_boundaries li0) as [|p bs] eqn:Hb.
  - cbn [snd]. rewrite Hc, Hd, Hb. repeat split; congruence.
  - set (history := cap_history 10 (hist ++ [frame_width li0 / 2])).
    assert (Hlen : (length history <= S (length hist))%nat).
    { unfold history, cap_history. destruct (Nat.ltb _ _).
      - destruct hist; cbn [app tail length]; rewrite ?length_app; cbn [length]; lia.
      - rewrite length_app. cbn [length]. lia. }
    destruct (Nat.leb 5 (length history)) eqn:E5.
    + apply Nat.leb_le in E5.
      destruct (from_end history 1) as [a|]; [|cbn; rewrite Hc, Hd; repeat split; congruence].
      destruct (from_end history 5) as [c|]; [|cbn; rewrite Hc, Hd; repeat split; congruence].
      destruct (Z.ltb 30 (Z.abs (a - c))).
      * destruct (Z.ltb 0 (a - c)); cbn; repeat split; (congruence || lia || discriminate).
      * cbn. rewrite Hc, Hd. repeat split; congruence.
    + cbn. rewrite Hc, Hd. repeat split; congruence.
Qed.

(** X14: when a lane is detected, its left boundary lies left of the
    frame centre and its right boundary does not, so the side that
    [get_vehicle_lane] picks for a vehicle outside the lane is the side the
    vehicle is on: the lane is -1 exactly when the centre of the vehicle is
    left of the left boundary, 0 exactly when it is between the boundaries,
    and 1 exactly when it is right of the right boundary. *)
Theorem vehicle_lane_matches_geometry hist frame l r b :
  lane_boundaries (snd (detect_lanes hist frame)) = [(l, r)] ->
  let li := snd (detect_lanes hist frame) in
  let c := ((bx1 b + bx2 b) / 2)%Q in
  (mean_x l < mean_x r)%Q /\
  (get_vehicle_lane b li = -1 <-> (c < mean_x l)%Q) /\
  (get_vehicle_lane b li = 0 <-> (mean_x l <= c <= mean_x r)%Q) /\
  (get_vehicle_lane b li = 1 <-> (mean_x r < c)%Q).
Proof.
  cbv zeta.
  destruct (detect_lanes_shape hist frame) as (li0 & -> & _ & _ & _ & Hw & Hb).
  rewrite detect_ego_position_boundaries. intros Hlr.
  destruct Hb as [Hb|(l' & r' & Hb & Hl & Hr)]; rewrite Hb in Hlr; [discriminate|].
  injection Hlr as -> ->.
  assert (Hfw : frame_width (snd (_detect_ego_position hist li0)) = shape_width frame).
  { unfold _detect_ego_position. rewrite Hb. repeat case_match; cbn; exact Hw. }
  unfold get_vehicle_lane. rewrite detect_ego_position_boundaries, Hb, Hfw.
  cbn [find_lane].
  split; [lra|].
  destruct (Qleb (mean_x l) ((bx1 b + bx2 b) / 2)) eqn:E1;
    [apply Qleb_le in E1|apply Qleb_gt in E1];
    (destruct (Qleb ((bx1 b + bx2 b) / 2) (mean_x r)) eqn:E2;
      [apply Qleb_le in E2|apply Qleb_gt in E2]); cbn [andb];
    try (destruct (Qltb ((bx1 b + bx2 b) / 2) (inject_Z (shape_width frame / 2))) eqn:E3;
      [apply Qltb_lt in E3|apply Qltb_ge in E3]);
    repeat split; intros; try discriminate; try lia; try lra.
Qed.

End LaneGeometry.

(** The lane of [lane_frame]: boundaries at 230 and 410; a car centred at
    70 is in lane -1. *)
Lemma vehicle_lane_matches_geometry_witness :
  LaneDetector.get_vehicle_lane (mkBBox 40 200 100 300)
    (snd (LaneDetector.detect_lanes [] lane_frame)) = -1.
Proof.
  assert (H : LaneDetector.lane_boundaries (snd (LaneDetector.detect_lanes [] lane_frame))
              = [((200, 440, 260, 340), (380, 340, 440, 440))]) by reflexivity.
  destruct (vehicle_lane_matches_geometry [] lane_frame _ _ (mkBBox 40 200 100 300) H)
    as (_ & Hleft & _).
  apply Hleft. vm_compute. reflexivity.
Defined.

(** ** Intersection over union *)

Section IouFacts.

Import KalmanTracker.

Lemma py_max_upper a b : (b <= py_max a b)%Q.
Proof. destruct (py_max_cases a b) as [[-> H]|[-> H]]; lra. Qed.

Lemma py_min_lower_l a b : (py_min a b <= a)%Q.
Proof. destruct (py_min_cases a b) as [[-> H]|[-> H]]; lra. Qed.

Lemma py_min_lower_r a b : (py_min a b <= b)%Q.
Proof. destruct (py_min_cases a b) as [[-> H]|[-> H]]; lra. Qed.

Lemma py_max_comm a b : (py_max a b == py_max b a)%Q.
Proof.
  destruct (py_max_cases a b) as [[-> H]|[-> H]];
    destruct (py_max_cases b a) as [[-> H']|[-> H']]; lra.
Qed.

Lemma py_min_comm a b : (py_min a b == py_min b a)%Q.
Proof.
  destruct (py_min_cases a b) as [[-> H]|[-> H]];
    destruct (py_min_cases b a) as [[-> H']|[-> H']]; lra.
Qed.

Lemma Qmult_le_mono (a b c d : Q) :
  (0 <= a)%Q -> (a <= b)%Q -> (0 <= c)%Q -> (c <= d)%Q -> (a * c <= b * d)%Q.
Proof.
  intros Ha Hab Hc Hcd.
  apply Qle_trans with (b * c)%Q.
  - apply Qmult_le_compat_r; assumption.
  - rewrite !(Qmult_comm b). apply Qmult_le_compat_r; [assumption|lra].
Qed.

(** The value of [_calculate_iou_fast] in terms of the overlap rectangle. *)
Lemma iou_cases bbox1 bbox2 :
  let x1 := py_max (bx1 bbox1) (bx1 bbox2) in
  let y1 := py_max (by1 bbox1) (by1 bbox2) in
  let x2 := py_min (bx2 bbox1) (bx2 bbox2) in
  let y2 := py_min (by2 bbox1) (by2 bbox2) in
  let intersection := ((x2 - x1) * (y2 - y1))%Q in
  let union :=
    ((bx2 bbox1 - bx1 bbox1) * (by2 bbox1 - by1 bbox1)
     + (bx2 bbox2 - bx1 bbox2) * (by2 bbox2 - by1 bbox2) - intersection)%Q in
  (((x2 <= x1)%Q \/ (y2 <= y1)%Q) /\ _calculate_iou_fast bbox1 bbox2 = 0%Q) \/
  ((x1 < x2)%Q /\ (y1 < y2)%Q /\ (0 < intersection)%Q /\ (intersection <= union)%Q /\
   _calculate_iou_fast bbox1 bbox2 = (intersection / union)%Q).
Proof.
  cbv zeta. unfold _calculate_iou_fast.
  set (x1 := py_max (bx1 bbox1) (bx1 bbox2)).
  set (y1 := py_max (by1 bbox1) (by1 bbox2)).
  set (x2 := py_min (bx2 bbox1) (bx2 bbox2)).
  set (y2 := py_min (by2 bbox1) (by2 bbox2)).
  destruct (Qleb x2 x1) eqn:Ex; [left; split; [left; apply Qleb_le, Ex|reflexivity]|].
  destruct (Qleb y2 y1) eqn:Ey; [left; split; [right; apply Qleb_le, Ey|reflexivity]|].
  apply Qleb_gt in Ex, Ey. cbn [orb]. right.
  pose proof (py_max_lower (bx1 bbox1) (bx1 bbox2)) as Hx1.
  pose proof (py_max_lower (by1 bbox1) (by1 bbox2)) as Hy1.
  pose proof (py_min_lower_l (bx2 bbox1) (bx2 bbox2)) as Hx2.
  pose proof (py_min_lower_l (by2 bbox1) (by2 bbox2)) as Hy2.
  pose proof (py_max_upper (bx1 bbox1) (bx1 bbox2)) as Hx1'.
  pose proof (py_max_upper (by1 bbox1) (by1 bbox2)) as Hy1'.
  pose proof (py_min_lower_r (bx2 bbox1) (bx2 bbox2)) as Hx2'.
  pose proof (py_min_lower_r (by2 bbox1) (by2 bbox2)) as Hy2'.
  fold x1 in Hx1, Hx1'. fold y1 in Hy1, Hy1'. fold x2 in Hx2, Hx2'. fold y2 in Hy2, Hy2'.
  assert (Hi : (0 < (x2 - x1) * (y2 - y1))%Q).
  { apply Qmult_lt_0_compat; lra. }
  assert (H1 : ((x2 - x1) * (y2 - y1)
                <= (bx2 bbox1 - bx1 bbox1) * (by2 bbox1 - by1 bbox1))%Q).
  { apply Qmult_le_mono; lra. }
  assert (H2 : ((x2 - x1) * (y2 - y1)
                <= (bx2 bbox2 - bx1 bbox2) * (by2 bbox2 - by1 bbox2))%Q).
  { apply Qmult_le_mono; lra. }
  split; [exact Ex|]. split; [exact Ey|]. split; [exact Hi|]. split; [lra|].
  assert (Qltb 0 ((bx2 bbox1 - bx1 bbox1) * (by2 bbox1 - by1 bbox1)
                  + (bx2 bbox2 - bx1 bbox2) * (by2 bbox2 - by1 bbox2)
                  - (x2 - x1) * (y2 - y1)) = true) as -> by (apply Qltb_lt; lra).
  reflexivity.
Qed.

(** X15: the IoU of any two boxes, well formed or not, lies between 0
    and 1; it is 0 when the boxes do not overlap in a rectangle of positive
    width and height, and positive when they do. *)
Theorem iou_between_0_and_1 bbox1 bbox2 :
  let x1 := py_max (bx1 bbox1) (bx1 bbox2) in
  let y1 := py_max (by1 bbox1) (by1 bbox2) in
  let x2 := py_min (bx2 bbox1) (bx2 bbox2) in
  let y2 := py_min (by2 bbox1) (by2 bbox2) in
  (0 <= _calculate_iou_fast bbox1 bbox2 <= 1)%Q /\
  (((x2 <= x1)%Q \/ (y2 <= y1)%Q) -> _calculate_iou_fast bbox1 bbox2 = 0%Q) /\
  ((x1 < x2)%Q -> (y1 < y2)%Q -> (0 < _calculate_iou_fast bbox1 bbox2)%Q).
Proof.
  cbv zeta.
  destruct (iou_cases bbox1 bbox2) as [[Hd ->]|(Hx & Hy & Hi & Hu & ->)]; cbv zeta in *.
  - split; [lra|]. split; [reflexivity|]. intros; lra.
  - split; [|split].
    + split.
      * apply Qle_shift_div_l; lra.
      * apply Qle_shift_div_r; lra.
    + intros [H|H]; lra.
    + intros _ _. apply Qlt_shift_div_l; lra.
Qed.

(** X16: the IoU is symmetric in its two boxes. *)
Theorem iou_symmetric bbox1 bbox2 :
  (_calculate_iou_fast bbox1 bbox2 == _calculate_iou_fast bbox2 bbox1)%Q.
Proof.
  pose proof (py_max_comm (bx1 bbox1) (bx1 bbox2)) as Cx1.
  pose proof (py_max_comm (by1 bbox1) (by1 bbox2)) as Cy1.
  pose proof (py_min_comm (bx2 bbox1) (bx2 bbox2)) as Cx2.
  pose proof (py_min_comm (by2 bbox1) (by2 bbox2)) as Cy2.
  destruct (iou_cases bbox1 bbox2) as [[Hd ->]|(Hx & Hy & Hi & Hu & ->)];
    destruct (iou_cases bbox2 bbox1) as [[Hd' ->]|(Hx' & Hy' & Hi' & Hu' & ->)];
    cbv zeta in *.
  - reflexivity.
  - exfalso. destruct Hd; lra.
  - exfalso. destruct Hd'; lra.
  - rewrite Cx1, Cy1, Cx2, Cy2.
    apply Qdiv_comp; [reflexivity|]. ring.
Qed.

(** X17: a box of positive width and height has IoU 1 with itself. *)
Theorem iou_with_itself b :
  (bx1 b < bx2 b)%Q -> (by1 b < by2 b)%Q -> (_calculate_iou_fast b b == 1)%Q.
Proof.
  intros Hw Hh.
  assert (Hmax : forall a, py_max a a = a).
  { intros a. unfold py_max. case_match; reflexivity. }
  assert (Hmin : forall a, py_min a a = a).
  { intros a. unfold py_min. case_match; reflexivity. }
  destruct (iou_cases b b) as [[Hd ->]|(Hx & Hy & Hi & Hu & ->)]; cbv zeta in *;
    rewrite ?Hmax, ?Hmin in *.
  - exfalso. destruct Hd; lra.
  - field. intros Hz.
    assert ((bx2 b - bx1 b) * (by2 b - by1 b) == 0)%Q by lra.
    lra.
Qed.

End IouFacts.

(** The box of [example_detection]. *)
Lemma iou_with_itself_witness :
  (KalmanTracker._calculate_iou_fast (mkBBox 100 100 200 200) (mkBBox 100 100 200 200) == 1)%Q.
Proof.
  apply (iou_with_itself (mkBBox 100 100 200 200)); vm_compute; reflexivity.
Defined.

(** ** Association of detections and tracks *)

Section AssociationFacts.

Import KalmanTracker.

Variable linear_sum_assignment : Matrix -> list (nat * nat).

Lemma filter_matches_spec iou_matrix pairs matches :
  filter_matches iou_matrix pairs = Some matches ->
  Forall (fun m => exists row iou, iou_matrix !! fst m = Some row /\ row !! snd m = Some iou /\
                                   (iou_threshold <= iou)%Q) matches.
Proof.
  revert matches. induction pairs as [|[d t] pairs IH]; intros matches; cbn [filter_matches].
  - intros [= <-]. constructor.
  - destruct (iou_matrix !! d) as [row|] eqn:Er; cbn [mbind option_bind]; [|discriminate].
    destruct (row !! t) as [iou|] eqn:Ei; cbn [mbind option_bind]; [|discriminate].
    destruct (filter_matches iou_matrix pairs) as [ms|]; cbn [mbind option_bind];
      [|discriminate].
    specialize (IH ms eq_refl).
    destruct (Qleb iou_threshold iou) eqn:E; intros [= <-]; [|exact IH].
    constructor; [|exact IH]. exists row, iou. cbn. split; [exact Er|].
    split; [exact Ei|apply Qleb_le, E].
Qed.

Lemma map_lookup {A B : Type} (f : A -> B) (l : list A) (i : nat) :
  map f l !! i = f <$> (l !! i).
Proof. apply list_lookup_fmap. Qed.

Lemma elem_of_unmatched (l : list nat) n i :
  i ∈ List.filter (not_in l) (seq 0 n) <-> (i < n)%nat /\ i ∉ l.
Proof.
  rewrite elem_of_List_filter, list_elem_of_In, in_seq. unfold not_in.
  rewrite negb_true_iff, <- not_true_iff_false, existsb_exists.
  split.
  - intros [Hi Hn]. split; [lia|]. intros Hin. apply Hn. exists i.
    split; [apply list_elem_of_In, Hin|apply Nat.eqb_refl].
  - intros [Hi Hn]. split; [lia|]. intros (x & Hx & Hix). apply Nat.eqb_eq in Hix. subst x.
    apply Hn, list_elem_of_In, Hx.
Qed.

(** X18: when [_fast_associate] returns, every match pairs a detection
    and a track that exist and whose boxes have an IoU of at least the
    threshold 0.3, whatever the assignment solver proposed; a detection is
    reported unmatched exactly when it is in no match, and so is a track. *)
Theorem fast_associate_partition detections trackers matches unmatched_dets unmatched_trks :
  _fast_associate linear_sum_assignment detections trackers
    = Some (matches, unmatched_dets, unmatched_trks) ->
  Forall (fun m => exists det_bbox trk_bbox,
            detections !! fst m = Some det_bbox /\ trackers !! snd m = Some trk_bbox /\
            (iou_threshold <= _calculate_iou_fast det_bbox trk_bbox)%Q) matches /\
  (forall d, d ∈ unmatched_dets <-> (d < length detections)%nat /\ d ∉ map fst matches) /\
  (forall t, t ∈ unmatched_trks <-> (t < length trackers)%nat /\ t ∉ map snd matches).
Proof.
  unfold _fast_associate. destruct trackers as [|tb0 trks].
  { intros [= <- <- <-]. split; [constructor|]. split.
    - intros d. rewrite list_elem_of_In, in_seq. cbn. split.
      + intros H. split; [lia|apply not_elem_of_nil].
      + intros [H _]. lia.
    - intros t. cbn. split; [intros H; inversion H|intros [H _]; lia]. }
  set (trackers := tb0 :: trks).
  set (iou_matrix := map (fun db => map (fun tb => _calculate_iou_fast db tb) trackers) detections).
  destruct (Nat.ltb 0 (Nat.min (length detections) (length trackers))) eqn:Emin.
  - destruct (filter_matches iou_matrix _) as [ms|] eqn:Ef; cbn [mbind option_bind];
      [|discriminate].
    intros [= <- <- <-]. split; [|split].
    + apply filter_matches_spec in Ef. eapply Forall_impl; [exact Ef|].
      cbn beta. intros m (row & iou & Hr & Hi & Hthr).
      unfold iou_matrix, Matrix in Hr. rewrite map_lookup in Hr.
      destruct (detections !! fst m) as [db|]; cbn [fmap option_fmap option_map] in Hr;
        [|discriminate].
      assert (Hrow : row = map (fun tb => _calculate_iou_fast db tb) trackers)
        by congruence.
      rewrite Hrow, map_lookup in Hi.
      destruct (trackers !! snd m) as [tb|]; cbn [fmap option_fmap option_map] in Hi;
        [|discriminate].
      injection Hi as <-. exists db, tb. auto.
    + intros d. exact (elem_of_unmatched (map fst ms) (length detections) d).
    + intros t. exact (elem_of_unmatched (map snd ms) (length trackers) t).
  - intros [= <- <- <-]. split; [constructor|].
    apply Nat.ltb_ge in Emin. split.
    + intros d. rewrite list_elem_of_In, in_seq. cbn [map]. split.
      * intros H. split; [lia|apply not_elem_of_nil].
      * intros [H _]. lia.
    + intros t. change (t ∈ seq 0 (length trackers) <->
                        (t < length trackers)%nat /\ t ∉ map snd (@nil (nat * nat))).
      rewrite list_elem_of_In, in_seq. cbn [map]. split.
      * intros H. split; [lia|apply not_elem_of_nil].
      * intros [H _]. lia.
Qed.

End AssociationFacts.

(** One detection against its own box and a distant box. *)
Lemma fast_associate_partition_witness :
  exists matches unmatched_dets unmatched_trks,
    KalmanTracker._fast_associate diagonal_assignment
      [mkBBox 100 100 200 200] [mkBBox 100 100 200 200; mkBBox 400 100 500 200]
      = Some (matches, unmatched_dets, unmatched_trks) /\
    matches = [(0%nat, 0%nat)] /\
    (forall t, t ∈ unmatched_trks <-> (t < 2)%nat /\ t ∉ map snd matches).
Proof.
  eexists _, _, _.
  match goal with
  | |- ?A1 /\ ?A2 /\ _ =>
      assert (H1 : A1) by (vm_compute; reflexivity);
      assert (H2 : A2) by reflexivity
  end.
  destruct (fast_associate_partition diagonal_assignment _ _ _ _ _ H1) as (_ & _ & Ht).
  exact (conj H1 (conj H2 Ht)).
Defined.

(** ** The tracker's lifecycle counters *)

Section TrackerLifecycle.

Import KalmanTracker.

Variable linear_sum_assignment : Matrix -> list (nat * nat).
Variable sqrt : Q -> Q.

Local Abbreviation update := (update linear_sum_assignment sqrt).
Local Abbreviation run := (run linear_sum_assignment sqrt).
Local Abbreviation before_removal := (before_removal linear_sum_assignment).

Implicit Types (t : FastKalmanFilter) (trks : list FastKalmanFilter) (s : Tracker).

Lemma kf_update_fields t b t' :
  kf_update t b = Some t' ->
  bbox t' = b /\ age t' = age t /\ hits t' = hits t + 1 /\ time_since_update t' = 0 /\
  id t' = id t.
Proof.
  unfold kf_update. destruct (inv2 _); cbn [mbind option_bind]; [|discriminate].
  intros [= <-]. split; [reflexivity|]. split; [reflexivity|]. split; [reflexivity|].
  split; reflexivity.
Qed.

Lemma update_matched_Forall (P : FastKalmanFilter -> Prop) detections matches trks trks' :
  (forall t b t', kf_update t b = Some t' -> P t -> P t') ->
  update_matched detections matches trks = Some trks' ->
  Forall P trks -> Forall P trks'.
Proof.
  intros HP. revert trks. induction matches as [|[d i] ms IH]; intros trks;
    cbn [update_matched].
  - intros [= <-]. auto.
  - destruct (trks !! i) as [trk|] eqn:Ht; cbn [mbind option_bind]; [|discriminate].
    destruct (detections !! d) as [det|]; cbn [mbind option_bind]; [|discriminate].
    destruct (kf_update trk (det_bbox det)) as [trk'|] eqn:Hk;
      cbn [mbind option_bind]; [|discriminate].
    intros Hm Hall. apply (IH _ Hm). apply Forall_insert; [exact Hall|].
    eapply HP; [exact Hk|]. eapply Forall_lookup_1; [exact Hall|exact Ht].
Qed.

Lemma create_new_Forall (P : FastKalmanFilter -> Prop) detections unmatched trks next
    trks' next' :
  (forall b i n c, next <= i -> P (FastKalmanFilter_init b i n c)) ->
  create_new detections unmatched trks next = Some (trks', next') ->
  Forall P trks -> Forall P trks'.
Proof.
  revert trks next. induction unmatched as [|d ds IH]; intros trks next HP;
    cbn [create_new].
  - intros [= <- <-]. auto.
  - destruct (detections !! d) as [det|]; cbn [mbind option_bind]; [|discriminate].
    destruct (Qltb (1 # 2) (det_confidence det)).
    + intros Hc Hall. eapply IH; [|exact Hc|].
      * intros b i n c Hi. apply HP. lia.
      * apply Forall_app. split; [exact Hall|]. constructor; [|constructor].
        apply HP. lia.
    + apply IH. exact HP.
Qed.

(** One update keeps the invariant and counts the frame. *)
Lemma update_lifecycle s detections s' out :
  lifecycle_invariant s ->
  update s detections = Some (s', out) ->
  lifecycle_invariant s' /\ frame_count s' = frame_count s + 1.
Proof.
  intros (Hfc & Hnext & Hall) Hu.
  pose proof Hu as Hspec. apply update_spec in Hspec.
  destruct Hspec as (pre & Hb & Htr & _).
  assert (Hcount : frame_count s' = frame_count s + 1).
  { unfold KalmanTracker.update in Hu.
    destruct (KalmanTracker.before_removal linear_sum_assignment s detections)
      as [[pre0 next0]|]; cbn [mbind option_bind] in Hu; [|discriminate].
    injection Hu as <- _. reflexivity. }
  split; [|exact Hcount].
  pose proof (before_removal_spec _ _ _ _ _ Hb) as (_ & _ & _ & _ & Hle & _).
  set (P := fun t => (0 <= time_since_update t <= age t /\ 1 <= hits t) /\
                     age t < frame_count s + 1 /\ 1 <= id t).
  assert (Hpre : Forall P pre).
  { unfold KalmanTracker.before_removal in Hb.
    match type of Hb with context [mbind _ ?m] => destruct m as [[[matches ud] ut]|] end;
      cbn [mbind option_bind] in Hb; [|discriminate].
    destruct (update_matched detections matches (map predict (trackers s))) as [olds|] eqn:Hm;
      cbn [mbind option_bind] in Hb; [|discriminate].
    eapply (create_new_Forall P); [|exact Hb|].
    - intros b i n c Hi. unfold P. cbn. lia.
    - eapply (update_matched_Forall P); [|exact Hm|].
      + intros t b t' Hk HPt. apply kf_update_fields in Hk.
        destruct Hk as (_ & Ha & Hh & Ht & Hi). unfold P in *. lia.
      + apply Forall_fmap. eapply Forall_impl; [exact Hall|].
        intros t (Hc & Ha & Hi). unfold counters_ok in Hc. unfold P. cbn. lia. }
  split; [lia|]. split; [lia|]. rewrite Htr, Hcount.
  apply Forall_forall. intros t Ht. apply elem_of_List_filter in Ht.
  destruct Ht as [Ht Hage]. rewrite Forall_forall in Hpre. specialize (Hpre _ Ht).
  apply Z.leb_le in Hage. unfold P in Hpre. unfold counters_ok. lia.
Qed.

Lemma lifecycle_invariant_init : lifecycle_invariant Tracker_init.
Proof. split; [cbn; lia|]. split; [cbn; lia|]. constructor. Qed.

Lemma run_lifecycle frames s final outs :
  lifecycle_invariant s ->
  run s frames = Some (final, outs) ->
  lifecycle_invariant final /\ frame_count final = frame_count s + Z.of_nat (length frames).
Proof.
  revert s final outs. induction frames as [|dets frames IH]; intros s final outs Hinv;
    cbn [KalmanTracker.run].
  - intros [= <- <-]. split; [exact Hinv|]. cbn. lia.
  - destruct (update s dets) as [[s1 out]|] eqn:Hu; cbn [mbind option_bind]; [|discriminate].
    destruct (run s1 frames) as [[final' outs']|] eqn:Hr; cbn [mbind option_bind];
      [|discriminate].
    intros [= <- <-].
    destruct (update_lifecycle _ _ _ _ Hinv Hu) as [Hinv1 Hc1].
    destruct (IH _ _ _ Hinv1 Hr) as [Hf Hc]. split; [exact Hf|].
    rewrite Hc, Hc1. cbn [length]. lia.
Qed.

(** X19: after any sequence of updates of a fresh tracker, with any
    assignment solver, the frame count is the number of updates and every
    tracker has [0 <= time_since_update <= max_age],
    [time_since_update <= age < frame_count], at least one hit and an
    identity between 1 and [next_id]. *)
Theorem tracker_counters_invariant frames s outs :
  run Tracker_init frames = Some (s, outs) ->
  frame_count s = Z.of_nat (length frames) /\
  Forall (fun t => counters_ok t /\ age t < frame_count s /\ 1 <= id t < next_id s)
         (trackers s).
Proof.
  intros Hr.
  destruct (run_lifecycle _ _ _ _ lifecycle_invariant_init Hr) as [(_ & _ & Hall) Hc].
  destruct (run_ids_fresh _ _ _ _ _ _ ids_fresh_init Hr) as [Hlt _].
  split; [rewrite Hc; cbn; lia|].
  apply Forall_forall. intros t Ht. rewrite Forall_forall in Hall, Hlt.
  specialize (Hall _ Ht). specialize (Hlt _ Ht). cbv beta in Hlt. tauto.
Qed.

(** *** A tracker without tracks *)

Lemma create_new_seq detections pre suf trks next :
  detections = pre ++ suf ->
  create_new detections (seq (length pre) (length suf)) trks next
  = Some (trks ++ spawn next (confident suf),
          next + Z.of_nat (length (spawn next (confident suf)))).
Proof.
  revert pre trks next. induction suf as [|d suf IH]; intros pre trks next Hd.
  - cbn. rewrite app_nil_r, Z.add_0_r. reflexivity.
  - cbn [length seq create_new].
    assert (Hl : detections !! length pre = Some d).
    { rewrite Hd. apply list_lookup_middle. reflexivity. }
    rewrite Hl. cbn [mbind option_bind].
    assert (Hd' : detections = (pre ++ [d]) ++ suf) by (rewrite <- app_assoc; exact Hd).
    assert (Hlen : length (pre ++ [d]) = S (length pre))
      by (rewrite length_app; cbn; lia).
    unfold confident. cbn [List.filter]. fold (confident suf).
    destruct (Qltb (1 # 2) (det_confidence d)).
    + rewrite <- Hlen, (IH _ _ _ Hd'). cbn [spawn length]. rewrite <- app_assoc.
      cbn [app]. f_equal. f_equal. lia.
    + rewrite <- Hlen. apply (IH _ _ _ Hd').
Qed.

Lemma spawn_Forall next detections :
  Forall (fun t => time_since_update t = 0 /\ hits t = 1 /\ age t = 0 /\
                   get_bbox t = bbox t)
         (spawn next detections).
Proof.
  revert next. induction detections as [|d ds IH]; intros next; cbn [spawn]; constructor.
  - split; [reflexivity|]. split; [reflexivity|]. split; reflexivity.
  - apply IH.
Qed.

Lemma filter_all {A : Type} (f : A -> bool) (l : list A) :
  Forall (fun x => f x = true) l -> List.filter f l = l.
Proof.
  induction 1 as [|x l Hx _ IH]; [reflexivity|]. cbn [List.filter]. rewrite Hx, IH.
  reflexivity.
Qed.

Lemma spawn_length next detections : length (spawn next detections) = length detections.
Proof.
  revert next. induction detections as [|d ds IH]; intros next; cbn [spawn length];
    [reflexivity|]. rewrite IH. reflexivity.
Qed.

Lemma spawn_bboxes next detections :
  map out_bbox (map (snapshot sqrt) (spawn next detections)) = map det_bbox detections.
Proof.
  revert next. induction detections as [|d ds IH]; intros next; cbn [spawn map];
    [reflexivity|]. rewrite IH. f_equal.
Qed.

Lemma spawn_identities next detections :
  map out_track_id (map (snapshot sqrt) (spawn next detections))
  = map (fun k => next + Z.of_nat k) (seq 0 (length detections)).
Proof.
  revert next. induction detections as [|d ds IH]; intros next; cbn [spawn map length seq];
    [reflexivity|]. rewrite IH. f_equal.
  - cbn. lia.
  - rewrite <- seq_shift, map_map. apply map_ext. intros k. lia.
Qed.

(** X20: a tracker that holds no track turns the detections with a
    confidence above 0.5, in order, into tracks with the identities
    [next_id], [next_id + 1], ...; it never raises, whatever the assignment
    solver (which is not called), and emits all of them at once, each with
    the box of its detection. *)
Theorem first_detections_become_tracks next fc detections :
  let news := spawn next (confident detections) in
  update {| trackers := []; next_id := next; frame_count := fc |} detections
    = Some ({| trackers := news;
               next_id := next + Z.of_nat (length news);
               frame_count := fc + 1 |},
            map (snapshot sqrt) news) /\
  map out_bbox (map (snapshot sqrt) news) = map det_bbox (confident detections) /\
  map out_track_id (map (snapshot sqrt) news)
    = map (fun k => next + Z.of_nat k) (seq 0 (length (confident detections))).
Proof.
  cbv zeta. split; [|split; [apply spawn_bboxes|apply spawn_identities]].
  unfold KalmanTracker.update, KalmanTracker.before_removal.
  cbn [trackers next_id frame_count map length Nat.ltb Nat.leb andb mbind option_bind
       update_matched].
  pose proof (create_new_seq detections [] detections [] next eq_refl) as Hc.
  cbn [length app] in Hc. rewrite Hc. cbn [mbind option_bind].
  pose proof (spawn_Forall next (confident detections)) as Hs.
  assert (Hr : remove_old (spawn next (confident detections))
               = spawn next (confident detections)).
  { apply filter_all. eapply Forall_impl; [exact Hs|].
    intros t (Ht & _). cbv beta. rewrite Ht. reflexivity. }
  rewrite Hr.
  assert (He : List.filter emitted (spawn next (confident detections))
               = spawn next (confident detections)).
  { apply filter_all. eapply Forall_impl; [exact Hs|].
    intros t (Ht & _). unfold emitted. rewrite Ht. apply orb_true_r. }
  rewrite He. reflexivity.
Qed.

(** *** Frames without detections and confirmed tracks *)

Lemma before_removal_no_detections s :
  before_removal s [] = Some (map predict (trackers s), next_id s).
Proof.
  unfold KalmanTracker.before_removal. cbn [map length]. rewrite andb_false_r.
  reflexivity.
Qed.

(** X21: a frame without detections cannot make a tracker raise that was
    reached from a fresh one: no track is created and [next_id] stays, every
    track is predicted once and those unmatched for more than [max_age]
    frames are removed, every remaining track has been unmatched for at
    least one frame, and only confirmed tracks ([hits >= min_hits]) are
    emitted. *)
Theorem update_without_detections frames s outs0 :
  run Tracker_init frames = Some (s, outs0) ->
  exists s' out,
    update s [] = Some (s', out) /\
    trackers s' = remove_old (map predict (trackers s)) /\
    next_id s' = next_id s /\
    Forall (fun t => 1 <= time_since_update t) (trackers s') /\
    Forall (fun d => min_hits <= out_hits d) out.
Proof.
  intros Hr.
  destruct (run_lifecycle _ _ _ _ lifecycle_invariant_init Hr) as [(_ & _ & Hall) _].
  unfold KalmanTracker.update. rewrite before_removal_no_detections.
  cbn [mbind option_bind]. eexists _, _. split; [reflexivity|].
  cbn [trackers next_id]. split; [reflexivity|]. split; [reflexivity|].
  assert (Hts : Forall (fun t => 1 <= time_since_update t)
                  (remove_old (map predict (trackers s)))).
  { apply Forall_forall. intros t Ht. apply elem_of_List_filter in Ht.
    destruct Ht as [Ht _]. apply list_elem_of_fmap in Ht. destruct Ht as (t0 & -> & Ht0).
    rewrite Forall_forall in Hall. destruct (Hall _ Ht0) as (Hc & _).
    unfold counters_ok in Hc. cbn. lia. }
  split; [exact Hts|].
  apply Forall_fmap, Forall_forall. intros t Ht. apply elem_of_List_filter in Ht.
  destruct Ht as [Ht He]. rewrite Forall_forall in Hts. specialize (Hts _ Ht).
  unfold emitted in He. apply orb_true_iff in He. destruct He as [He|He].
  - apply Z.leb_le in He. exact He.
  - apply Z.eqb_eq in He. lia.
Qed.

(** X22: confirmation is permanent and confirmed tracks coast.  A track
    with [hits >= min_hits] that was matched less than [max_age] frames ago
    is emitted by the next update under its identity, matched or not, with
    at least as many hits. *)
Theorem confirmed_track_stays_emitted s detections s' out t0 :
  update s detections = Some (s', out) ->
  t0 ∈ trackers s ->
  min_hits <= hits t0 ->
  time_since_update t0 < max_age ->
  exists d, d ∈ out /\ out_track_id d = id t0 /\ hits t0 <= out_hits d.
Proof.
  intros Hu Ht0 Hh Hts. apply update_spec in Hu. destruct Hu as (pre & Hb & Htr & ->).
  apply list_elem_of_lookup in Ht0. destruct Ht0 as [i Hi].
  destruct (track_counters_step _ _ _ _ _ _ _ Hb Hi) as (t1 & Hl & Hid & Hcase).
  unfold max_age, min_hits in *.
  exists (snapshot sqrt t1). split; [|split; [exact Hid|cbn [snapshot out_hits]; lia]].
  apply list_elem_of_fmap_2, elem_of_List_filter. split.
  - rewrite Htr. apply elem_of_List_filter. split.
    + eapply list_elem_of_lookup_2, Hl.
    + apply Z.leb_le. unfold max_age. lia.
  - unfold emitted. apply orb_true_iff. left. apply Z.leb_le. unfold min_hits. lia.
Qed.

End TrackerLifecycle.

(** One detection and five frames without any: the track is still held,
    unmatched for five frames. *)
Lemma tracker_counters_invariant_witness :
  exists s outs,
    KalmanTracker.run diagonal_assignment approx_sqrt KalmanTracker.Tracker_init
      frames_until_stale = Some (s, outs) /\
    KalmanTracker.frame_count s = 6 /\
    map KalmanTracker.time_since_update (KalmanTracker.trackers s) = [5] /\
    Forall (fun t => counters_ok t /\ KalmanTracker.age t < KalmanTracker.frame_count s /\
                     1 <= KalmanTracker.id t < KalmanTracker.next_id s)
           (KalmanTracker.trackers s).
Proof.
  eexists _, _.
  match goal with
  | |- ?A1 /\ _ /\ ?A3 /\ _ =>
      assert (H1 : A1) by (vm_compute; reflexivity);
      assert (H3 : A3) by reflexivity
  end.
  destruct (tracker_counters_invariant diagonal_assignment approx_sqrt _ _ _ H1) as [Hc Hall].
  exact (conj H1 (conj Hc (conj H3 Hall))).
Defined.

(** A track created in the frame before: kept, not emitted. *)
Lemma update_without_detections_witness :
  exists s outs0,
    KalmanTracker.run diagonal_assignment approx_sqrt KalmanTracker.Tracker_init
      [[example_detection]] = Some (s, outs0) /\
    exists s' out,
      KalmanTracker.update diagonal_assignment approx_sqrt s [] = Some (s', out) /\
      KalmanTracker.trackers s'
        = KalmanTracker.remove_old (map KalmanTracker.predict (KalmanTracker.trackers s)) /\
      KalmanTracker.next_id s' = KalmanTracker.next_id s /\
      Forall (fun t => 1 <= KalmanTracker.time_since_update t) (KalmanTracker.trackers s') /\
      Forall (fun d => KalmanTracker.min_hits <= KalmanTracker.out_hits d) out.
Proof.
  eexists _, _.
  match goal with
  | |- ?A1 /\ _ => assert (H1 : A1) by (vm_compute; reflexivity)
  end.
  exact (conj H1 (update_without_detections diagonal_assignment approx_sqrt _ _ _ H1)).
Defined.

(** A track detected in two frames is confirmed; in a third frame without
    detections it is emitted all the same. *)
Lemma confirmed_track_stays_emitted_witness :
  exists s outs0 s' out t0,
    KalmanTracker.run diagonal_assignment approx_sqrt KalmanTracker.Tracker_init
      [[example_detection]; [example_detection]] = Some (s, outs0) /\
    KalmanTracker.update diagonal_assignment approx_sqrt s [] = Some (s', out) /\
    t0 ∈ KalmanTracker.trackers s /\
    KalmanTracker.min_hits <= KalmanTracker.hits t0 /\
    KalmanTracker.time_since_update t0 < KalmanTracker.max_age /\
    KalmanTracker.id t0 = 1 /\
    exists d, d ∈ out /\ KalmanTracker.out_track_id d = KalmanTracker.id t0 /\
              KalmanTracker.hits t0 <= KalmanTracker.out_hits d.
Proof.
  eexists _, _, _, _, _.
  match goal with
  | |- ?A1 /\ ?A2 /\ ?A3 /\ ?A4 /\ ?A5 /\ ?A6 /\ _ =>
      assert (H1 : A1) by (vm_compute; reflexivity);
      assert (H2 : A2) by (vm_compute; reflexivity);
      assert (H3 : A3) by (apply list_elem_of_here);
      assert (H4 : A4) by (apply Z.leb_le; vm_compute; reflexivity);
      assert (H5 : A5) by (vm_compute; reflexivity);
      assert (H6 : A6) by reflexivity
  end.
  exact (conj H1 (conj H2 (conj H3 (conj H4 (conj H5 (conj H6
          (confirmed_track_stays_emitted diagonal_assignment approx_sqrt
             _ _ _ _ _ H2 H3 H4 H5))))))).
Defined.

(** ** Tracked objects: distance, failure and history *)

Section TrackedObjectFacts.

Import Tracker.

Variable cfg : Config.
Variable sqrt : Q -> Q.

Lemma clamp_Qeq lo hi x y :
  (x == y)%Q -> (py_max lo (py_min x hi) == py_max lo (py_min y hi))%Q.
Proof.
  intros Hxy. apply Qle_antisym; apply clamp_mono; rewrite Hxy; apply Qle_refl.
Qed.

Lemma estimate_distance_bounds b name :
  (1 # 2 <= _estimate_distance cfg sqrt b name <= 100)%Q.
Proof.
  unfold Tracker._estimate_distance. cbv zeta. apply clamp_bounds. lra.
Qed.

(** X23: the distance estimate of a tracked object lies between 0.5 and
    100 metres for every box, class and configuration; for a box reduced to
    a point, for which no estimate is available, it is the default 50. *)
Theorem tracked_distance_in_range b name x y :
  (1 # 2 <= _estimate_distance cfg sqrt b name <= 100)%Q /\
  _estimate_distance cfg sqrt (mkBBox x y x y) name = 50%Q.
Proof.
  split; [apply estimate_distance_bounds|].
  unfold Tracker._estimate_distance. cbv zeta. cbn [bx1 by1 bx2 by2].
  assert (Hh : Qltb 0 (y - y) = false) by (apply Qltb_ge; lra).
  assert (Hw : Qltb 0 (x - x) = false) by (apply Qltb_ge; lra).
  assert (Ha : Qltb 0 ((y - y) * (x - x)) = false) by (apply Qltb_ge; nra).
  rewrite Hh, Hw, Ha. reflexivity.
Qed.

(** X24: the three estimates are weighted by position among those
    available.  For a box of positive width, the distance is the clamped
    combination 0.5, 0.3, 0.2 of the height-, width- and area-based
    estimates when the height is positive too, and the clamped width-based
    estimate alone when it is not. *)
Theorem estimate_distance_weighting b name :
  let size := default (default default_person (KNOWN_OBJECT_SIZES cfg !! "person"%string))
                (KNOWN_OBJECT_SIZES cfg !! lower name) in
  let focal := CAMERA_FOCAL_LENGTH cfg in
  let h := (by2 b - by1 b)%Q in
  let w := (bx2 b - bx1 b)%Q in
  (0 < w)%Q ->
  (_estimate_distance cfg sqrt b name ==
   py_max (1 # 2)
     (py_min (if Qltb 0 h
              then (1 # 2) * (height size * focal / h) + (3 # 10) * (width size * focal / w)
                   + (2 # 10) * (focal * sqrt (height size * width size / (h * w)))
              else width size * focal / w) 100))%Q.
Proof.
  cbv zeta. intros Hw. unfold Tracker._estimate_distance. cbv zeta.
  pose proof Hw as Hwb. apply Qltb_lt in Hwb. rewrite Hwb.
  destruct (Qltb 0 (by2 b - by1 b)) eqn:Hh.
  - apply Qltb_lt in Hh.
    assert (Ha : Qltb 0 ((by2 b - by1 b) * (bx2 b - bx1 b)) = true).
    { apply Qltb_lt. apply Qmult_lt_0_compat; assumption. }
    rewrite Ha. cbn [app length take zip_with fold_right]. apply clamp_Qeq. field.
    lra.
  - apply Qltb_ge in Hh.
    assert (Ha : Qltb 0 ((by2 b - by1 b) * (bx2 b - bx1 b)) = false).
    { apply Qltb_ge. nra. }
    rewrite Ha. cbn [app length take zip_with fold_right]. apply clamp_Qeq. field.
    lra.
Qed.


Lemma update_position_history self new_box ts self' :
  update_position cfg sqrt self new_box ts = Some self' ->
  age self' = age self + 1 /\
  position_history self' =
    (let history :=
       position_history self
         ++ [(ts, ((bx1 new_box + bx2 new_box) / 2)%Q, ((by1 new_box + by2 new_box) / 2)%Q)] in
     if Z.ltb (TRACK_HISTORY_LENGTH cfg) (Z.of_nat (length history))
     then slice_last (TRACK_HISTORY_LENGTH cfg) history else history).
Proof.
  unfold Tracker.update_position. cbv zeta.
  match goal with
  | |- context [mbind _ ?m] => destruct m as [[rw spd]|]
  end; cbn [mbind option_bind]; [|discriminate].
  intros [= <-]. split; reflexivity.
Qed.

Lemma update_position_history_length self new_box ts self' :
  0 <= TRACK_HISTORY_LENGTH cfg ->
  update_position cfg sqrt self new_box ts = Some self' ->
  length (position_history self') =
    if Z.eqb (TRACK_HISTORY_LENGTH cfg) 0 then S (length (position_history self))
    else Nat.min (S (length (position_history self))) (Z.to_nat (TRACK_HISTORY_LENGTH cfg)).
Proof.
  intros Hm Hu. apply update_position_history in Hu. destruct Hu as [_ ->]. cbv zeta.
  assert (Hlen : length (position_history self
                   ++ [(ts, ((bx1 new_box + bx2 new_box) / 2)%Q,
                        ((by1 new_box + by2 new_box) / 2)%Q)])
                 = S (length (position_history self)))
    by (rewrite length_app; cbn; lia).
  destruct (Z.ltb_spec (TRACK_HISTORY_LENGTH cfg)
              (Z.of_nat (length (position_history self
                   ++ [(ts, ((bx1 new_box + bx2 new_box) / 2)%Q,
                        ((by1 new_box + by2 new_box) / 2)%Q)])))) as [Hlt|Hge].
  - rewrite slice_last_length, Hlen. rewrite Hlen in Hlt.
    destruct (Z.eqb_spec (TRACK_HISTORY_LENGTH cfg) 0) as [E|E].
    + rewrite E. cbn. lia.
    + destruct (Z.ltb_spec 0 (TRACK_HISTORY_LENGTH cfg)); lia.
  - rewrite Hlen. rewrite Hlen in Hge.
    destruct (Z.eqb_spec (TRACK_HISTORY_LENGTH cfg) 0) as [E|E]; lia.
Qed.

(** X26: after [n] position updates of a new tracked object, its age is
    [n] and its position history holds [min (n + 1) TRACK_HISTORY_LENGTH]
    samples when the configured length is positive.  When it is 0 the
    history is never shortened ([history[-0:]] is the whole list) and holds
    all [n + 1] samples. *)
Theorem position_history_length b tid name ts steps final :
  0 <= TRACK_HISTORY_LENGTH cfg ->
  updates cfg sqrt (TrackedObject_init cfg sqrt b tid name ts) steps = Some final ->
  age final = Z.of_nat (length steps) /\
  length (position_history final) =
    if Z.eqb (TRACK_HISTORY_LENGTH cfg) 0 then S (length steps)
    else Nat.min (S (length steps)) (Z.to_nat (TRACK_HISTORY_LENGTH cfg)).
Proof.
  intros Hm.
  assert (Hgen : forall steps self final,
             updates cfg sqrt self steps = Some final ->
             age final = age self + Z.of_nat (length steps) /\
             forall k,
               length (position_history self) =
                 (if Z.eqb (TRACK_HISTORY_LENGTH cfg) 0 then S k
                  else Nat.min (S k) (Z.to_nat (TRACK_HISTORY_LENGTH cfg))) ->
               length (position_history final) =
                 (if Z.eqb (TRACK_HISTORY_LENGTH cfg) 0 then S (k + length steps)
                  else Nat.min (S (k + length steps))
                         (Z.to_nat (TRACK_HISTORY_LENGTH cfg)))).
  { clear steps final. induction steps as [|[nb t1] steps IH]; intros self final;
      cbn [Tracker.updates].
    - intros [= <-]. split; [cbn; lia|]. intros k Hk. rewrite Nat.add_0_r. exact Hk.
    - destruct (update_position cfg sqrt self nb t1) as [self1|] eqn:Hu;
        cbn [mbind option_bind]; [|discriminate].
      intros Hr. destruct (IH _ _ Hr) as [Ha Hl].
      pose proof (update_position_history _ _ _ _ Hu) as [Ha1 _].
      pose proof (update_position_history_length _ _ _ _ Hm Hu) as Hl1.
      split; [cbn [length]; lia|].
      intros k Hk. specialize (Hl (S k)). cbn [length].
      replace (k + S (length steps))%nat with (S k + length steps)%nat by lia.
      apply Hl. rewrite Hl1, Hk.
      destruct (Z.eqb_spec (TRACK_HISTORY_LENGTH cfg) 0); lia. }
  intros Hu. destruct (Hgen _ _ _ Hu) as [Ha Hl]. split; [exact Ha|].
  apply (Hl 0%nat). cbn [TrackedObject_init position_history length].
  destruct (Z.eqb_spec (TRACK_HISTORY_LENGTH cfg) 0); lia.
Qed.

End TrackedObjectFacts.

(** A car's box of width 100 and height 0: only the width-based estimate
    is available, 1.8 * 800 / 100 = 14.4 m. *)
Lemma estimate_distance_weighting_witness :
  (0 < bx2 (mkBBox 100 100 200 100) - bx1 (mkBBox 100 100 200 100))%Q /\
  (Tracker._estimate_distance example_config approx_sqrt (mkBBox 100 100 200 100) "car"
   == 72 # 5)%Q.
Proof.
  assert (H1 : (0 < bx2 (mkBBox 100 100 200 100) - bx1 (mkBBox 100 100 200 100))%Q)
    by reflexivity.
  split; [exact H1|].
  eapply Qeq_trans;
    [exact (estimate_distance_weighting example_config approx_sqrt
              (mkBBox 100 100 200 100) "car" H1)|].
  vm_compute. reflexivity.
Defined.

(** Two updates of a new tracked car with a history of 30 samples. *)
Lemma position_history_length_witness :
  exists final,
    0 <= TRACK_HISTORY_LENGTH example_config /\
    Tracker.updates example_config approx_sqrt
      (Tracker.TrackedObject_init example_config approx_sqrt (mkBBox 100 100 200 200) 1 "car" 1)
      [(mkBBox 100 150 200 250, 2%Q); (mkBBox 100 200 200 300, 3%Q)] = Some final /\
    Tracker.age final = 2 /\
    length (Tracker.position_history final) = 3%nat.
Proof.
  eexists.
  match goal with
  | |- ?A1 /\ ?A2 /\ _ =>
      assert (H1 : A1) by (vm_compute; discriminate);
      assert (H2 : A2) by (vm_compute; reflexivity)
  end.
  exact (conj H1 (conj H2
          (position_history_length example_config approx_sqrt _ _ _ _ _ _ H1 H2))).
Defined.

(** ** The per-track risk level *)

Section RiskFacts.

Import TrackerRisk.
Import CollisionPredictor(RiskLevel, RiskNone, Low, Medium, High, Critical).

Variable cfg : Config.
Variable rcfg : RiskConfig.

(** X27: the per-track risk level is High or Critical exactly when one
    of the four factors is at least 3, so an object of a high-priority class
    or within the critical distance is rated at least High whatever the other
    factors are.  It is Critical exactly when the distance or the TTC is
    critical and the factors sum to at least 10, and None exactly when every
    factor is 1. *)
Theorem assess_risk_levels (self : Tracker.TrackedObject) :
  let level := _assess_risk cfg rcfg self in
  let fd := distance_factor cfg (Tracker.distance_estimate self) in
  let ft := ttc_factor cfg (Tracker.time_to_collision self) in
  let fs := speed_factor rcfg (Tracker.speed self) in
  let fp := priority_factor rcfg (Tracker.class_name self) in
  ((3 <= fd \/ 3 <= ft \/ 3 <= fs \/ 3 <= fp) <-> (level = High \/ level = Critical)) /\
  (level = Critical <-> ((fd = 4 \/ ft = 4) /\ 10 <= fd + ft + fs + fp)) /\
  (level = RiskNone <-> (fd = 1 /\ ft = 1 /\ fs = 1 /\ fp = 1)) /\
  (in_classes (Tracker.class_name self) (HIGH_PRIORITY_CLASSES rcfg) = true ->
   level = High \/ level = Critical) /\
  (Qleb (Tracker.distance_estimate self) (CRITICAL_DISTANCE_THRESHOLD cfg) = true ->
   level = High \/ level = Critical).
Proof.
  cbv zeta.
  unfold _assess_risk, risk_factors, distance_factor, ttc_factor, speed_factor,
    priority_factor.
  repeat match goal with
         | |- context [if ?c then _ else _] => destruct c
         end;
    vm_compute; intuition (try discriminate; try congruence).
Qed.

End RiskFacts.

(** A pedestrian far away and standing still: the class alone makes the
    risk level High. *)
Lemma assess_risk_levels_witness :
  let self := Tracker.TrackedObject_init example_config approx_sqrt
                (mkBBox 300 200 310 213) 1 "person" 1 in
  (20 < Tracker.distance_estimate self)%Q /\
  TrackerRisk._assess_risk example_config example_risk_config self = CollisionPredictor.High.
Proof.
  cbv zeta. split; [vm_compute; reflexivity|].
  destruct (assess_risk_levels example_config example_risk_config
              (Tracker.TrackedObject_init example_config approx_sqrt
                 (mkBBox 300 200 310 213) 1 "person" 1)) as (_ & Hc & _ & Hp & _).
  cbv zeta in Hc, Hp.
  destruct (Hp ltac:(vm_compute; reflexivity)) as [Hh|Hcr]; [exact Hh|].
  apply Hc in Hcr. destruct Hcr as [[Hd|Hd] _]; vm_compute in Hd; discriminate.
Defined.

(** ** From the analysis to the decision and the warning *)

Section WarningFacts.

Import CollisionPredictor.

Variable cfg : Config.
Variable sqrt : Q -> Q.

Lemma frame_score_cases self objs frame :
  let r := snd (analyze_collision_risk cfg sqrt self objs frame) in
  risk_level r = risk_level_of_score (res_threat_score r) /\
  ((threatening_objects r = [] /\ res_threat_score r = 0) \/
   (threatening_objects r <> [] /\ 50 <= res_threat_score r <= 100)).
Proof.
  cbv zeta.
  destruct (analyze_collision_risk_fields cfg sqrt self objs frame)
    as (Hs & Hl & _ & Ht & _).
  destruct (analyze_collision_risk_invariant cfg sqrt self objs frame)
    as (Hall & Hmax & _).
  cbv zeta in *. rewrite <- Ht in Hall, Hmax. rewrite <- Hs in Hmax, Hl.
  set (r := snd (analyze_collision_risk cfg sqrt self objs frame)) in *.
  split; [exact Hl|].
  destruct (threatening_objects r) as [|a thr] eqn:E.
  - left. split; [reflexivity|]. rewrite Hmax. reflexivity.
  - right. split; [discriminate|]. split.
    + rewrite Hmax. apply Forall_cons in Hall. destruct Hall as [(_ & _ & Ha) _].
      pose proof (max_score_upper (a :: thr) a ltac:(apply list_elem_of_here)). lia.
    + rewrite Hmax. apply max_score_le; [lia|].
      eapply Forall_impl; [exact Hall|]. cbn beta. intros b Hb. lia.
Qed.

Lemma decision_of_level level :
  DecisionMaker.make_decision (DecisionMaker.risk_level_name level) =
  match level with
  | High | Critical => [DecisionMaker.FORWARD_COLLISION]
  | _ => []
  end.
Proof. destruct level; reflexivity. Qed.

Lemma warning_of_level level :
  WarningGenerator._generate_simple_warning (DecisionMaker.risk_level_name level) =
  match level with
  | Critical => "Immediate brake. Collision imminent."
  | High => "Brake now. High collision risk."
  | Medium => "Slow down. Object ahead."
  | Low => "Stay alert."
  | RiskNone => ""
  end%string.
Proof. destruct level; reflexivity. Qed.

(** X28: on the result of any frame, the decision maker raises the
    forward-collision warning exactly when the frame's threat score is at
    least 60, and that is exactly when the warning text tells the driver to
    brake; the warning text is empty exactly when the frame has no
    threatening object; and the text for a Low risk is never produced. *)
Theorem warning_follows_threat_score self objs frame :
  let r := snd (analyze_collision_risk cfg sqrt self objs frame) in
  let decision := DecisionMaker.make_decision (DecisionMaker.risk_level_name (risk_level r)) in
  let text := WarningGenerator.generate_warning r in
  (decision = [DecisionMaker.FORWARD_COLLISION] <-> 60 <= res_threat_score r) /\
  (decision = [] <-> res_threat_score r < 60) /\
  (60 <= res_threat_score r <->
   (text = "Immediate brake. Collision imminent."%string \/
    text = "Brake now. High collision risk."%string)) /\
  (text = ""%string <-> threatening_objects r = []) /\
  text <> "Stay alert."%string.
Proof.
  cbv zeta. destruct (frame_score_cases self objs frame) as [Hl Hcase].
  cbv zeta in Hl, Hcase. unfold WarningGenerator.generate_warning.
  set (r := snd (analyze_collision_risk cfg sqrt self objs frame)) in *.
  clearbody r. rewrite decision_of_level, warning_of_level, Hl.
  unfold risk_level_of_score.
  destruct Hcase as [[Ht H0]|[Ht Hs]].
  - rewrite H0, Ht. cbn [Z.leb Z.compare Pos.compare Pos.compare_cont].
    intuition (try discriminate; try congruence; try lia).
  - repeat match goal with
           | |- context [Z.leb ?a ?b] => destruct (Z.leb_spec a b)
           end; try lia;
      intuition (try discriminate; try congruence; try lia).
Qed.

End WarningFacts.

(** ** The pipeline: tracker and analyzer together *)

Section PipelineFacts.

Variable cfg : Config.
Variable sqrt : Q -> Q.
Variable linear_sum_assignment : KalmanTracker.Matrix -> list (nat * nat).

Local Abbreviation _process_frame := (Pipeline._process_frame cfg sqrt linear_sum_assignment).
Local Abbreviation process_frames := (Pipeline.process_frames cfg sqrt linear_sum_assignment).

Lemma pipeline_invariant_init : pipeline_invariant Pipeline.Processor_init.
Proof.
  split; [apply ids_fresh_init|]. split; [apply lifecycle_invariant_init|].
  intros k Hk. cbn in Hk. set_solver.
Qed.

Lemma process_frame_invariant p detections frame p' out :
  pipeline_invariant p ->
  _process_frame p detections frame = Some (p', out) ->
  pipeline_invariant p' /\
  KalmanTracker.next_id (Pipeline.tracker p) <= KalmanTracker.next_id (Pipeline.tracker p') /\
  Forall (fun d => 1 <= KalmanTracker.out_track_id d
                   < KalmanTracker.next_id (Pipeline.tracker p'))
         (Pipeline.tracked_objects out) /\
  CollisionPredictor.total_objects (Pipeline.collision_analysis out)
    = length (Pipeline.tracked_objects out).
Proof.
  intros (Hfresh & Hlife & Hkeys). unfold Pipeline._process_frame.
  destruct (KalmanTracker.update linear_sum_assignment sqrt (Pipeline.tracker p) detections)
    as [[trk objs]|] eqn:Hu; cbn [mbind option_bind]; [|discriminate].
  pose proof (analyze_collision_risk_history cfg sqrt (Pipeline.collision_predictor p)
                (map Pipeline.as_tracked_obj objs) frame) as [Hdom _].
  pose proof (analyze_collision_risk_result cfg sqrt (Pipeline.collision_predictor p)
                (map Pipeline.as_tracked_obj objs) frame) as (_ & _ & _ & Htotal).
  cbv zeta in Hdom, Htotal.
  destruct (CollisionPredictor.analyze_collision_risk cfg sqrt (Pipeline.collision_predictor p)
              (map Pipeline.as_tracked_obj objs) frame) as [predictor analysis].
  cbn [fst snd] in Hdom, Htotal. intros [= <- <-].
  cbn [Pipeline.tracker Pipeline.collision_predictor Pipeline.tracked_objects
       Pipeline.collision_analysis].
  destruct (update_ids_fresh _ _ _ _ _ _ Hfresh Hu) as (Hfresh' & Hle & _ & Hout).
  destruct (update_lifecycle _ _ _ _ _ _ Hlife Hu) as [Hlife' _].
  assert (Hids : Forall (fun d => 1 <= KalmanTracker.out_track_id d < KalmanTracker.next_id trk)
                   objs).
  { apply Forall_forall. intros d Hd.
    assert (Hin : KalmanTracker.out_track_id d ∈ map KalmanTracker.id (KalmanTracker.trackers trk))
      by (apply Hout, list_elem_of_fmap_2, Hd).
    apply list_elem_of_fmap in Hin. destruct Hin as (t & -> & Ht).
    destruct Hfresh' as [Hlt _]. destruct Hlife' as (_ & _ & Hall).
    rewrite Forall_forall in Hlt, Hall. specialize (Hlt _ Ht). specialize (Hall _ Ht).
    cbv beta in Hlt. lia. }
  split; [|split; [exact Hle|split; [exact Hids|]]].
  - split; [exact Hfresh'|]. split; [exact Hlife'|].
    intros k Hk. cbn [Pipeline.tracker Pipeline.collision_predictor] in Hk |- *.
    rewrite Hdom in Hk. apply elem_of_union in Hk. destruct Hk as [Hk|Hk].
    + specialize (Hkeys _ Hk). lia.
    + apply elem_of_list_to_set, list_elem_of_fmap in Hk. destruct Hk as (obj & -> & Hobj).
      unfold CollisionPredictor.vehicles_of in Hobj. apply list_elem_of_filter in Hobj.
      destruct Hobj as [_ Hobj]. apply list_elem_of_fmap in Hobj.
      destruct Hobj as (d & -> & Hd). rewrite Forall_forall in Hids.
      apply (Hids _ Hd).
  - rewrite Htotal. apply length_map.
Qed.

Lemma process_frames_invariant frames p final outs :
  pipeline_invariant p ->
  process_frames p frames = Some (final, outs) ->
  pipeline_invariant final /\
  KalmanTracker.next_id (Pipeline.tracker p) <= KalmanTracker.next_id (Pipeline.tracker final) /\
  Forall (fun out =>
            Forall (fun d => 1 <= KalmanTracker.out_track_id d
                             < KalmanTracker.next_id (Pipeline.tracker final))
                   (Pipeline.tracked_objects out) /\
            CollisionPredictor.total_objects (Pipeline.collision_analysis out)
              = length (Pipeline.tracked_objects out)) outs.
Proof.
  revert p final outs. induction frames as [|[dets frame] frames IH]; intros p final outs Hinv;
    cbn [Pipeline.process_frames].
  - intros [= <- <-]. split; [exact Hinv|]. split; [lia|constructor].
  - destruct (_process_frame p dets frame) as [[p1 out]|] eqn:Hp; cbn [mbind option_bind];
      [|discriminate].
    destruct (process_frames p1 frames) as [[final' outs']|] eqn:Hr; cbn [mbind option_bind];
      [|discriminate].
    intros [= <- <-].
    destruct (process_frame_invariant _ _ _ _ _ Hinv Hp) as (Hinv1 & Hle1 & Hids1 & Htot1).
    destruct (IH _ _ _ Hinv1 Hr) as (Hf & Hle & Hall).
    split; [exact Hf|]. split; [lia|]. constructor; [|exact Hall].
    split; [|exact Htot1]. eapply Forall_impl; [exact Hids1|]. cbv beta. intros d Hd. lia.
Qed.

(** X29: in the offline pipeline, started with a fresh tracker and a
    fresh analyzer and run over any video, every key of the analyzer's
    position-history map and every identity in any frame's output is an
    identity that the tracker has given out, between 1 and its [next_id];
    and the analysis of each frame counts exactly the objects that the
    tracker emitted for it. *)
Theorem pipeline_identities_are_issued frames final outs :
  process_frames Pipeline.Processor_init frames = Some (final, outs) ->
  (forall k,
      k ∈ dom (CollisionPredictor.vehicle_history (Pipeline.collision_predictor final)) ->
      1 <= k < KalmanTracker.next_id (Pipeline.tracker final)) /\
  Forall (fun out =>
            Forall (fun d => 1 <= KalmanTracker.out_track_id d
                             < KalmanTracker.next_id (Pipeline.tracker final))
                   (Pipeline.tracked_objects out) /\
            CollisionPredictor.total_objects (Pipeline.collision_analysis out)
              = length (Pipeline.tracked_objects out)) outs.
Proof.
  intros Hr.
  destruct (process_frames_invariant _ _ _ _ pipeline_invariant_init Hr)
    as ((_ & _ & Hkeys) & _ & Hall).
  split; [exact Hkeys|exact Hall].
Qed.

End PipelineFacts.

(** A car detected in two frames of a video. *)
Lemma pipeline_identities_are_issued_witness :
  exists final outs,
    Pipeline.process_frames example_config approx_sqrt diagonal_assignment
      Pipeline.Processor_init
      [([example_detection], plain_frame); ([example_detection], plain_frame)]
      = Some (final, outs) /\
    KalmanTracker.next_id (Pipeline.tracker final) = 2 /\
    dom (CollisionPredictor.vehicle_history (Pipeline.collision_predictor final)) = {[1]} /\
    (forall k,
        k ∈ dom (CollisionPredictor.vehicle_history (Pipeline.collision_predictor final)) ->
        1 <= k < KalmanTracker.next_id (Pipeline.tracker final)) /\
    Forall (fun out =>
              Forall (fun d => 1 <= KalmanTracker.out_track_id d
                               < KalmanTracker.next_id (Pipeline.tracker final))
                     (Pipeline.tracked_objects out) /\
              CollisionPredictor.total_objects (Pipeline.collision_analysis out)
                = length (Pipeline.tracked_objects out)) outs.
Proof.
  eexists _, _.
  match goal with
  | |- ?A1 /\ ?A2 /\ ?A3 /\ _ =>
      assert (H1 : A1) by (vm_compute; reflexivity);
      assert (H2 : A2) by reflexivity;
      assert (H3 : A3) by (vm_compute; reflexivity)
  end.
  exact (conj H1 (conj H2 (conj H3
          (pipeline_identities_are_issued example_config approx_sqrt diagonal_assignment
             _ _ _ H1)))).
Defined.

(** ** Prediction without measurements *)

Section CoastingFacts.

Import KalmanTracker.

Lemma py_int_Qeq (x y : Q) : (x == y)%Q -> py_int x = py_int y.
Proof.
  destruct x as [a b], y as [c d]. unfold Qeq, py_int. cbn [Qnum Qden]. intros He.
  rewrite <- (Z.quot_mul_cancel_r a (Z.pos b) (Z.pos d)) by lia.
  rewrite <- (Z.quot_mul_cancel_r c (Z.pos d) (Z.pos b)) by lia.
  rewrite He. f_equal. lia.
Qed.

Lemma Q_of_int_integer (x : Q) (z : Z) : (x == inject_Z z)%Q -> Q_of_int x = inject_Z z.
Proof.
  intros He. unfold Q_of_int. rewrite (py_int_Qeq _ _ He). unfold py_int, inject_Z.
  cbn [Qnum Qden]. rewrite Z.quot_1_r. reflexivity.
Qed.

(** One prediction moves the position by the velocity and keeps the
    velocity. *)
Lemma predict_state t x y vx vy :
  state t = [x; y; vx; vy] ->
  exists x' y' vx' vy',
    state (predict t) = [x'; y'; vx'; vy'] /\
    (x' == x + vx)%Q /\ (y' == y + vy)%Q /\ (vx' == vx)%Q /\ (vy' == vy)%Q.
Proof.
  intros Hs. unfold predict. cbn [state]. rewrite Hs.
  unfold mat_vec, F, dot. cbn [map zip_with fold_right].
  eexists _, _, _, _. split; [reflexivity|].
  rewrite !Qred_correct. repeat split; ring.
Qed.

Lemma coasting_state (b : BBox) (n : Z) (c : string) (conf : Q) (k : nat) :
  let t := Nat.iter k predict (FastKalmanFilter_init b n c conf) in
  exists x y vx vy,
    state t = [x; y; vx; vy] /\
    (x == (bx1 b + bx2 b) / 2)%Q /\ (y == (by1 b + by2 b) / 2)%Q /\
    (vx == 0)%Q /\ (vy == 0)%Q /\
    bbox t = b /\ time_since_update t = Z.of_nat k /\ age t = Z.of_nat k /\
    hits t = 1 /\ id t = n.
Proof.
  cbv zeta. induction k as [|k IH].
  - cbn [Nat.iter]. eexists _, _, _, _. split; [reflexivity|].
    cbn [bbox time_since_update age hits id FastKalmanFilter_init].
    repeat split; reflexivity.
  - rewrite Nat.iter_succ. destruct IH as (x & y & vx & vy & Hs & Hx & Hy & Hvx & Hvy & Hb & Ht
                                    & Ha & Hh & Hi).
    destruct (predict_state _ _ _ _ _ Hs) as (x' & y' & vx' & vy' & Hs' & Hx' & Hy' & Hvx'
                                              & Hvy').
    exists x', y', vx', vy'. split; [exact Hs'|].
    split; [rewrite Hx', Hx, Hvx; ring|]. split; [rewrite Hy', Hy, Hvy; ring|].
    split; [rewrite Hvx'; exact Hvx|]. split; [rewrite Hvy'; exact Hvy|].
    cbn [predict bbox time_since_update age hits id].
    split; [exact Hb|]. split; [lia|]. split; [lia|]. split; [exact Hh|exact Hi].
Qed.

(** X30: a new track that is never matched again coasts in place.
    After any positive number [k] of predictions its velocity is still 0,
    its position is still the centre of its box, its counters are
    [time_since_update = age = k] and [hits = 1], and for a box with integer
    coordinates the box that [get_bbox] computes from the predicted state is
    the box of its detection. *)
Theorem unmatched_new_track_coasts (x1 y1 x2 y2 n : Z) (c : string) (conf : Q) (k : nat) :
  let b := mkBBox (inject_Z x1) (inject_Z y1) (inject_Z x2) (inject_Z y2) in
  let t := Nat.iter (S k) predict (FastKalmanFilter_init b n c conf) in
  get_bbox t = b /\
  Forall2 Qeq (state t) [((bx1 b + bx2 b) / 2)%Q; ((by1 b + by2 b) / 2)%Q; 0%Q; 0%Q] /\
  time_since_update t = Z.of_nat (S k) /\ age t = Z.of_nat (S k) /\ hits t = 1.
Proof.
  cbv zeta.
  destruct (coasting_state
              (mkBBox (inject_Z x1) (inject_Z y1) (inject_Z x2) (inject_Z y2)) n c conf (S k))
    as (x & y & vx & vy & Hs & Hx & Hy & Hvx & Hvy & Hb & Ht & Ha & Hh & _).
  cbv zeta in Hs, Hx, Hy, Hvx, Hvy, Hb, Ht, Ha, Hh. cbn [bx1 by1 bx2 by2] in Hx, Hy.
  split; [|split; [|split; [exact Ht|split; [exact Ha|exact Hh]]]].
  - unfold get_bbox. rewrite Ht, Hs, Hb.
    assert (Hpos : Z.ltb 0 (Z.of_nat (S k)) = true) by (apply Z.ltb_lt; lia).
    rewrite Hpos. cbn [nth bx1 by1 bx2 by2]. f_equal; apply Q_of_int_integer.
    + rewrite Hx. field.
    + rewrite Hy. field.
    + rewrite Hx. field.
    + rewrite Hy. field.
  - rewrite Hs. cbn [bx1 by1 bx2 by2].
    repeat constructor; assumption.
Qed.

End CoastingFacts.

(** ** Closed examples of the conditional parts *)

(** A box of height 0 gets the default distance of the analyzer. *)
Lemma estimate_distance_fast_range_witness :
  CollisionPredictor._estimate_distance_fast example_config (car 1 (mkBBox 0 100 50 100)) 480
  = 50%Q.
Proof.
  destruct (estimate_distance_fast_range example_config (car 1 (mkBBox 0 100 50 100)) 480)
    as [_ Hd].
  apply Hd. vm_compute. discriminate.
Defined.

(** Of two cars in a 480-pixel frame, the one with the higher box is
    estimated nearer. *)
Lemma calculate_simple_distance_range_antitone_witness :
  (Helpers.calculate_simple_distance (mkBBox 0 0 10 100) "car" 480
   <= Helpers.calculate_simple_distance (mkBBox 0 0 10 50) "car" 480)%Q.
Proof.
  destruct (calculate_simple_distance_range_antitone (mkBBox 0 0 10 50) (mkBBox 0 0 10 100)
              "car" 480) as (_ & _ & Hmono).
  apply Hmono; vm_compute; (reflexivity || discriminate).
Defined.

(** A car at 8 m in the ego lane: the risk is Critical and the first
    recommendation is to brake. *)
Lemma recommendations_follow_threats_witness :
  let r := snd (CollisionPredictor.analyze_collision_risk example_config approx_sqrt
                  CollisionPredictor.Predictor_init [car_at_8m] plain_frame) in
  CollisionPredictor.risk_level r = CollisionPredictor.Critical /\
  head (CollisionPredictor.recommendations r) = Some "EMERGENCY BRAKE"%string.
Proof.
  cbv zeta.
  assert (H1 : CollisionPredictor.risk_level
                 (snd (CollisionPredictor.analyze_collision_risk example_config approx_sqrt
                         CollisionPredictor.Predictor_init [car_at_8m] plain_frame))
               = CollisionPredictor.Critical) by (vm_compute; reflexivity).
  destruct (recommendations_follow_threats example_config approx_sqrt
              CollisionPredictor.Predictor_init [car_at_8m] plain_frame) as (_ & Hc & _).
  exact (conj H1 (Hc H1)).
Defined.

(** Ego positions at 100 for four frames, then a 640-pixel frame with a
    lane: a lane change to the right is detected. *)
Lemma lane_change_flag_and_direction_witness :
  let li := snd (LaneDetector.detect_lanes [100; 100; 100; 100] lane_frame) in
  LaneDetector.lane_change_detected li = true /\
  LaneDetector.lane_change_direction li = LaneDetector.DirRight /\
  LaneDetector.lane_boundaries li <> [].
Proof.
  cbv zeta.
  assert (H1 : LaneDetector.lane_change_detected
                 (snd (LaneDetector.detect_lanes [100; 100; 100; 100] lane_frame)) = true)
    by (vm_compute; reflexivity).
  destruct (lane_change_flag_and_direction [100; 100; 100; 100] lane_frame) as (_ & Hb & _).
  split; [exact H1|]. split; [vm_compute; reflexivity|exact (Hb H1)].
Defined.

(** Two boxes with a common corner region overlap with a positive IoU. *)
Lemma iou_between_0_and_1_witness :
  (0 < KalmanTracker._calculate_iou_fast (mkBBox 0 0 10 10) (mkBBox 5 5 15 15))%Q.
Proof.
  destruct (iou_between_0_and_1 (mkBBox 0 0 10 10) (mkBBox 5 5 15 15)) as (_ & _ & Hpos).
  apply Hpos; vm_compute; reflexivity.
Defined.
